(** * Steer-driven runner: the iteration loop, the state snapshot and the
      feedback store, embedded from [runner.py], [state.py], [feedback.py]
      and [config.py].

    Conventions of the embedding.
    - Python [int] is [Z]; [//] and [%] are [Z.div] and [Z.modulo] (both
      floor, sign of the divisor), and a zero divisor raises.
    - Python [str] is [string]; the texts handled here are ASCII.
    - [Optional[T]] is [option T].
    - The files the loop reads and writes are fields of a [World] record
      that every effectful function threads explicitly; the clock, git, the
      agent and the people around the run are an [Env] of answers, indexed
      by iteration. *)

From Stdlib Require Import ZArith List String Ascii Bool Lia.
Import ListNotations.
Open Scope string_scope.
Open Scope Z_scope.
Set Warnings "-register-all".

(** ** Text helpers *)

Module Text.

Definition dquote : ascii := ascii_of_nat 34.
Definition backslash : ascii := ascii_of_nat 92.
Definition newline : ascii := ascii_of_nat 10.
Definition tab : ascii := ascii_of_nat 9.
Definition cr : ascii := ascii_of_nat 13.
Definition backspace : ascii := ascii_of_nat 8.
Definition formfeed : ascii := ascii_of_nat 12.

Definition chr (c : ascii) : string := String c EmptyString.
Definition nl : string := chr newline.

Definition digit_char (d : Z) : ascii := ascii_of_nat (48 + Z.to_nat d).

(** The decimal digits of a non-negative number, most significant first;
    [fuel] bounds the number of digits. *)
Fixpoint dec_digits (fuel : nat) (z : Z) : string :=
  match fuel with
  | O => ""
  | S f =>
      if z <? 10 then chr (digit_char z)
      else dec_digits f (z / 10) ++ chr (digit_char (z mod 10))
  end.

Definition str_of_nonneg (z : Z) : string :=
  dec_digits (S (Z.to_nat (Z.log2 z))) z.

(** [str(n)] for an [int]. *)
Definition str_of_Z (z : Z) : string :=
  if z <? 0 then "-" ++ str_of_nonneg (- z) else str_of_nonneg z.

(** [sys.int_info.default_max_str_digits]: the conversion between [int] and
    decimal text raises [ValueError] above this number of digits. *)
Definition int_max_str_digits : Z := 4300.

(** The integers that [str] writes and [int] reads back. *)
Definition within_int_limit (z : Z) : bool :=
  Z.abs z <? 10 ^ int_max_str_digits.

Fixpoint repeat_str (s : string) (n : nat) : string :=
  match n with
  | O => ""
  | S k => s ++ repeat_str s k
  end.

(** A non-negative number in decimal, left-padded with zeros to [width]
    ([%02d], [%04d], [%06d]). *)
Definition pad0 (width : nat) (z : Z) : string :=
  let s := str_of_Z z in
  repeat_str "0" (width - String.length s) ++ s.

Definition digit_val (c : ascii) : option Z :=
  let n := Z.of_nat (nat_of_ascii c) in
  if (48 <=? n) && (n <=? 57) then Some (n - 48) else None.

(** Exactly [n] decimal digits at the head of [s]. *)
Fixpoint take_digits (n : nat) (acc : Z) (s : string) : option (Z * string) :=
  match n with
  | O => Some (acc, s)
  | S k =>
      match s with
      | String c r =>
          match digit_val c with
          | Some d => take_digits k (10 * acc + d) r
          | None => None
          end
      | EmptyString => None
      end
  end.

(** The longest run of decimal digits at the head of [s]. *)
Fixpoint span_digits (acc : Z) (s : string) : Z * string :=
  match s with
  | String c r =>
      match digit_val c with
      | Some d => span_digits (10 * acc + d) r
      | None => (acc, s)
      end
  | EmptyString => (acc, s)
  end.

(** The number a run of digits [d] continues [acc] to. *)
Fixpoint digits_value (acc : Z) (d : string) : Z :=
  match d with
  | String c r =>
      match digit_val c with
      | Some v => digits_value (10 * acc + v) r
      | None => acc
      end
  | EmptyString => acc
  end.

Fixpoint is_digits (d : string) : bool :=
  match d with
  | String c r =>
      match digit_val c with Some _ => is_digits r | None => false end
  | EmptyString => true
  end.

Definition expect (c : ascii) (s : string) : option string :=
  match s with
  | String d r => if Ascii.eqb c d then Some r else None
  | EmptyString => None
  end.

(** [str.isspace] on the code points 0..255: tab, LF, VT, FF, CR, FS, GS, RS,
    US, space, NEL (U+0085) and the no-break space (U+00A0). *)
Definition isspace (c : ascii) : bool :=
  let n := nat_of_ascii c in
  ((9 <=? n) && (n <=? 13) || (28 <=? n) && (n <=? 32)
   || (n =? 133) || (n =? 160))%nat.

Fixpoint lstrip (s : string) : string :=
  match s with
  | String c r => if isspace c then lstrip r else s
  | EmptyString => EmptyString
  end.

Fixpoint rev_string (acc s : string) : string :=
  match s with
  | String c r => rev_string (String c acc) r
  | EmptyString => acc
  end.

Definition rstrip (s : string) : string :=
  rev_string "" (lstrip (rev_string "" s)).

(** [s.strip()] *)
Definition strip (s : string) : string := rstrip (lstrip s).

(** [s.startswith(p)] *)
Definition startswith (p s : string) : bool := String.prefix p s.

Fixpoint drop (n : nat) (s : string) : string :=
  match n, s with
  | S k, String _ r => drop k r
  | _, _ => s
  end.

(** [s.endswith(p)] *)
Definition endswith (p s : string) : bool :=
  (String.length p <=? String.length s)%nat
  && String.eqb (drop (String.length s - String.length p) s) p.

(** [s.split("\n")] *)
Fixpoint split_lines (cur : string) (s : string) : list string :=
  match s with
  | EmptyString => [rev_string "" cur]
  | String c r =>
      if Ascii.eqb c newline then rev_string "" cur :: split_lines "" r
      else split_lines (String c cur) r
  end.

(** [s.replace(p, "")] for a non-empty [p]: every non-overlapping occurrence,
    scanning from the left, is removed. *)
Fixpoint remove_all (fuel : nat) (p s : string) : string :=
  match fuel with
  | O => s
  | S k =>
      match s with
      | EmptyString => EmptyString
      | String c r =>
          if String.prefix p s then remove_all k p (drop (String.length p) s)
          else String c (remove_all k p r)
      end
  end.

Definition replace_empty (p s : string) : string :=
  remove_all (String.length s) p s.

(** [s.count(p)] for a non-empty [p]: the occurrences that do not overlap,
    found from the left; [skip] characters belong to the occurrence just
    counted. *)
Fixpoint count_from (skip : nat) (p s : string) : nat :=
  match s with
  | EmptyString => O
  | String _ r =>
      match skip with
      | S k => count_from k p r
      | O =>
          if String.prefix p s
          then S (count_from (String.length p - 1) p r)
          else count_from O p r
      end
  end.

Definition count (p s : string) : nat := count_from O p s.

(** [sep.join(l)] *)
Definition join (sep : string) (l : list string) : string :=
  String.concat sep l.

(** [l[-n:]] for a positive [n]. *)
Definition lastn {A : Type} (n : nat) (l : list A) : list A :=
  skipn (List.length l - n) l.

(** No line break in the text. *)
Fixpoint single_line (s : string) : bool :=
  match s with
  | EmptyString => true
  | String c r => negb (Ascii.eqb c newline) && single_line r
  end.

(** Truthiness of a [str]. *)
Definition nonempty (s : string) : bool :=
  match s with EmptyString => false | _ => true end.

End Text.

(** ** JSON documents: [json.dump(obj, f, indent=2)] and [json.load(f)]

    The documents of this program hold objects, strings, integers, booleans
    and null.  Floating-point numbers are outside the model: [loads] gives
    [None] on a number with a fraction or an exponent, and on the literals
    NaN and Infinity.  A string is a sequence of code points below 256. *)

Module Json.
Import Text.

Inductive json : Type :=
| JNull
| JBool (b : bool)
| JInt (z : Z)
| JString (s : string)
| JArray (l : list json)
| JObject (members : list (string * json)).

(** *** Encoding *)

Definition hex_digit (n : nat) : ascii :=
  if (n <? 10)%nat then ascii_of_nat (48 + n) else ascii_of_nat (87 + n).

(** One character of a string literal, as [ensure_ascii=True] writes it:
    the short escapes, [\u00xx] for everything outside space..tilde. *)
Definition encode_char (c : ascii) : string :=
  let n := nat_of_ascii c in
  if Ascii.eqb c backslash then String backslash (chr backslash)
  else if Ascii.eqb c dquote then String backslash (chr dquote)
  else if Ascii.eqb c backspace then String backslash "b"
  else if Ascii.eqb c formfeed then String backslash "f"
  else if Ascii.eqb c newline then String backslash "n"
  else if Ascii.eqb c cr then String backslash "r"
  else if Ascii.eqb c tab then String backslash "t"
  else if ((32 <=? n) && (n <=? 126))%nat then chr c
  else String backslash
         ("u00" ++ chr (hex_digit (n / 16)) ++ chr (hex_digit (n mod 16))).

Fixpoint encode_chars (s : string) : string :=
  match s with
  | EmptyString => EmptyString
  | String c r => encode_char c ++ encode_chars r
  end.

Definition encode_string (s : string) : string :=
  chr dquote ++ encode_chars s ++ chr dquote.

(** A line break followed by [indent * level] spaces, [indent] being 2. *)
Definition newline_indent (level : nat) : string :=
  nl ++ repeat_str "  " level.

(** [json.dumps(j, indent=2)] at nesting depth [level]: item separator
    [","], key separator [": "], empty containers on one line.  An integer
    is written whatever its size: the limit of [int_max_str_digits] digits,
    above which the conversion to decimal text raises, is outside the
    model. *)
Fixpoint encode (level : nat) (j : json) : string :=
  match j with
  | JNull => "null"
  | JBool true => "true"
  | JBool false => "false"
  | JInt z => str_of_Z z
  | JString s => encode_string s
  | JArray [] => "[]"
  | JArray (x :: xs) =>
      "[" ++ newline_indent (S level) ++ encode (S level) x
      ++ (fix items (l : list json) : string :=
            match l with
            | [] => ""
            | y :: ys =>
                "," ++ newline_indent (S level) ++ encode (S level) y ++ items ys
            end) xs
      ++ newline_indent level ++ "]"
  | JObject [] => "{}"
  | JObject ((k, v) :: ms) =>
      "{" ++ newline_indent (S level) ++ encode_string k ++ ": "
      ++ encode (S level) v
      ++ (fix items (l : list (string * json)) : string :=
            match l with
            | [] => ""
            | (k', v') :: ys =>
                "," ++ newline_indent (S level) ++ encode_string k' ++ ": "
                ++ encode (S level) v' ++ items ys
            end) ms
      ++ newline_indent level ++ "}"
  end.

Definition dumps (j : json) : string := encode 0 j.

(** *** Decoding *)

(** JSON whitespace: space, tab, LF, CR. *)
Definition is_ws (c : ascii) : bool :=
  Ascii.eqb c " " || Ascii.eqb c tab || Ascii.eqb c newline || Ascii.eqb c cr.

Fixpoint skip_ws (s : string) : string :=
  match s with
  | String c r => if is_ws c then skip_ws r else s
  | EmptyString => EmptyString
  end.

Definition hex_val (c : ascii) : option nat :=
  let n := nat_of_ascii c in
  if ((48 <=? n) && (n <=? 57))%nat then Some (n - 48)%nat
  else if ((97 <=? n) && (n <=? 102))%nat then Some (n - 87)%nat
  else if ((65 <=? n) && (n <=? 70))%nat then Some (n - 55)%nat
  else None.

(** The four hex digits after [\u]; a code point of 256 or more is outside
    the model. *)
Definition parse_u4 (s : string) : option (ascii * string) :=
  match s with
  | String a (String b (String c (String d r))) =>
      match hex_val a, hex_val b, hex_val c, hex_val d with
      | Some x, Some y, Some z, Some t =>
          if ((x =? 0) && (y =? 0))%nat then Some (ascii_of_nat (16 * z + t), r)
          else None
      | _, _, _, _ => None
      end
  | _ => None
  end.

(** The body of a string literal, from just after the opening quote to just
    after the closing one.  Control characters are refused (strict mode). *)
Fixpoint parse_chars (fuel : nat) (acc : string) (s : string)
  : option (string * string) :=
  match fuel with
  | O => None
  | S f =>
      match s with
      | EmptyString => None
      | String c r =>
          if Ascii.eqb c dquote then Some (rev_string "" acc, r)
          else if Ascii.eqb c backslash then
            match r with
            | EmptyString => None
            | String e r' =>
                if Ascii.eqb e dquote then parse_chars f (String dquote acc) r'
                else if Ascii.eqb e backslash then parse_chars f (String backslash acc) r'
                else if Ascii.eqb e "/" then parse_chars f (String "/" acc) r'
                else if Ascii.eqb e "b" then parse_chars f (String backspace acc) r'
                else if Ascii.eqb e "f" then parse_chars f (String formfeed acc) r'
                else if Ascii.eqb e "n" then parse_chars f (String newline acc) r'
                else if Ascii.eqb e "r" then parse_chars f (String cr acc) r'
                else if Ascii.eqb e "t" then parse_chars f (String tab acc) r'
                else if Ascii.eqb e "u" then
                  match parse_u4 r' with
                  | Some (x, r'') => parse_chars f (String x acc) r''
                  | None => None
                  end
                else None
            end
          else if (nat_of_ascii c <? 32)%nat then None
          else parse_chars f (String c acc) r
      end
  end.

Definition is_digit (c : ascii) : bool :=
  match digit_val c with Some _ => true | None => false end.

(** Does a fraction or an exponent follow the integer part? *)
Definition float_follows (s : string) : bool :=
  match s with
  | String "." (String d _) => is_digit d
  | String e r =>
      if Ascii.eqb e "e" || Ascii.eqb e "E" then
        match r with
        | String sg (String d _) =>
            is_digit sg || ((Ascii.eqb sg "+" || Ascii.eqb sg "-") && is_digit d)
        | String d EmptyString => is_digit d
        | EmptyString => false
        end
      else false
  | EmptyString => false
  end.

(** A character a number can start with. *)
Definition number_head (c : ascii) : bool := is_digit c || Ascii.eqb c "-".

(** The text after an integer neither continues it nor turns it into a
    floating-point number. *)
Definition ends_number (s : string) : bool :=
  match s with
  | EmptyString => true
  | String c _ =>
      negb (is_digit c || Ascii.eqb c "." || Ascii.eqb c "e" || Ascii.eqb c "E")
  end.

(** [0] or a digit run that starts with 1..9. *)
Definition parse_nat (s : string) : option (Z * string) :=
  match s with
  | String c r =>
      match digit_val c with
      | Some 0 => Some (0, r)
      | Some d => Some (span_digits d r)
      | None => None
      end
  | EmptyString => None
  end.

(** A JSON integer.  A number with a fraction or an exponent, and the
    constants [NaN] and [Infinity], which [json.load] reads as floats, are
    outside the model and read as [None]; so is the limit of
    [int_max_str_digits] digits of the conversion from decimal text. *)
Definition parse_number (s : string) : option (json * string) :=
  let '(neg, body) :=
    match s with
    | String "-" r => (true, r)
    | _ => (false, s)
    end in
  match parse_nat body with
  | Some (n, r) =>
      if float_follows r then None
      else Some (JInt (if neg then - n else n), r)
  | None => None
  end.

(** [d[k] = v] on a [dict] kept in insertion order. *)
Fixpoint dict_set (k : string) (v : json) (d : list (string * json))
  : list (string * json) :=
  match d with
  | [] => [(k, v)]
  | (k', v') :: r =>
      if String.eqb k k' then (k, v) :: r else (k', v') :: dict_set k v r
  end.

(** [d.get(k)] *)
Fixpoint dict_get (k : string) (d : list (string * json)) : option json :=
  match d with
  | [] => None
  | (k', v) :: r => if String.eqb k k' then Some v else dict_get k r
  end.

(** One value at the head of [s] (no leading whitespace), and the rest. *)
Fixpoint parse_value (fuel : nat) (s : string) {struct fuel}
  : option (json * string) :=
  match fuel with
  | O => None
  | S f =>
      match s with
      | EmptyString => None
      | String c r =>
          if Ascii.eqb c dquote then
            match parse_chars (S (String.length r)) "" r with
            | Some (str, r') => Some (JString str, r')
            | None => None
            end
          else if Ascii.eqb c "{" then
            match skip_ws r with
            | String "}" r' => Some (JObject [], r')
            | r' => parse_members f [] r'
            end
          else if Ascii.eqb c "[" then
            match skip_ws r with
            | String "]" r' => Some (JArray [], r')
            | r' => parse_elements f [] r'
            end
          else if String.prefix "null" s then Some (JNull, drop 4 s)
          else if String.prefix "true" s then Some (JBool true, drop 4 s)
          else if String.prefix "false" s then Some (JBool false, drop 5 s)
          else parse_number s
      end
  end

with parse_elements (fuel : nat) (acc : list json) (s : string) {struct fuel}
  : option (json * string) :=
  match fuel with
  | O => None
  | S f =>
      match parse_value f s with
      | Some (v, r) =>
          match skip_ws r with
          | String "," r' => parse_elements f (v :: acc) (skip_ws r')
          | String "]" r' => Some (JArray (rev (v :: acc)), r')
          | _ => None
          end
      | None => None
      end
  end

with parse_members (fuel : nat) (acc : list (string * json)) (s : string)
  {struct fuel} : option (json * string) :=
  match fuel with
  | O => None
  | S f =>
      match expect dquote s with
      | Some r =>
          match parse_chars (S (String.length r)) "" r with
          | Some (k, r1) =>
              match expect ":" (skip_ws r1) with
              | Some r2 =>
                  match parse_value f (skip_ws r2) with
                  | Some (v, r3) =>
                      match skip_ws r3 with
                      | String "," r4 => parse_members f (dict_set k v acc) (skip_ws r4)
                      | String "}" r4 => Some (JObject (dict_set k v acc), r4)
                      | _ => None
                      end
                  | None => None
                  end
              | None => None
              end
          | None => None
          end
      | None => None
      end
  end.

(** What [parse_members] does with the text after a member's value: a comma
    leads to the next member (read by [next]), a closing brace ends the
    object. *)
Definition member_tail (next : list (string * json) -> string -> option (json * string))
  (d : list (string * json)) (r : string) : option (json * string) :=
  match skip_ws r with
  | String "," r4 => next d (skip_ws r4)
  | String "}" r4 => Some (JObject d, r4)
  | _ => None
  end.

(** [json.loads(s)]: one value, whitespace around it, nothing else.
    [None] is [JSONDecodeError]. *)
Definition loads (s : string) : option json :=
  match parse_value (S (String.length s)) (skip_ws s) with
  | Some (j, r) =>
      match skip_ws r with
      | EmptyString => Some j
      | _ => None
      end
  | None => None
  end.

End Json.

(** ** [datetime] values and their two renderings *)

Module Datetime.
Import Text.

Record datetime : Type := mk_datetime {
  year : Z; month : Z; day : Z;
  hour : Z; minute : Z; second : Z; microsecond : Z
}.

Definition is_leap (y : Z) : bool :=
  ((y mod 4 =? 0) && negb (y mod 100 =? 0)) || (y mod 400 =? 0).

Definition days_in_month (y m : Z) : Z :=
  if m =? 2 then (if is_leap y then 29 else 28)
  else if (m =? 4) || (m =? 6) || (m =? 9) || (m =? 11) then 30
  else 31.

(** The ranges the [datetime] constructor accepts. *)
Definition valid (d : datetime) : bool :=
  (1 <=? year d) && (year d <=? 9999)
  && (1 <=? month d) && (month d <=? 12)
  && (1 <=? day d) && (day d <=? days_in_month (year d) (month d))
  && (0 <=? hour d) && (hour d <=? 23)
  && (0 <=? minute d) && (minute d <=? 59)
  && (0 <=? second d) && (second d <=? 59)
  && (0 <=? microsecond d) && (microsecond d <=? 999999).

Definition date_part (sep : string) (d : datetime) : string :=
  pad0 4 (year d) ++ sep ++ pad0 2 (month d) ++ sep ++ pad0 2 (day d).

(** ISO 8601, as [model_dump(mode="json")] writes a naive [datetime]:
    the microseconds appear only when they are not zero. *)
Definition isoformat (d : datetime) : string :=
  date_part "-" d ++ "T"
  ++ pad0 2 (hour d) ++ ":" ++ pad0 2 (minute d) ++ ":" ++ pad0 2 (second d)
  ++ (if microsecond d =? 0 then "" else "." ++ pad0 6 (microsecond d)).

(** [strftime("%Y-%m-%d %H:%M:%S")] *)
Definition strftime_posted (d : datetime) : string :=
  date_part "-" d ++ " "
  ++ pad0 2 (hour d) ++ ":" ++ pad0 2 (minute d) ++ ":" ++ pad0 2 (second d).

(** [strftime("%Y-%m-%d-%H%M%S")] *)
Definition strftime_archive (d : datetime) : string :=
  date_part "-" d ++ "-"
  ++ pad0 2 (hour d) ++ pad0 2 (minute d) ++ pad0 2 (second d).

(** Reading back the form [isoformat] writes.  Other spellings that the
    validator of the library would also take (a space for [T], a time zone,
    a numeric time stamp) are outside the model. *)
Definition fromisoformat (s : string) : option datetime :=
  match take_digits 4 0 s with
  | None => None
  | Some (y, s) =>
  match expect "-" s with None => None | Some s =>
  match take_digits 2 0 s with None => None | Some (mo, s) =>
  match expect "-" s with None => None | Some s =>
  match take_digits 2 0 s with None => None | Some (dd, s) =>
  match expect "T" s with None => None | Some s =>
  match take_digits 2 0 s with None => None | Some (h, s) =>
  match expect ":" s with None => None | Some s =>
  match take_digits 2 0 s with None => None | Some (mi, s) =>
  match expect ":" s with None => None | Some s =>
  match take_digits 2 0 s with None => None | Some (se, s) =>
  let finish (us : Z) (rest : string) :=
    let d := mk_datetime y mo dd h mi se us in
    match rest with
    | EmptyString => if valid d then Some d else None
    | _ => None
    end in
  match s with
  | EmptyString => finish 0 s
  | String "." s' =>
      match take_digits 6 0 s' with
      | Some (us, rest) => finish us rest
      | None => None
      end
  | _ => None
  end end end end end end end end end end end end.

End Datetime.

(** ** [state.py]: the state snapshot *)

Module State.
Import Text Json Datetime.

Inductive RunStatus : Type := WAITING | RUNNING | STOPPED | ERROR.

Inductive TaskStatus : Type :=
| PENDING | IN_PROGRESS | COMPLETED | TASK_ERROR.

Definition RunStatus_value (s : RunStatus) : string :=
  match s with
  | WAITING => "waiting" | RUNNING => "running"
  | STOPPED => "stopped" | ERROR => "error"
  end.

Definition TaskStatus_value (s : TaskStatus) : string :=
  match s with
  | PENDING => "pending" | IN_PROGRESS => "in_progress"
  | COMPLETED => "completed" | TASK_ERROR => "error"
  end.

Record IterationState : Type := mk_IterationState {
  current : Z;
  specified : Z
}.

Record CodeMetrics : Type := mk_CodeMetrics {
  total_lines : Z;
  file_count : Z
}.

Record TaskInfo : Type := mk_TaskInfo {
  description : string;
  task_status : TaskStatus
}.

Record State : Type := mk_State {
  status : RunStatus;
  iteration : IterationState;
  code_metrics : CodeMetrics;
  current_task : TaskInfo;
  last_output : string;
  timestamp : datetime
}.

(** [self.model_dump(mode="json")]: the fields in declaration order, enums
    by value, the time stamp in ISO 8601. *)
Definition model_dump (s : State) : json :=
  JObject
    [ ("status", JString (RunStatus_value (status s)));
      ("iteration",
        JObject [ ("current", JInt (current (iteration s)));
                  ("specified", JInt (specified (iteration s))) ]);
      ("code_metrics",
        JObject [ ("total_lines", JInt (total_lines (code_metrics s)));
                  ("file_count", JInt (file_count (code_metrics s))) ]);
      ("current_task",
        JObject [ ("description", JString (description (current_task s)));
                  ("status", JString (TaskStatus_value (task_status (current_task s)))) ]);
      ("last_output", JString (last_output s));
      ("timestamp", JString (isoformat (timestamp s))) ].

(** *** Validation of a decoded document, the constructor call on the decoded members

    Fields are read by name, unknown members are ignored, a missing member
    takes the declared default or fails when there is none.  [None] is the
    library's validation error.  The coercions of its lax mode (a numeric
    string or a boolean for an [int], a number for a time stamp) are outside
    the model. *)

Definition validate_RunStatus (j : json) : option RunStatus :=
  match j with
  | JString s =>
      if String.eqb s "waiting" then Some WAITING
      else if String.eqb s "running" then Some RUNNING
      else if String.eqb s "stopped" then Some STOPPED
      else if String.eqb s "error" then Some ERROR
      else None
  | _ => None
  end.

Definition validate_TaskStatus (j : json) : option TaskStatus :=
  match j with
  | JString s =>
      if String.eqb s "pending" then Some PENDING
      else if String.eqb s "in_progress" then Some IN_PROGRESS
      else if String.eqb s "completed" then Some COMPLETED
      else if String.eqb s "error" then Some TASK_ERROR
      else None
  | _ => None
  end.

Definition validate_int (j : json) : option Z :=
  match j with JInt z => Some z | _ => None end.

Definition validate_str (j : json) : option string :=
  match j with JString s => Some s | _ => None end.

Definition validate_datetime (j : json) : option datetime :=
  match j with JString s => fromisoformat s | _ => None end.

(** A required field. *)
Definition required {A : Type} (v : json -> option A) (k : string)
  (d : list (string * json)) : option A :=
  match dict_get k d with
  | Some j => v j
  | None => None
  end.

(** A field with a default. *)
Definition defaulted {A : Type} (v : json -> option A) (k : string) (dflt : A)
  (d : list (string * json)) : option A :=
  match dict_get k d with
  | Some j => v j
  | None => Some dflt
  end.

Definition validate_IterationState (j : json) : option IterationState :=
  match j with
  | JObject d =>
      match required validate_int "current" d,
            required validate_int "specified" d with
      | Some c, Some sp => Some (mk_IterationState c sp)
      | _, _ => None
      end
  | _ => None
  end.

Definition validate_CodeMetrics (j : json) : option CodeMetrics :=
  match j with
  | JObject d =>
      match defaulted validate_int "total_lines" 0 d,
            defaulted validate_int "file_count" 0 d with
      | Some t, Some f => Some (mk_CodeMetrics t f)
      | _, _ => None
      end
  | _ => None
  end.

Definition validate_TaskInfo (j : json) : option TaskInfo :=
  match j with
  | JObject d =>
      match required validate_str "description" d,
            required validate_TaskStatus "status" d with
      | Some ds, Some st => Some (mk_TaskInfo ds st)
      | _, _ => None
      end
  | _ => None
  end.

(** The constructor call on the decoded members; [now] is what [datetime.now] gives the default factory
    of [timestamp]. *)
Definition validate_State (now : datetime) (d : list (string * json))
  : option State :=
  match required validate_RunStatus "status" d,
        required validate_IterationState "iteration" d,
        defaulted validate_CodeMetrics "code_metrics" (mk_CodeMetrics 0 0) d,
        required validate_TaskInfo "current_task" d,
        defaulted validate_str "last_output" "" d,
        defaulted validate_datetime "timestamp" now d with
  | Some st, Some it, Some cm, Some ct, Some lo, Some ts =>
      Some (mk_State st it cm ct lo ts)
  | _, _, _, _, _, _ => None
  end.

(** *** The snapshot file

    A file is its content, [None] when it does not exist. *)
Definition file : Type := option string.

(** [open(path, "w")]: the file exists and is empty from here on. *)
Definition open_w (f : file) : file := Some "".

(** [f.write(chunk)] reaching the file. *)
Definition write (chunk : string) (f : file) : file :=
  match f with
  | Some c => Some (c ++ chunk)
  | None => Some chunk
  end.

(** The text [json.dump(self.model_dump(mode="json"), f, indent=2, default=str)]
    writes. *)
Definition document (s : State) : string := dumps (model_dump s).

(** The contents of the snapshot file that exist, one after the other, while
    [save] runs: the old one, the empty file left by [open(path, "w")], and
    the file after each flush of the buffered writer, [chunks] being the
    pieces the text reaches the file in. *)
Fixpoint flushes (chunks : list string) (f : file) : list file :=
  match chunks with
  | [] => []
  | c :: r => write c f :: flushes r (write c f)
  end.

Definition save_observations (chunks : list string) (old : file) : list file :=
  old :: open_w old :: flushes chunks (open_w old).

(** [State.save]: the file once the [with] block is left. *)
Definition save (s : State) (old : file) : file :=
  write (document s) (open_w old).

Inductive load_result : Type :=
| Loaded (s : option State)
| RaisedTypeError.

(** [State.load]: [None] for a missing file, for text [json.load] rejects and
    for a document that fails validation; a document that is not an object
    makes the constructor call on the decoded members raise [TypeError], which is not caught. *)
Definition load (now : datetime) (f : file) : load_result :=
  match f with
  | None => Loaded None
  | Some text =>
      match loads text with
      | None => Loaded None
      | Some (JObject d) => Loaded (validate_State now d)
      | Some _ => RaisedTypeError
      end
  end.

(** [State.create_waiting] *)
Definition create_waiting (now : datetime) (max_iterations : Z) : State :=
  mk_State WAITING (mk_IterationState 0 max_iterations) (mk_CodeMetrics 0 0)
    (mk_TaskInfo "Waiting for autonomous runner to start..." PENDING) "" now.

(** A file of the source tree: its name and its number of lines, [None]
    when it cannot be read as text. *)
Record SrcFile : Type := mk_SrcFile {
  src_name : string;
  src_lines : option Z
}.

Definition count_ext (ext : string) (files : list SrcFile) : Z * Z :=
  fold_left
    (fun acc f =>
       if endswith ext (src_name f) then
         (fst acc + match src_lines f with Some n => n | None => 0 end,
          snd acc + 1)
       else acc)
    files (0, 0).

(** [collect_code_metrics]: [src] is the tree under [project_root/src],
    [None] when the directory is missing. *)
Definition collect_code_metrics (src : option (list SrcFile)) : CodeMetrics :=
  match src with
  | None => mk_CodeMetrics 0 0
  | Some files =>
      let '(l, c) :=
        fold_left
          (fun acc ext =>
             let '(dl, dc) := count_ext ext files in
             (fst acc + dl, snd acc + dc))
          [".ts"; ".tsx"; ".js"; ".py"] (0, 0) in
      mk_CodeMetrics l c
  end.

(** The name has one of the four extensions [collect_code_metrics] looks
    for. *)
Definition is_source (f : SrcFile) : bool :=
  endswith ".ts" (src_name f) || endswith ".tsx" (src_name f)
  || endswith ".js" (src_name f) || endswith ".py" (src_name f).

(** The lines of a file that can be read, none of one that cannot. *)
Definition readable_lines (f : SrcFile) : Z :=
  match src_lines f with Some n => n | None => 0 end.

(** The four integers of a state are within the limit of [json.dump]. *)
Definition ints_within_limit (s : State) : bool :=
  within_int_limit (current (iteration s))
  && within_int_limit (specified (iteration s))
  && within_int_limit (total_lines (code_metrics s))
  && within_int_limit (file_count (code_metrics s)).

(** A JSON value that is an integer within the limit or a string. *)
Definition integer_or_string (j : json) : bool :=
  match j with
  | JInt z => within_int_limit z
  | JString _ => true
  | _ => false
  end.

Definition sum_lines (files : list SrcFile) : Z :=
  fold_right (fun f acc => readable_lines f + acc) 0 files.

End State.

(** ** [feedback.py]: the feedback store *)

Module Feedback.
Import Text Datetime.

Inductive FeedbackPriority : Type := LOW | MEDIUM | HIGH | CRITICAL.

Inductive FeedbackType : Type :=
| FEEDBACK | BUG | FEATURE | IMPROVEMENT | VISUAL.

Definition FeedbackPriority_value (p : FeedbackPriority) : string :=
  match p with
  | LOW => "LOW" | MEDIUM => "MEDIUM" | HIGH => "HIGH" | CRITICAL => "CRITICAL"
  end.

Definition FeedbackType_value (t : FeedbackType) : string :=
  match t with
  | FEEDBACK => "FEEDBACK" | BUG => "BUG" | FEATURE => "FEATURE"
  | IMPROVEMENT => "IMPROVEMENT" | VISUAL => "VISUAL"
  end.

(** The directory [.spec-workflow/feedback]: the content of [pending.md],
    and the files of [archive/] by name ([None] while the directory does
    not exist). *)
Record Store : Type := mk_Store {
  pending_file : option string;
  archive_dir : option (list (string * string))
}.

Definition empty_store : Store := mk_Store None None.

(** One formatted entry of [pending.md]. *)
Definition entry (message : string) (priority : FeedbackPriority)
  (feedback_type : FeedbackType) (now : datetime) : string :=
  "## " ++ message ++ nl
  ++ "**Date:** " ++ strftime_posted now ++ nl
  ++ "**Priority:** " ++ FeedbackPriority_value priority ++ nl
  ++ "**Type:** " ++ FeedbackType_value feedback_type ++ nl
  ++ nl
  ++ "**Description:**" ++ nl
  ++ message ++ nl
  ++ nl
  ++ "**Status:** PENDING (awaiting AI agent processing)" ++ nl
  ++ nl
  ++ "**Posted by:** Human (async feedback)" ++ nl.

(** [post_feedback]: the entry is appended, after a separator when the
    file is already there. *)
Definition post_feedback (message : string) (priority : FeedbackPriority)
  (feedback_type : FeedbackType) (now : datetime) (st : Store) : Store :=
  let e := entry message priority feedback_type now in
  match pending_file st with
  | Some c =>
      mk_Store (Some (c ++ (nl ++ nl ++ "---" ++ nl ++ nl) ++ e)) (archive_dir st)
  | None => mk_Store (Some e) (archive_dir st)
  end.

Definition has_pending_feedback (st : Store) : bool :=
  match pending_file st with Some _ => true | None => false end.

Definition read_pending_feedback (st : Store) : option string :=
  if negb (has_pending_feedback st) then None else pending_file st.

(** Moving a file onto a name of the directory replaces a file of that name. *)
Fixpoint put_file (name content : string) (dir : list (string * string))
  : list (string * string) :=
  match dir with
  | [] => [(name, content)]
  | (n, c) :: r =>
      if String.eqb n name then (name, content) :: r
      else (n, c) :: put_file name content r
  end.

(** The content of the file of that name in a directory. *)
Fixpoint get_file (name : string) (dir : list (string * string))
  : option string :=
  match dir with
  | [] => None
  | (n, c) :: r => if String.eqb n name then Some c else get_file name r
  end.

(** [archive_feedback]: the name of the archive file, or [None] when nothing
    is pending. *)
Definition archive_feedback (now : datetime) (st : Store)
  : option string * Store :=
  if negb (has_pending_feedback st) then (None, st)
  else
    match pending_file st with
    | None => (None, st)
    | Some content =>
        let dir := match archive_dir st with Some d => d | None => [] end in
        let archive_file := strftime_archive now ++ ".md" in
        (Some archive_file,
         mk_Store None (Some (put_file archive_file content dir)))
    end.

(** [clear_feedback] *)
Definition clear_feedback (st : Store) : bool * Store :=
  if has_pending_feedback st then (true, mk_Store None (archive_dir st))
  else (false, st).

(** One call of [post_feedback] as the [feedback] command makes it. *)
Record Post : Type := mk_Post {
  post_message : string;
  post_priority : FeedbackPriority;
  post_type : FeedbackType;
  post_time : datetime
}.

Definition post (p : Post) (st : Store) : Store :=
  post_feedback (post_message p) (post_priority p) (post_type p) (post_time p) st.

Definition post_entry (p : Post) : string :=
  entry (post_message p) (post_priority p) (post_type p) (post_time p).

(** The separator between two entries of [pending.md]. *)
Definition separator : string := nl ++ nl ++ "---" ++ nl ++ nl.

(** The [feedback] command run once for each post, in order. *)
Definition post_all (ps : list Post) (st : Store) : Store :=
  fold_left (fun st p => post p st) ps st.

(** [n] calls of [archive_feedback] in a row, at the times [times] gives. *)
Fixpoint archive_times (times : list datetime) (st : Store)
  : list (option string) * Store :=
  match times with
  | [] => ([], st)
  | t :: r =>
      let '(res, st1) := archive_feedback t st in
      let '(rs, st2) := archive_times r st1 in
      (res :: rs, st2)
  end.

End Feedback.

(** ** [config.py] and [runner.py]: the iteration loop *)

Module Runner.
Import Text Datetime State Feedback.

(** The fields of [Config] the loop reads. *)
Record Config : Type := mk_Config {
  max_iterations : Z;
  checkpoint_interval : Z;
  spec_name : option string;
  max_no_progress : Z;
  max_consecutive_failures : Z
}.

(** The declared defaults. *)
Definition default_config : Config := mk_Config 50 10 None 3 3.

(** The values the prompt template is filled with. *)
Record Prompt : Type := mk_Prompt {
  prompt_iteration : Z;
  prompt_of : Z;
  prompt_mode_status : string;
  prompt_feedback : option string
}.

(** What the loop prints or logs at its decision points, and the calls of
    the agent. *)
Inductive Event : Type :=
| StopFileDetected
| CodexInvoked (p : Prompt)
| CodexNotFound
| CircuitBreakerTriggered
| FeedbackArchived (name : string)
| ProjectComplete
| EscalationRequired
| UnknownExitCode (code : Z)
| CheckpointReached (n : Z)
| MaxIterationsReached.

(** The part of the machine the loop reads and writes. *)
Record World : Type := mk_World {
  product_md : bool;                  (* steering/product.md exists *)
  tasks_md : option string;           (* tasks.md of the configured spec *)
  stop_txt : bool;                    (* stop.txt exists *)
  state_json : State.file;            (* monitor/state.json *)
  feedback : Store;                   (* .spec-workflow/feedback *)
  src_tree : option (list SrcFile);   (* project_root/src *)
  ticks : nat;                        (* readings of the clock so far *)
  console : list Event
}.

Definition set_stop (b : bool) (w : World) : World :=
  mk_World (product_md w) (tasks_md w) b (state_json w) (feedback w)
    (src_tree w) (ticks w) (console w).

Definition set_state (f : State.file) (w : World) : World :=
  mk_World (product_md w) (tasks_md w) (stop_txt w) f (feedback w)
    (src_tree w) (ticks w) (console w).

Definition set_feedback (s : Store) (w : World) : World :=
  mk_World (product_md w) (tasks_md w) (stop_txt w) (state_json w) s
    (src_tree w) (ticks w) (console w).

Definition set_tasks (t : option string) (w : World) : World :=
  mk_World (product_md w) t (stop_txt w) (state_json w) (feedback w)
    (src_tree w) (ticks w) (console w).

Definition set_src (t : option (list SrcFile)) (w : World) : World :=
  mk_World (product_md w) (tasks_md w) (stop_txt w) (state_json w) (feedback w)
    t (ticks w) (console w).

Definition tick (w : World) : World :=
  mk_World (product_md w) (tasks_md w) (stop_txt w) (state_json w) (feedback w)
    (src_tree w) (S (ticks w)) (console w).

Definition emit (e : Event) (w : World) : World :=
  mk_World (product_md w) (tasks_md w) (stop_txt w) (state_json w) (feedback w)
    (src_tree w) (ticks w) (console w ++ [e]).

(** What other processes do to the files the loop works on: the agent (its
    edits) and the person steering it (the [feedback] command, a stop
    file). *)
Inductive Action : Type :=
| PostFeedback (message : string) (priority : FeedbackPriority)
    (feedback_type : FeedbackType) (at_time : datetime)
| ClearFeedback
| CreateStopFile
| WriteTasks (content : option string)
| WriteSrc (tree : option (list SrcFile)).

Definition apply_action (a : Action) (w : World) : World :=
  match a with
  | PostFeedback m p t now => set_feedback (post_feedback m p t now (feedback w)) w
  | ClearFeedback => set_feedback (snd (clear_feedback (feedback w))) w
  | CreateStopFile => set_stop true w
  | WriteTasks c => set_tasks c w
  | WriteSrc t => set_src t w
  end.

Definition apply_actions (l : list Action) (w : World) : World :=
  fold_left (fun w a => apply_action a w) l w.

(** How a [git] subprocess ends. *)
Inductive GitResult : Type :=
| GitNotFound
| GitExited (returncode : Z) (stdout : string).

(** The surroundings of one run, by iteration number: the clock, what
    happens to the files before the iteration starts and while the agent
    runs, how the agent process ends ([None]: the command is not found,
    [Some c]: it exits with code [c]), and what [git rev-parse HEAD] answers
    before and after the agent ran. *)
Record Env : Type := mk_Env {
  clock : nat -> datetime;
  before : Z -> list Action;
  during : Z -> list Action;
  launch : Z -> option Z;
  rev_parse_before : Z -> GitResult;
  rev_parse_after : Z -> GitResult
}.

(** [datetime.now()] *)
Definition now (env : Env) (w : World) : datetime * World :=
  (clock env (ticks w), tick w).

(** [self]: the circuit-breaker counters. *)
Record Self : Type := mk_Self {
  consecutive_failures : Z;
  no_progress_count : Z
}.

Definition init_self : Self := mk_Self 0 0.

(** [Config.is_steering_driven] *)
Definition is_steering_driven (cfg : Config) (w : World) : bool :=
  match spec_name cfg with
  | None => true
  | Some n =>
      if negb (nonempty n) then true
      else match tasks_md w with Some _ => false | None => true end
  end.

(** [_validate_environment]: [false] is the [RuntimeError]. *)
Definition _validate_environment (w : World) : bool := product_md w.

(** [_check_stop_file] *)
Definition _check_stop_file (w : World) : bool * World :=
  if stop_txt w then (true, set_stop false (emit StopFileDetected w))
  else (false, w).

Fixpoint first_in_progress (lines : list string) : option string :=
  match lines with
  | [] => None
  | line :: r =>
      if startswith "- [-]" (strip line) then
        let desc := strip (replace_empty "- [-]" line) in
        Some (if nonempty desc then desc else "In progress task (no description)")
      else first_in_progress r
  end.

(** [_get_current_task_description] *)
Definition _get_current_task_description (cfg : Config) (w : World) : string :=
  if is_steering_driven cfg w then "Working from steering documents"
  else
    match tasks_md w with
    | None => "No tasks.md found"
    | Some content =>
        match first_in_progress (split_lines "" content) with
        | Some d => d
        | None => "Waiting for next task"
        end
    end.

(** [_get_task_counts]: pending, in progress, completed. *)
Definition _get_task_counts (cfg : Config) (w : World) : Z * Z * Z :=
  if is_steering_driven cfg w then (0, 0, 0)
  else
    match tasks_md w with
    | None => (0, 0, 0)
    | Some content =>
        (Z.of_nat (count (nl ++ "- [ ]") content),
         Z.of_nat (count (nl ++ "- [-]") content),
         Z.of_nat (count (nl ++ "- [x]") content))
    end.

(** [_write_state] *)
Definition _write_state (cfg : Config) (env : Env) (status : RunStatus)
  (iteration : Z) (current_task_desc : string) (task_status : TaskStatus)
  (last_output : string) (w : World) : World :=
  let metrics := collect_code_metrics (src_tree w) in
  let '(t, w) := now env w in
  let state :=
    mk_State status (mk_IterationState iteration (max_iterations cfg)) metrics
      (mk_TaskInfo current_task_desc task_status) last_output t in
  set_state (State.save state (state_json w)) w.

(** [_get_current_commit], on the outcome of [git rev-parse HEAD]. *)
Definition _get_current_commit (r : GitResult) : option string :=
  match r with
  | GitExited returncode stdout =>
      if returncode =? 0 then Some (strip stdout) else None
  | GitNotFound => None
  end.

Definition commit_eqb (a b : option string) : bool :=
  match a, b with
  | None, None => true
  | Some x, Some y => String.eqb x y
  | _, _ => false
  end.

(** [_build_prompt]: the values the template is filled with; the feedback
    section is there when the feedback text is not empty. *)
Definition _build_prompt (cfg : Config) (w : World) (iteration : Z)
  (feedback_content : option string) : Prompt :=
  let mode_status :=
    if is_steering_driven cfg w
    then "Steering-driven (working from product.md directly)"
    else "Task-driven (spec: "
         ++ match spec_name cfg with Some n => n | None => "None" end ++ ")" in
  let feedback_section :=
    match feedback_content with
    | Some c => if nonempty c then Some c else None
    | None => None
    end in
  mk_Prompt iteration (max_iterations cfg) mode_status feedback_section.

(** [_run_codex]: the agent is started on the prompt; a command that is not
    found counts as exit code 1. *)
Definition _run_codex (env : Env) (iteration : Z) (prompt : Prompt) (w : World)
  : Z * World :=
  let w := apply_actions (during env iteration) (emit (CodexInvoked prompt) w) in
  match launch env iteration with
  | Some returncode => (returncode, w)
  | None => (1, emit CodexNotFound w)
  end.

(** [_handle_exit_code]: [true] to continue, [false] to stop. *)
Definition _handle_exit_code (cfg : Config) (env : Env) (exit_code : Z)
  (iteration : Z) (commit_before commit_after : option string)
  (self : Self) (w : World) : bool * Self * World :=
  if exit_code =? 0 then
    let self := mk_Self 0 (no_progress_count self) in
    if negb (commit_eqb commit_before commit_after)
       && has_pending_feedback (feedback w)
    then
      let '(t, w) := now env w in
      let '(archived, st) := archive_feedback t (feedback w) in
      let w := set_feedback st w in
      match archived with
      | Some name => (true, self, emit (FeedbackArchived name) w)
      | None => (true, self, w)
      end
    else (true, self, w)
  else if exit_code =? 99 then
    (false, self, emit ProjectComplete w)
  else if exit_code =? 1 then
    let self := mk_Self (consecutive_failures self + 1) (no_progress_count self) in
    if consecutive_failures self >=? max_consecutive_failures cfg then
      (false, self, emit EscalationRequired w)
    else (true, self, w)
  else
    (false, self, emit (UnknownExitCode exit_code) w).

(** The exception the arithmetic of the loop raises.  A launch of the agent
    that fails other than by a missing command, and a [tasks.md] that cannot
    be decoded, end [run] with exceptions that are outside the model. *)
Inductive Exn : Type := ZeroDivisionError.

(** How the call of [run] ends. *)
Inductive Outcome : Type :=
| Returned (code : Z)
| Raised (e : Exn).

(** One pass through the body of the [while] loop. *)
Inductive Step : Type :=
| Continue (self : Self) (w : World)
| Stop (o : Outcome) (self : Self) (w : World).

(** The body of the loop, [iteration] being the counter after its
    increment. *)
Definition iteration_body (cfg : Config) (env : Env) (iteration : Z)
  (self : Self) (w : World) : Step :=
  (* next_checkpoint = ((iteration // interval) + 1) * interval *)
  if checkpoint_interval cfg =? 0 then Stop (Raised ZeroDivisionError) self w
  else
  let current_task_desc := _get_current_task_description cfg w in
  let w := _write_state cfg env RUNNING iteration current_task_desc IN_PROGRESS
             ("Iteration " ++ str_of_Z iteration ++ " starting...") w in
  let '(stop, w) := _check_stop_file w in
  if stop then Stop (Returned 0) self w
  else
  let feedback_content := read_pending_feedback (feedback w) in
  let commit_before := _get_current_commit (rev_parse_before env iteration) in
  let prompt := _build_prompt cfg w iteration feedback_content in
  let '(exit_code, w) := _run_codex env iteration prompt w in
  let commit_after := _get_current_commit (rev_parse_after env iteration) in
  let self1 :=
    if commit_eqb commit_before commit_after
    then mk_Self (consecutive_failures self) (no_progress_count self + 1)
    else mk_Self (consecutive_failures self) 0 in
  if commit_eqb commit_before commit_after
     && (no_progress_count self1 >=? max_no_progress cfg)
  then Stop (Returned 1) self1 (emit CircuitBreakerTriggered w)
  else
  let '(continue, self2, w) :=
    _handle_exit_code cfg env exit_code iteration commit_before commit_after
      self1 w in
  if negb continue then
    let w := _write_state cfg env STOPPED iteration current_task_desc COMPLETED
               "Run completed" w in
    Stop (Returned (if (exit_code =? 0) || (exit_code =? 99) then 0 else exit_code))
      self2 w
  else
  if iteration mod checkpoint_interval cfg =? 0 then
    let n := iteration / checkpoint_interval cfg in
    let w := emit (CheckpointReached n) w in
    let w := _write_state cfg env STOPPED iteration current_task_desc PENDING
               ("Checkpoint " ++ str_of_Z n ++ " - paused for review") w in
    Stop (Returned 2) self2 w
  else Continue self2 w.

(** After the loop: the limit of iterations is reached. *)
Definition max_iterations_reached (cfg : Config) (env : Env) (self : Self)
  (w : World) : Outcome * Self * World :=
  let w := emit MaxIterationsReached w in
  let w := _write_state cfg env STOPPED (max_iterations cfg)
             "Max iterations reached" PENDING
             "Maximum iterations reached - human review required" w in
  (Returned 2, self, w).

(** [while iteration < max_iterations: iteration += 1; ...].  [fuel] bounds
    the number of passes; [None] means it ran out. *)
Fixpoint loop (fuel : nat) (cfg : Config) (env : Env) (iteration : Z)
  (self : Self) (w : World) : option (Outcome * Self * World) :=
  if iteration <? max_iterations cfg then
    match fuel with
    | O => None
    | S f =>
        let iteration := iteration + 1 in
        let w := apply_actions (before env iteration) w in
        match iteration_body cfg env iteration self w with
        | Continue self' w' => loop f cfg env iteration self' w'
        | Stop o self' w' => Some (o, self', w')
        end
    end
  else Some (max_iterations_reached cfg env self w).

(** [AutonomousRunner.run], on a fresh runner. *)
Definition run (cfg : Config) (env : Env) (w : World)
  : option (Outcome * Self * World) :=
  if negb (_validate_environment w) then Some (Returned 1, init_self, w)
  else loop (Z.to_nat (max_iterations cfg)) cfg env 0 init_self w.

(** *** Vocabulary for the statements about a run *)

(** The exit code the loop sees in an iteration. *)
Definition exit_code_of (env : Env) (iteration : Z) : Z :=
  match launch env iteration with
  | Some returncode => returncode
  | None => 1
  end.

(** The progress marker did not move in an iteration. *)
Definition marker_unchanged (env : Env) (iteration : Z) : bool :=
  commit_eqb (_get_current_commit (rev_parse_before env iteration))
             (_get_current_commit (rev_parse_after env iteration)).

(** The iterations in which the agent was started, in order. *)
Definition invocations (l : list Event) : list Z :=
  flat_map (fun e => match e with
                     | CodexInvoked p => [prompt_iteration p]
                     | _ => []
                     end) l.

(** The checkpoint pauses, in order. *)
Definition checkpoints (l : list Event) : list Z :=
  flat_map (fun e => match e with
                     | CheckpointReached n => [n]
                     | _ => []
                     end) l.

Definition creates_stop_file (a : Action) : bool :=
  match a with CreateStopFile => true | _ => false end.

(** Nobody asks for a stop around an iteration. *)
Definition no_stop_request (env : Env) (iteration : Z) : bool :=
  negb (existsb creates_stop_file (before env iteration))
  && negb (existsb creates_stop_file (during env iteration)).

(** The world after the first write of an iteration: the RUNNING snapshot. *)
Definition started (cfg : Config) (env : Env) (iteration : Z) (w : World)
  : World :=
  _write_state cfg env RUNNING iteration (_get_current_task_description cfg w)
    IN_PROGRESS ("Iteration " ++ str_of_Z iteration ++ " starting...") w.

(** The world once the agent has come back. *)
Definition agent_done (cfg : Config) (env : Env) (iteration : Z) (w : World)
  : World :=
  let w1 := started cfg env iteration w in
  snd (_run_codex env iteration
         (_build_prompt cfg w1 iteration (read_pending_feedback (feedback w1)))
         w1).

(** The counters after the progress check of an iteration. *)
Definition progress_checked (env : Env) (iteration : Z) (self : Self) : Self :=
  if marker_unchanged env iteration
  then mk_Self (consecutive_failures self) (no_progress_count self + 1)
  else mk_Self (consecutive_failures self) 0.

(** The circuit breaker opens in an iteration. *)
Definition breaker_opens (cfg : Config) (env : Env) (iteration : Z)
  (self : Self) : bool :=
  marker_unchanged env iteration
  && (no_progress_count (progress_checked env iteration self)
      >=? max_no_progress cfg).

(** The snapshot file holds the document of a state with these values. *)
Definition snapshot_is (f : State.file) (st : RunStatus) (iteration : Z)
  (ts : TaskStatus) : Prop :=
  exists s : State,
    f = Some (document s) /\ status s = st /\
    current (State.iteration s) = iteration /\
    task_status (current_task s) = ts.

(** The counters a pass leaves behind. *)
Definition step_self (s : Step) : Self :=
  match s with
  | Continue self _ => self
  | Stop _ self _ => self
  end.

(** The world a pass leaves behind. *)
Definition step_world (s : Step) : World :=
  match s with
  | Continue _ w => w
  | Stop _ _ w => w
  end.

(** A pass gets as far as starting the agent. *)
Definition agent_reached (cfg : Config) (w : World) : bool :=
  negb (checkpoint_interval cfg =? 0) && negb (stop_txt w).

(** A pass gets as far as the exit-code policy: the interval is not zero,
    no stop file is found and the circuit breaker stays closed. *)
Definition policy_reached (cfg : Config) (env : Env) (iteration : Z)
  (self : Self) (w : World) : bool :=
  negb (checkpoint_interval cfg =? 0) && negb (stop_txt w)
  && negb (breaker_opens cfg env iteration self).

(** The iteration numbers 1..n. *)
Definition iterations (n : nat) : list Z := map Z.of_nat (seq 1 n).

(** The states in which [run], started on [w0], stands at the head of its
    loop: the counter, the circuit-breaker counters and the world. *)
Inductive at_loop_head (cfg : Config) (env : Env) (w0 : World)
  : Z -> Self -> World -> Prop :=
| head_first : at_loop_head cfg env w0 0 init_self w0
| head_next (i : Z) (self : Self) (w : World) (self' : Self) (w' : World) :
    at_loop_head cfg env w0 i self w ->
    i < max_iterations cfg ->
    iteration_body cfg env (i + 1) self (apply_actions (before env (i + 1)) w)
      = Continue self' w' ->
    at_loop_head cfg env w0 (i + 1) self' w'.

End Runner.

(** ** [monitor.py]: what the dashboard reads and shows *)

Module Monitor.
Import Text Datetime State.

Inductive read_result : Type :=
| Shown (s : State)
| ReadRaisedTypeError.

(** [DevelopmentMonitor.read_state]: the loaded state, or the waiting state
    when [load] gives [None]; an exception of [load] is not caught. *)
Definition read_state (max_iterations : Z) (now : datetime) (f : State.file)
  : read_result :=
  match load now f with
  | Loaded (Some s) => Shown s
  | Loaded None => Shown (create_waiting now max_iterations)
  | RaisedTypeError => ReadRaisedTypeError
  end.

(** The text of the panel [create_output_panel] builds: a placeholder for
    no output, and of a longer output the last ten lines. *)
Definition create_output_panel (s : State) : string :=
  let output :=
    if nonempty (last_output s) then last_output s
    else "[dim]No output yet...[/dim]" in
  let lines := split_lines "" output in
  if (10 <? List.length lines)%nat then join nl (lastn 10 lines) else output.

End Monitor.

(** ** Concrete projects and agents, for the examples *)

Module Scenarios.
Import Text Datetime State Feedback Runner.

Definition noon : datetime := mk_datetime 2025 1 15 12 0 0 0.

(** A project with its steering documents, no spec, no feedback, no
    snapshot yet, and a console nothing was printed on. *)
Definition fresh_project : World :=
  mk_World true None false None empty_store None 0 [].

(** The answer of [git rev-parse HEAD] at revision [n]. *)
Definition head (n : Z) : GitResult :=
  GitExited 0 ("c0ffee" ++ str_of_Z n ++ nl).

(** An agent that exits with [code i] in iteration [i] and never commits. *)
Definition stalled (code : Z -> Z) : Env :=
  mk_Env (fun _ => noon) (fun _ => []) (fun _ => [])
    (fun i => Some (code i)) (fun _ => head 0) (fun _ => head 0).

(** An agent that exits with [code i] in iteration [i] and commits once in
    every iteration. *)
Definition progressing (code : Z -> Z) : Env :=
  mk_Env (fun _ => noon) (fun _ => []) (fun _ => [])
    (fun i => Some (code i)) (fun i => head (i - 1)) (fun i => head i).

(** An agent that always exits with 0, in a directory that is not a git
    repository: the marker is absent before and after every iteration. *)
Definition outside_git : Env :=
  mk_Env (fun _ => noon) (fun _ => []) (fun _ => [])
    (fun _ => Some 0) (fun _ => GitExited 128 "") (fun _ => GitNotFound).

(** The agent command is not installed. *)
Definition not_installed : Env :=
  mk_Env (fun _ => noon) (fun _ => []) (fun _ => [])
    (fun _ => None) (fun _ => head 0) (fun _ => head 0).

(** The defaults, with escalation at the threshold [n]. *)
Definition escalating_at (n : Z) : Config := mk_Config 50 10 None 3 n.

(** Exit code 0 in every iteration but the [n]-th, where the agent reports
    the project complete. *)
Definition completes_at (n : Z) (i : Z) : Z := if i =? n then 99 else 0.

(** The snapshot of a run at work on its fifth iteration of fifty. *)
Definition at_work (last_output : string) (t : datetime) : State :=
  mk_State RUNNING (mk_IterationState 5 50) (mk_CodeMetrics 1200 10)
    (mk_TaskInfo "Implement auth" IN_PROGRESS) last_output t.

(** The snapshot the loop writes when it pauses after that iteration. *)
Definition paused (t : datetime) : State :=
  mk_State STOPPED (mk_IterationState 5 50) (mk_CodeMetrics 1200 10)
    (mk_TaskInfo "Implement auth" PENDING) "Run completed" t.

(** The defaults, limited to one iteration ([-i 1]). *)
Definition single_iteration : Config := mk_Config 1 10 None 3 3.

(** The agent succeeds and commits in every iteration; while it works on
    the first one, somebody posts feedback. *)
Definition late_feedback : Env :=
  mk_Env (fun _ => noon) (fun _ => [])
    (fun i => if i =? 1
              then [PostFeedback "Fix the login page" HIGH BUG noon]
              else [])
    (fun _ => Some 0) (fun i => head (i - 1)) (fun i => head i).

(** The defaults, with the circuit breaker at the limit [n]. *)
Definition breaking_at (n : Z) : Config := mk_Config 50 10 None n 3.

(** The fresh project with a [stop.txt] in it. *)
Definition stop_requested : World :=
  mk_World true None true None empty_store None 0 [].

(** The defaults with a checkpoint after every second iteration. *)
Definition every_second : Config := mk_Config 50 2 None 3 3.

(** The defaults for the spec [auth]. *)
Definition task_driven : Config := mk_Config 50 10 (Some "auth") 3 3.

(** The fresh project with a [tasks.md] of this content. *)
Definition with_tasks (content : string) : World :=
  mk_World true (Some content) false None empty_store None 0 [].

(** Half a second after [noon]. *)
Definition just_after_noon : datetime := mk_datetime 2025 1 15 12 0 0 500000.

Definition login_bug : Post := mk_Post "Fix the login page" HIGH BUG noon.

Definition dark_mode : Post :=
  mk_Post "Add a dark mode" LOW FEATURE just_after_noon.

(** A snapshot whose recent output has twelve lines. *)
Definition chatty : State :=
  mk_State RUNNING (mk_IterationState 5 50) (mk_CodeMetrics 1200 10)
    (mk_TaskInfo "Implement auth" IN_PROGRESS)
    ("l1" ++ nl ++ "l2" ++ nl ++ "l3" ++ nl ++ "l4" ++ nl ++ "l5" ++ nl
     ++ "l6" ++ nl ++ "l7" ++ nl ++ "l8" ++ nl ++ "l9" ++ nl ++ "l10" ++ nl
     ++ "l11" ++ nl ++ "l12")
    noon.

End Scenarios.

(** * Properties *)

(** ** The loop as a whole *)

Module RunnerFacts.
Import Text Datetime State Feedback Runner.
Local Open Scope list_scope.

Section Loop.
Variables (cfg : Config) (env : Env).

Lemma loop_returns (fuel : nat) :
  forall i self w,
    max_iterations cfg - i <= Z.of_nat fuel ->
    exists r, loop fuel cfg env i self w = Some r.
Proof.
  induction fuel as [|f IH]; intros i self w Hf; cbn [loop].
  - destruct (Z.ltb_spec i (max_iterations cfg)); [lia | eauto].
  - destruct (Z.ltb_spec i (max_iterations cfg)); [| eauto].
    destruct (iteration_body cfg env (i + 1) self _) as [s' w' | o s' w'];
      [apply IH; lia | eauto].
Qed.

(** [run] always comes back. *)
Lemma run_returns (w : World) : exists r, run cfg env w = Some r.
Proof.
  unfold run. destruct (negb (_validate_environment w)); [eauto |].
  apply loop_returns. lia.
Qed.

Lemma fuel_step (i : Z) :
  i < max_iterations cfg ->
  Z.to_nat (max_iterations cfg - i) = S (Z.to_nat (max_iterations cfg - (i + 1))).
Proof. intros H. lia. Qed.

Lemma head_nonneg (w0 : World) i self w :
  at_loop_head cfg env w0 i self w -> 0 <= i.
Proof. induction 1; lia. Qed.

(** From any head of the loop, the rest of the run is the run. *)
Lemma loop_from_head (w0 : World) i self w :
  at_loop_head cfg env w0 i self w ->
  loop (Z.to_nat (max_iterations cfg)) cfg env 0 init_self w0
  = loop (Z.to_nat (max_iterations cfg - i)) cfg env i self w.
Proof.
  induction 1 as [| i self w self' w' Hh IH Hlt Hb].
  - now rewrite Z.sub_0_r.
  - rewrite IH, (fuel_step i Hlt). cbn [loop].
    destruct (Z.ltb_spec i (max_iterations cfg)); [| lia].
    now rewrite Hb.
Qed.

(** A pass that stops ends the run there: nothing follows it. *)
Lemma run_stops (w0 : World) i self w o self' w' :
  product_md w0 = true ->
  at_loop_head cfg env w0 i self w ->
  i < max_iterations cfg ->
  iteration_body cfg env (i + 1) self (apply_actions (before env (i + 1)) w)
    = Stop o self' w' ->
  run cfg env w0 = Some (o, self', w').
Proof.
  intros Hp Hh Hlt Hb. unfold run, _validate_environment. rewrite Hp. cbn [negb].
  rewrite (loop_from_head _ _ _ _ Hh), (fuel_step i Hlt). cbn [loop].
  destruct (Z.ltb_spec i (max_iterations cfg)); [| lia].
  now rewrite Hb.
Qed.

Lemma run_exhausts (w0 : World) i self w :
  product_md w0 = true ->
  at_loop_head cfg env w0 i self w ->
  max_iterations cfg <= i ->
  run cfg env w0 = Some (max_iterations_reached cfg env self w).
Proof.
  intros Hp Hh Hge. unfold run, _validate_environment. rewrite Hp. cbn [negb].
  rewrite (loop_from_head _ _ _ _ Hh).
  destruct (Z.to_nat (max_iterations cfg - i)); cbn [loop];
    destruct (Z.ltb_spec i (max_iterations cfg)); (lia || reflexivity).
Qed.

(** Every run ends at a head of its loop, by the limit or by a pass that
    stops. *)
Lemma run_ends_at_head (w0 : World) r :
  product_md w0 = true ->
  run cfg env w0 = Some r ->
  exists i self w,
    at_loop_head cfg env w0 i self w /\
    ((max_iterations cfg <= i /\ r = max_iterations_reached cfg env self w) \/
     (i < max_iterations cfg /\
      exists o self' w',
        iteration_body cfg env (i + 1) self (apply_actions (before env (i + 1)) w)
          = Stop o self' w' /\ r = (o, self', w'))).
Proof.
  intros Hp. unfold run, _validate_environment. rewrite Hp. cbn [negb].
  assert (G : forall fuel i self w,
             at_loop_head cfg env w0 i self w ->
             loop fuel cfg env i self w = Some r ->
             exists i self w,
               at_loop_head cfg env w0 i self w /\
               ((max_iterations cfg <= i /\ r = max_iterations_reached cfg env self w) \/
                (i < max_iterations cfg /\
                 exists o self' w',
                   iteration_body cfg env (i + 1) self
                     (apply_actions (before env (i + 1)) w) = Stop o self' w' /\
                   r = (o, self', w')))).
  { induction fuel as [|f IH]; intros i self w Hh; cbn [loop];
      destruct (Z.ltb_spec i (max_iterations cfg)) as [Hlt|Hge]; intros Hr;
      try discriminate.
    - injection Hr as <-. exists i, self, w. split; [assumption | left; split; [lia | reflexivity]].
    - destruct (iteration_body cfg env (i + 1) self _) as [s' w' | o s' w'] eqn:Hb.
      + apply (IH (i + 1) s' w'); [| assumption].
        eapply head_next; eassumption.
      + injection Hr as <-. exists i, self, w. split; [assumption |].
        right. split; [assumption |]. exists o, s', w'. split; [assumption | reflexivity].
    - injection Hr as <-. exists i, self, w. split; [assumption | left; split; [lia | reflexivity]]. }
  apply G. constructor.
Qed.

End Loop.

(** ** One pass of the loop body *)

Section Body.
Variables (cfg : Config) (env : Env).

Lemma commit_eqb_eq (a b : option string) : commit_eqb a b = true <-> a = b.
Proof.
  destruct a as [x|], b as [y|]; cbn; try (split; (discriminate || reflexivity)).
  rewrite String.eqb_eq. split; [now intros -> | now intros [= ->]].
Qed.

Lemma console_apply_actions l :
  forall w, console (apply_actions l w) = console w.
Proof.
  unfold apply_actions. induction l as [|a l IH]; intros w; cbn [fold_left];
    [reflexivity |].
  rewrite IH. now destruct a.
Qed.

Lemma state_json_apply_actions l :
  forall w, state_json (apply_actions l w) = state_json w.
Proof.
  unfold apply_actions. induction l as [|a l IH]; intros w; cbn [fold_left];
    [reflexivity |].
  rewrite IH. now destruct a.
Qed.

Lemma stop_txt_apply_actions l :
  forall w,
    stop_txt (apply_actions l w) = stop_txt w || existsb creates_stop_file l.
Proof.
  unfold apply_actions. induction l as [|a l IH]; intros w;
    cbn [fold_left existsb].
  - now rewrite orb_false_r.
  - rewrite IH. destruct a; cbn; try reflexivity.
    now rewrite orb_true_r.
Qed.

Lemma snapshot_write_state st i d ts lo w :
  snapshot_is (state_json (_write_state cfg env st i d ts lo w)) st i ts.
Proof.
  unfold snapshot_is, _write_state, now, State.save, open_w, write.
  cbn [state_json set_state tick append].
  eexists. split; [reflexivity |]. cbn. auto.
Qed.

Lemma invocations_app l1 l2 :
  invocations (l1 ++ l2) = invocations l1 ++ invocations l2.
Proof. apply flat_map_app. Qed.

Lemma checkpoints_app l1 l2 :
  checkpoints (l1 ++ l2) = checkpoints l1 ++ checkpoints l2.
Proof. apply flat_map_app. Qed.

(** The agent is started once, and nothing else of note is printed. *)
Lemma agent_done_console i w :
  invocations (console (agent_done cfg env i w)) = invocations (console w) ++ [i]
  /\ checkpoints (console (agent_done cfg env i w)) = checkpoints (console w).
Proof.
  unfold agent_done, _run_codex.
  destruct (launch env i); cbn [snd emit console];
    repeat rewrite ?invocations_app, ?checkpoints_app, ?console_apply_actions;
    cbn [emit console]; repeat rewrite ?invocations_app, ?checkpoints_app;
    cbn; rewrite ?app_nil_r; split; reflexivity.
Qed.

Lemma agent_done_stop_txt i w :
  stop_txt (agent_done cfg env i w)
  = stop_txt w || existsb creates_stop_file (during env i).
Proof.
  unfold agent_done, _run_codex.
  destruct (launch env i); cbn [snd emit stop_txt];
    now rewrite stop_txt_apply_actions.
Qed.

Lemma agent_done_state_json i w :
  state_json (agent_done cfg env i w) = state_json (started cfg env i w).
Proof.
  unfold agent_done, _run_codex.
  destruct (launch env i); cbn [snd emit state_json];
    now rewrite state_json_apply_actions.
Qed.

(** The exit-code policy, case by case. *)
Lemma handle_exit_code_self ec i cb ca self w :
  let r := _handle_exit_code cfg env ec i cb ca self w in
  let cf := consecutive_failures self in
  let np := no_progress_count self in
  (ec = 0 /\ fst (fst r) = true /\ snd (fst r) = mk_Self 0 np) \/
  (ec = 99 /\ r = (false, self, emit ProjectComplete w)) \/
  (ec = 1 /\ max_consecutive_failures cfg <= cf + 1 /\
   r = (false, mk_Self (cf + 1) np, emit EscalationRequired w)) \/
  (ec = 1 /\ cf + 1 < max_consecutive_failures cfg /\
   r = (true, mk_Self (cf + 1) np, w)) \/
  (ec <> 0 /\ ec <> 99 /\ ec <> 1 /\
   r = (false, self, emit (UnknownExitCode ec) w)).
Proof.
  unfold _handle_exit_code.
  destruct (Z.eqb_spec ec 0) as [->|H0].
  { left. split; [reflexivity |].
    destruct (negb (commit_eqb cb ca) && has_pending_feedback (feedback w));
      [| split; reflexivity].
    unfold now.
    destruct (archive_feedback _ _) as [[name|] st]; split; reflexivity. }
  destruct (Z.eqb_spec ec 99) as [->|H99].
  { right; left. now destruct self. }
  destruct (Z.eqb_spec ec 1) as [->|H1].
  { cbn [consecutive_failures no_progress_count].
    destruct (Z.geb_spec (consecutive_failures self + 1) (max_consecutive_failures cfg)).
    - right; right; left. split; [reflexivity |]. split; [lia | reflexivity].
    - right; right; right; left. split; [reflexivity |]. split; [lia | reflexivity]. }
  right; right; right; right. now destruct self.
Qed.

(** The policy starts no agent, pauses at no checkpoint and leaves the stop
    file and the snapshot alone. *)
Lemma handle_exit_code_world ec i cb ca self w :
  let w3 := snd (_handle_exit_code cfg env ec i cb ca self w) in
  invocations (console w3) = invocations (console w) /\
  checkpoints (console w3) = checkpoints (console w) /\
  stop_txt w3 = stop_txt w /\
  state_json w3 = state_json w.
Proof.
  unfold _handle_exit_code.
  destruct (ec =? 0).
  { destruct (negb (commit_eqb cb ca) && has_pending_feedback (feedback w));
      [| cbn; auto].
    unfold now.
    destruct (archive_feedback _ _) as [[name|] st]; cbn [snd emit console
      stop_txt state_json set_feedback tick];
      rewrite ?invocations_app, ?checkpoints_app; cbn; rewrite ?app_nil_r; auto. }
  destruct (ec =? 99).
  { cbn [snd emit console stop_txt state_json].
    rewrite ?invocations_app, ?checkpoints_app; cbn; rewrite ?app_nil_r; auto. }
  destruct (ec =? 1).
  { destruct (_ >=? _); cbn [snd emit console stop_txt state_json];
      rewrite ?invocations_app, ?checkpoints_app; cbn; rewrite ?app_nil_r; auto. }
  cbn [snd emit console stop_txt state_json].
  rewrite ?invocations_app, ?checkpoints_app; cbn; rewrite ?app_nil_r; auto.
Qed.

(** The body, once the checkpoint interval is not zero and no stop file is
    there: the agent runs, then the circuit breaker, the exit-code policy
    and the checkpoint decide. *)
Lemma body_eq i self w :
  checkpoint_interval cfg <> 0 ->
  stop_txt w = false ->
  iteration_body cfg env i self w =
  let w2 := agent_done cfg env i w in
  let self1 := progress_checked env i self in
  if breaker_opens cfg env i self
  then Stop (Returned 1) self1 (emit CircuitBreakerTriggered w2)
  else
    let '(continue, self2, w3) :=
      _handle_exit_code cfg env (exit_code_of env i) i
        (_get_current_commit (rev_parse_before env i))
        (_get_current_commit (rev_parse_after env i)) self1 w2 in
    let desc := _get_current_task_description cfg w in
    if negb continue then
      Stop (Returned (if (exit_code_of env i =? 0) || (exit_code_of env i =? 99)
                      then 0 else exit_code_of env i))
        self2
        (_write_state cfg env STOPPED i desc COMPLETED "Run completed" w3)
    else if i mod checkpoint_interval cfg =? 0 then
      Stop (Returned 2) self2
        (_write_state cfg env STOPPED i desc PENDING
           ("Checkpoint " ++ str_of_Z (i / checkpoint_interval cfg)
            ++ " - paused for review")
           (emit (CheckpointReached (i / checkpoint_interval cfg)) w3))
    else Continue self2 w3.
Proof.
  intros Hci Hs. unfold iteration_body.
  destruct (Z.eqb_spec (checkpoint_interval cfg) 0) as [|_]; [contradiction |].
  fold (started cfg env i w).
  unfold _check_stop_file.
  replace (stop_txt (started cfg env i w)) with false by (symmetry; exact Hs).
  unfold breaker_opens, progress_checked, marker_unchanged, agent_done,
    exit_code_of, _run_codex.
  destruct (launch env i); reflexivity.
Qed.

(** Before the agent is reached, a pass can only end on a zero interval or
    on the stop file; the counters are then untouched and no agent runs. *)
Lemma body_early i self w :
  checkpoint_interval cfg = 0 \/ stop_txt w = true ->
  exists o w',
    iteration_body cfg env i self w = Stop o self w' /\
    invocations (console w') = invocations (console w) /\
    checkpoints (console w') = checkpoints (console w).
Proof.
  intros H. unfold iteration_body.
  destruct (Z.eqb_spec (checkpoint_interval cfg) 0) as [|Hci].
  { exists (Raised ZeroDivisionError), w. auto. }
  destruct H as [H|H]; [contradiction |].
  fold (started cfg env i w). unfold _check_stop_file.
  replace (stop_txt (started cfg env i w)) with true by (symmetry; exact H).
  eexists _, _. split; [reflexivity |].
  cbn [set_stop emit console started].
  rewrite invocations_app, checkpoints_app. cbn. rewrite !app_nil_r. auto.
Qed.

End Body.

(** ** The consecutive-failure counter *)

Section Failures.
Variables (cfg : Config) (env : Env).

(** What a pass does to the failure counter. *)
Lemma body_failures i self w :
  consecutive_failures (step_self (iteration_body cfg env i self w))
  = if policy_reached cfg env i self w
    then if exit_code_of env i =? 0 then 0
         else if exit_code_of env i =? 1 then consecutive_failures self + 1
         else consecutive_failures self
    else consecutive_failures self.
Proof.
  unfold policy_reached.
  destruct (Z.eqb_spec (checkpoint_interval cfg) 0) as [Hci|Hci].
  { destruct (body_early cfg env i self w (or_introl Hci)) as (o & w' & -> & _).
    reflexivity. }
  destruct (stop_txt w) eqn:Hstop.
  { destruct (body_early cfg env i self w (or_intror Hstop)) as (o & w' & -> & _).
    reflexivity. }
  rewrite (body_eq cfg env i self w Hci Hstop). cbv zeta. cbn [negb andb].
  destruct (breaker_opens cfg env i self).
  { cbn [step_self negb]. unfold progress_checked.
    now destruct (marker_unchanged env i). }
  cbn [negb].
  assert (Hcf : consecutive_failures (progress_checked env i self)
                = consecutive_failures self).
  { unfold progress_checked. now destruct (marker_unchanged env i). }
  pose proof (handle_exit_code_self cfg env (exit_code_of env i) i
                (_get_current_commit (rev_parse_before env i))
                (_get_current_commit (rev_parse_after env i))
                (progress_checked env i self) (agent_done cfg env i w)) as H.
  cbv zeta in H.
  destruct (_handle_exit_code _ _ _ _ _ _ _ _) as [[c s2] w3].
  cbn [fst snd] in H.
  destruct H as [(E & -> & ->) | [(E & [= -> -> ->]) | [(E & Hge & [= -> -> ->])
               | [(E & Hlt & [= -> -> ->]) | (E0 & E99 & E1 & [= -> -> ->])]]]];
    rewrite ?E; cbn [negb Z.eqb];
    try (destruct (_ mod _ =? 0)); cbn [step_self consecutive_failures];
    rewrite ?Hcf; try reflexivity.
  - destruct (Z.eqb_spec (exit_code_of env i) 0); [contradiction |].
    destruct (Z.eqb_spec (exit_code_of env i) 1); [contradiction | reflexivity].
Qed.

End Failures.

(** Case analysis of one pass: zero interval, stop file, circuit breaker,
    or the exit-code policy with its five cases. *)
Ltac pass_cases cfg env i self w :=
  let Hci := fresh "Hci" in
  let Hstop := fresh "Hstop" in
  let Hb := fresh "Hb" in
  let Hbr := fresh "Hbr" in
  let Hh := fresh "Hh" in
  let Hw := fresh "Hw" in
  let E := fresh "E" in
  destruct (Z.eq_dec (checkpoint_interval cfg) 0) as [Hci|Hci];
  [ destruct (body_early cfg env i self w (or_introl Hci))
      as (?o & ?w' & Hb & ?Hinv & ?Hck)
  | destruct (stop_txt w) eqn:Hstop;
    [ destruct (body_early cfg env i self w (or_intror Hstop))
        as (?o & ?w' & Hb & ?Hinv & ?Hck)
    | pose proof (body_eq cfg env i self w Hci Hstop) as Hb; cbv zeta in Hb;
      destruct (breaker_opens cfg env i self) eqn:Hbr;
      [ | pose proof (handle_exit_code_self cfg env (exit_code_of env i) i
                        (_get_current_commit (rev_parse_before env i))
                        (_get_current_commit (rev_parse_after env i))
                        (progress_checked env i self) (agent_done cfg env i w)) as Hh;
          pose proof (handle_exit_code_world cfg env (exit_code_of env i) i
                        (_get_current_commit (rev_parse_before env i))
                        (_get_current_commit (rev_parse_after env i))
                        (progress_checked env i self) (agent_done cfg env i w)) as Hw;
          cbv zeta in Hh, Hw;
          destruct (_handle_exit_code cfg env (exit_code_of env i) i
                      (_get_current_commit (rev_parse_before env i))
                      (_get_current_commit (rev_parse_after env i))
                      (progress_checked env i self) (agent_done cfg env i w))
            as [[?c ?s2] ?w3] eqn:E;
          cbn [fst snd] in Hh, Hw;
          destruct Hh as [(?E0 & ?Hc & ?Hs) | [(?E99 & ?Hr) | [(?E1 & ?Hge & ?Hr)
                         | [(?E1 & ?Hlt & ?Hr) | (?N0 & ?N99 & ?N1 & ?Hr)]]]] ] ] ].

Section Escalation.
Variables (cfg : Config) (env : Env).

Lemma progress_checked_failures i self :
  consecutive_failures (progress_checked env i self) = consecutive_failures self.
Proof. unfold progress_checked. now destruct (marker_unchanged env i). Qed.

(** A pass that lets the loop go on leaves the counter below the threshold. *)
Lemma continue_below_threshold i self w self' w' :
  1 <= max_consecutive_failures cfg ->
  0 <= consecutive_failures self ->
  iteration_body cfg env i self w = Continue self' w' ->
  0 <= consecutive_failures self' < max_consecutive_failures cfg.
Proof.
  intros Hmax Hcf Hcont.
  pass_cases cfg env i self w; rewrite Hb in Hcont; try discriminate.
  - subst c. cbn [negb] in Hcont.
    destruct (_ mod _ =? 0); [discriminate |].
    injection Hcont as <- _. rewrite Hs. cbn. lia.
  - injection Hr as -> -> ->. discriminate.
  - injection Hr as -> -> ->. discriminate.
  - injection Hr as -> -> ->. cbn [negb] in Hcont.
    destruct (_ mod _ =? 0); [discriminate |].
    injection Hcont as <- _. cbn. rewrite progress_checked_failures in *. lia.
  - injection Hr as -> -> ->. discriminate.
Qed.

(** The counter is below the threshold at every head of the loop. *)
Lemma head_below_threshold (w0 : World) i self w :
  1 <= max_consecutive_failures cfg ->
  at_loop_head cfg env w0 i self w ->
  0 <= consecutive_failures self < max_consecutive_failures cfg.
Proof.
  intros Hmax. induction 1 as [| i self w self' w' Hh IH Hlt Hb].
  - cbn. lia.
  - eapply continue_below_threshold; [exact Hmax | | exact Hb]. lia.
Qed.

(** The pass in which the counter reaches the threshold is the escalation:
    the agent ran once more, the banner is the last thing printed, the
    STOPPED snapshot is written and the pass returns 1. *)
Lemma threshold_escalates i self w :
  consecutive_failures self < max_consecutive_failures cfg ->
  1 <= max_consecutive_failures cfg ->
  consecutive_failures (step_self (iteration_body cfg env i self w))
    = max_consecutive_failures cfg ->
  exists w',
    iteration_body cfg env i self w
      = Stop (Returned 1) (step_self (iteration_body cfg env i self w)) w' /\
    (exists l, console w' = l ++ [EscalationRequired]) /\
    snapshot_is (state_json w') STOPPED i COMPLETED /\
    invocations (console w') = invocations (console w) ++ [i].
Proof.
  intros Hlt Hmax.
  pass_cases cfg env i self w; rewrite Hb; cbn [step_self negb].
  - lia.
  - lia.
  - rewrite progress_checked_failures in *. lia.
  - subst c. cbn [negb]. destruct (_ mod _ =? 0); cbn [step_self];
      rewrite Hs; cbn; lia.
  - injection Hr as -> -> ->. cbn [negb step_self].
    rewrite progress_checked_failures in *. lia.
  - injection Hr as -> -> ->. cbn [negb step_self]. intros _.
    rewrite E1. cbn [Z.eqb orb].
    eexists. split; [reflexivity |]. split; [| split].
    + eexists. reflexivity.
    + apply snapshot_write_state.
    + cbn [_write_state now set_state tick console emit].
      rewrite invocations_app. cbn [invocations flat_map app].
      rewrite app_nil_r. apply agent_done_console.
  - injection Hr as -> -> ->. cbn [negb]. destruct (_ mod _ =? 0); cbn [step_self];
      cbn [consecutive_failures]; rewrite progress_checked_failures in *; lia.
  - injection Hr as -> -> ->. cbn [negb step_self].
    rewrite progress_checked_failures in *. lia.
Qed.

End Escalation.

(** ** The no-progress counter *)

Section Progress.
Variables (cfg : Config) (env : Env).

Lemma iterations_succ (n : nat) :
  iterations (S n) = iterations n ++ [Z.of_nat n + 1].
Proof.
  unfold iterations. rewrite seq_S, map_app. cbn [map]. do 2 f_equal. lia.
Qed.

(** What a pass that reaches the agent does to the no-progress counter. *)
Lemma body_no_progress i self w :
  checkpoint_interval cfg <> 0 ->
  stop_txt w = false ->
  no_progress_count (step_self (iteration_body cfg env i self w))
  = if marker_unchanged env i then no_progress_count self + 1 else 0.
Proof.
  intros Hci' Hstop'.
  assert (Hnp : no_progress_count (progress_checked env i self)
                = if marker_unchanged env i then no_progress_count self + 1 else 0).
  { unfold progress_checked. now destruct (marker_unchanged env i). }
  pass_cases cfg env i self w; try contradiction; try congruence; rewrite Hb.
  - exact Hnp.
  - subst c. cbn [negb]. destruct (_ mod _ =? 0); cbn [step_self]; now rewrite Hs.
  - injection Hr as -> -> ->. exact Hnp.
  - injection Hr as -> -> ->. exact Hnp.
  - injection Hr as -> -> ->. cbn [negb]. destruct (_ mod _ =? 0); exact Hnp.
  - injection Hr as -> -> ->. exact Hnp.
Qed.

(** With the marker unchanged, a closed breaker means the counter stays
    below the limit. *)
Lemma breaker_closed_below i self :
  marker_unchanged env i = true ->
  breaker_opens cfg env i self = false ->
  no_progress_count self + 1 < max_no_progress cfg.
Proof.
  unfold breaker_opens, progress_checked. intros ->. cbn [andb no_progress_count].
  destruct (Z.geb_spec (no_progress_count self + 1) (max_no_progress cfg));
    [discriminate | lia].
Qed.

(** One pass of a run whose marker never moves, from a head where the
    counter equals the number of passes made: either the loop goes on with
    the counter one higher and still below the limit, or the pass stops. *)
Lemma stalled_pass (inv0 : list Z) (k : nat) self w :
  marker_unchanged env (Z.of_nat k + 1) = true ->
  no_progress_count self = Z.of_nat k ->
  invocations (console w) = inv0 ++ iterations k ->
  (k = O \/ Z.of_nat k < max_no_progress cfg) ->
  match iteration_body cfg env (Z.of_nat k + 1) self w with
  | Continue self' w' =>
      no_progress_count self' = Z.of_nat (S k) /\
      invocations (console w') = inv0 ++ iterations (S k) /\
      Z.of_nat (S k) < max_no_progress cfg
  | Stop o self' w' =>
      let n := no_progress_count self' in
      (n = Z.of_nat k \/ n = Z.of_nat (S k)) /\
      invocations (console w') = inv0 ++ iterations (Z.to_nat n) /\
      (n <= max_no_progress cfg \/ n <= 1) /\
      (1 <= n -> max_no_progress cfg <= n ->
       o = Returned 1 /\ exists l, console w' = l ++ [CircuitBreakerTriggered])
  end.
Proof.
  intros Hun Hnp Hinv Hk.
  assert (Hpc : progress_checked env (Z.of_nat k + 1) self
                = mk_Self (consecutive_failures self) (Z.of_nat (S k))).
  { unfold progress_checked. rewrite Hun, Hnp. f_equal. lia. }
  assert (Hdone : invocations (console (agent_done cfg env (Z.of_nat k + 1) w))
                  = inv0 ++ iterations (S k)).
  { rewrite (proj1 (agent_done_console cfg env _ w)), Hinv, iterations_succ.
    now rewrite app_assoc. }
  assert (Hearly : forall o w',
             invocations (console w') = invocations (console w) ->
             let n := no_progress_count self in
             (n = Z.of_nat k \/ n = Z.of_nat (S k)) /\
             invocations (console w') = inv0 ++ iterations (Z.to_nat n) /\
             (n <= max_no_progress cfg \/ n <= 1) /\
             (1 <= n -> max_no_progress cfg <= n ->
              o = Returned 1 /\ exists l, console w' = l ++ [CircuitBreakerTriggered])).
  { intros o w' Hc. cbv zeta. rewrite Hnp, Nat2Z.id, Hc.
    repeat split; [now left | assumption | lia | lia | lia]. }
  pass_cases cfg env (Z.of_nat k + 1) self w; rewrite Hb.
  - now apply Hearly.
  - now apply Hearly.
  - (* the circuit breaker opens *)
    rewrite Hpc. cbn [no_progress_count]. rewrite Nat2Z.id.
    split; [now right |]. split; [| split].
    + cbn [emit console]. rewrite invocations_app, Hdone. cbn. now rewrite app_nil_r.
    + lia.
    + intros _ _. split; [reflexivity |]. eexists. reflexivity.
  - (* the breaker stays closed: one more pass fits below the limit *)
    pose proof (breaker_closed_below _ _ Hun Hbr) as Hbelow.
    rewrite Hnp in Hbelow.
    replace (Z.of_nat k + 1) with (Z.of_nat (S k)) in Hbelow by lia.
    destruct Hw as (Hw1 & _). subst c. cbn [negb]. rewrite Hpc in Hs.
    destruct (_ mod _ =? 0).
    + rewrite Hs. cbn [no_progress_count]. rewrite Nat2Z.id.
      split; [now right |]. split; [| split; [lia | lia]].
      cbn [_write_state now set_state tick console emit].
      rewrite invocations_app, Hw1, Hdone. cbn. now rewrite app_nil_r.
    + rewrite Hs. cbn [no_progress_count]. rewrite Hw1. auto.
  - injection Hr as -> -> ->. cbn [negb]. rewrite Hpc. cbn [no_progress_count].
    rewrite Nat2Z.id. 
    pose proof (breaker_closed_below _ _ Hun Hbr) as Hbelow.
    rewrite Hnp in Hbelow.
    replace (Z.of_nat k + 1) with (Z.of_nat (S k)) in Hbelow by lia.
    split; [now right |]. split; [| split; [lia | lia]].
    cbn [_write_state now set_state tick console emit].
    rewrite invocations_app, Hdone. cbn. now rewrite app_nil_r.
  - injection Hr as -> -> ->. cbn [negb]. rewrite Hpc. cbn [no_progress_count].
    rewrite Nat2Z.id.
    pose proof (breaker_closed_below _ _ Hun Hbr) as Hbelow.
    rewrite Hnp in Hbelow.
    replace (Z.of_nat k + 1) with (Z.of_nat (S k)) in Hbelow by lia.
    split; [now right |]. split; [| split; [lia | lia]].
    cbn [_write_state now set_state tick console emit].
    rewrite invocations_app, Hdone. cbn. now rewrite app_nil_r.
  - injection Hr as -> -> ->. cbn [negb]. rewrite Hpc. cbn [no_progress_count].
    pose proof (breaker_closed_below _ _ Hun Hbr) as Hbelow.
    rewrite Hnp in Hbelow.
    replace (Z.of_nat k + 1) with (Z.of_nat (S k)) in Hbelow by lia.
    destruct (_ mod _ =? 0).
    + cbn [no_progress_count]. rewrite Nat2Z.id.
      split; [now right |]. split; [| split; [lia | lia]].
      cbn [_write_state now set_state tick console emit].
      rewrite invocations_app, Hdone. cbn. now rewrite app_nil_r.
    + cbn [no_progress_count]. auto.
  - injection Hr as -> -> ->. cbn [negb]. rewrite Hpc. cbn [no_progress_count].
    rewrite Nat2Z.id.
    pose proof (breaker_closed_below _ _ Hun Hbr) as Hbelow.
    rewrite Hnp in Hbelow.
    replace (Z.of_nat k + 1) with (Z.of_nat (S k)) in Hbelow by lia.
    split; [now right |]. split; [| split; [lia | lia]].
    cbn [_write_state now set_state tick console emit].
    rewrite invocations_app, Hdone. cbn. now rewrite app_nil_r.
Qed.

End Progress.

(** ** Runs in which the marker never moves *)

Section Stalled.
Variables (cfg : Config) (env : Env) (w0 : World).
Hypothesis unchanged : forall i, marker_unchanged env i = true.

(** At every head of the loop the counter equals the number of passes made,
    the agent ran once in each of them, and the limit is not reached. *)
Lemma stalled_head i self w :
  at_loop_head cfg env w0 i self w ->
  exists k : nat,
    i = Z.of_nat k /\
    no_progress_count self = Z.of_nat k /\
    invocations (console w) = invocations (console w0) ++ iterations k /\
    (k = O \/ Z.of_nat k < max_no_progress cfg).
Proof.
  induction 1 as [| i self w self' w' Hh IH Hlt Hb].
  - exists O. cbn. rewrite app_nil_r. auto.
  - destruct IH as (k & -> & Hnp & Hinv & Hk).
    exists (S k).
    pose proof (stalled_pass cfg env (invocations (console w0)) k self
                  (apply_actions (before env (Z.of_nat k + 1)) w)
                  (unchanged _) Hnp) as Hp.
    rewrite console_apply_actions in Hp. specialize (Hp Hinv Hk).
    rewrite Hb in Hp. destruct Hp as (H1 & H2 & H3).
    repeat split; [lia | assumption | assumption | now right].
Qed.

End Stalled.

(** ** Passes that succeed with progress, and exit code 99 *)

Section Productive.
Variables (cfg : Config) (env : Env).

Lemma changed_keeps_breaker_closed i self :
  marker_unchanged env i = false -> breaker_opens cfg env i self = false.
Proof. unfold breaker_opens. now intros ->. Qed.

(** A pass with exit code 0 and a new commit: the agent ran once, no stop
    file was left behind unless somebody asked for one meanwhile, and the
    pass pauses exactly on a multiple of the checkpoint interval. *)
Lemma productive_pass i self w :
  checkpoint_interval cfg <> 0 ->
  stop_txt w = false ->
  exit_code_of env i = 0 ->
  marker_unchanged env i = false ->
  exists self2 w3,
    invocations (console w3) = invocations (console w) ++ [i] /\
    checkpoints (console w3) = checkpoints (console w) /\
    stop_txt w3 = existsb creates_stop_file (during env i) /\
    iteration_body cfg env i self w
    = if i mod checkpoint_interval cfg =? 0
      then Stop (Returned 2) self2
             (_write_state cfg env STOPPED i (_get_current_task_description cfg w)
                PENDING
                ("Checkpoint " ++ str_of_Z (i / checkpoint_interval cfg)
                 ++ " - paused for review")
                (emit (CheckpointReached (i / checkpoint_interval cfg)) w3))
      else Continue self2 w3.
Proof.
  intros Hci' Hstop' Hec Hch.
  pose proof (changed_keeps_breaker_closed i self Hch) as Hclosed.
  pass_cases cfg env i self w; try contradiction; try congruence.
  subst c. destruct Hw as (Hw1 & Hw2 & Hw3 & _).
  exists s2, w3. rewrite Hb. cbn [negb].
  rewrite Hw1, Hw2, Hw3, agent_done_stop_txt, Hstop.
  destruct (agent_done_console cfg env i w) as (-> & ->). auto.
Qed.

(** A pass in which the agent exits with 99 ends the run: with code 1 when
    the circuit breaker opens in that pass, with code 0, the completion
    banner and the STOPPED snapshot otherwise.  The failure counter plays
    no part. *)
Lemma exit_99_pass i self w :
  checkpoint_interval cfg <> 0 ->
  stop_txt w = false ->
  launch env i = Some 99 ->
  exists self' w',
    iteration_body cfg env i self w
      = Stop (Returned (if breaker_opens cfg env i self then 1 else 0)) self' w' /\
    consecutive_failures self' = consecutive_failures self /\
    invocations (console w') = invocations (console w) ++ [i] /\
    (breaker_opens cfg env i self = false ->
     (exists l, console w' = l ++ [ProjectComplete]) /\
     snapshot_is (state_json w') STOPPED i COMPLETED).
Proof.
  intros Hci' Hstop' Hl.
  assert (Hec : exit_code_of env i = 99) by (unfold exit_code_of; now rewrite Hl).
  pass_cases cfg env i self w; try contradiction; try congruence;
    try (rewrite Hec in *; discriminate); try (exfalso; congruence).
  - eexists _, _. split; [exact Hb |]. split; [apply progress_checked_failures |].
    split; [| discriminate].
    cbn [emit console]. rewrite invocations_app. cbn. rewrite app_nil_r.
    apply agent_done_console.
  - injection Hr as -> -> ->. rewrite Hec in Hb. cbn [negb Z.eqb orb] in Hb.
    eexists _, _. split; [exact Hb |]. split; [apply progress_checked_failures |].
    split; [| intros _; split].
    + cbn [_write_state now set_state tick console emit].
      rewrite invocations_app. cbn. rewrite app_nil_r. apply agent_done_console.
    + eexists. reflexivity.
    + apply snapshot_write_state.
Qed.

End Productive.

(** ** The first checkpoint *)

Section Checkpoint.
Variables (cfg : Config) (env : Env) (w0 : World).
Hypothesis interval_10 : checkpoint_interval cfg = 10.
Hypothesis enough : 10 <= max_iterations cfg.
Hypothesis steering_found : product_md w0 = true.
Hypothesis no_stop_file : stop_txt w0 = false.
Hypothesis all_well :
  forall i, 1 <= i <= 10 ->
    launch env i = Some 0 /\ marker_unchanged env i = false /\
    no_stop_request env i = true.

Lemma quiet_before i w :
  1 <= i <= 10 -> stop_txt w = false ->
  stop_txt (apply_actions (before env i) w) = false.
Proof.
  intros Hi Hs. destruct (all_well i Hi) as (_ & _ & Hq).
  unfold no_stop_request in Hq. apply andb_prop in Hq. destruct Hq as (Hq & _).
  rewrite stop_txt_apply_actions, Hs. cbn. now destruct (existsb _ _).
Qed.

Lemma quiet_during i : 1 <= i <= 10 -> existsb creates_stop_file (during env i) = false.
Proof.
  intros Hi. destruct (all_well i Hi) as (_ & _ & Hq).
  unfold no_stop_request in Hq. apply andb_prop in Hq. destruct Hq as (_ & Hq).
  now destruct (existsb _ _).
Qed.

Lemma success_code i : 1 <= i <= 10 -> exit_code_of env i = 0.
Proof.
  intros Hi. destruct (all_well i Hi) as (Hl & _). unfold exit_code_of. now rewrite Hl.
Qed.

(** The first nine passes all go on. *)
Lemma nine_passes (k : nat) :
  (k <= 9)%nat ->
  exists self w,
    at_loop_head cfg env w0 (Z.of_nat k) self w /\
    stop_txt w = false /\
    invocations (console w) = invocations (console w0) ++ iterations k /\
    checkpoints (console w) = checkpoints (console w0).
Proof.
  induction k as [|k IH]; intros Hk.
  - exists init_self, w0. cbn. rewrite app_nil_r. repeat split; auto. constructor.
  - destruct IH as (self & w & Hh & Hs & Hinv & Hck); [lia |].
    assert (Hi : 1 <= Z.of_nat k + 1 <= 10) by lia.
    destruct (productive_pass cfg env (Z.of_nat k + 1) self
                (apply_actions (before env (Z.of_nat k + 1)) w))
      as (self2 & w3 & H1 & H2 & H3 & Hb).
    { rewrite interval_10. discriminate. }
    { now apply quiet_before. }
    { now apply success_code. }
    { now destruct (all_well _ Hi) as (_ & ? & _). }
    rewrite interval_10 in Hb.
    destruct (Z.eqb_spec ((Z.of_nat k + 1) mod 10) 0) as [Hmod|_].
    { exfalso. rewrite Z.mod_small in Hmod; lia. }
    exists self2, w3.
    rewrite console_apply_actions in H1, H2.
    replace (Z.of_nat (S k)) with (Z.of_nat k + 1) by lia.
    split; [eapply head_next; [exact Hh | lia | exact Hb] |].
    split; [rewrite H3; now apply quiet_during |].
    split; [| congruence].
    rewrite H1, Hinv, iterations_succ. now rewrite app_assoc.
Qed.

Lemma tenth_pass_pauses :
  exists self' w',
    run cfg env w0 = Some (Returned 2, self', w') /\
    invocations (console w') = invocations (console w0) ++ iterations 10 /\
    checkpoints (console w') = checkpoints (console w0) ++ [1] /\
    (exists l, console w' = l ++ [CheckpointReached 1]) /\
    snapshot_is (state_json w') STOPPED 10 PENDING.
Proof.
  destruct (nine_passes 9 (le_n _)) as (self & w & Hh & Hs & Hinv & Hck).
  assert (Hi : 1 <= Z.of_nat 9 + 1 <= 10) by lia.
  destruct (productive_pass cfg env (Z.of_nat 9 + 1) self
              (apply_actions (before env (Z.of_nat 9 + 1)) w))
    as (self2 & w3 & H1 & H2 & H3 & Hb).
  { rewrite interval_10. discriminate. }
  { now apply quiet_before. }
  { now apply success_code. }
  { now destruct (all_well _ Hi) as (_ & ? & _). }
  rewrite interval_10 in Hb. change (Z.of_nat 9 + 1) with 10 in *.
  change (10 mod 10 =? 0) with true in Hb. change (10 / 10) with 1 in Hb.
  cbv iota in Hb.
  rewrite console_apply_actions in H1, H2.
  eexists _, _. split.
  { eapply (run_stops cfg env w0 9); [exact steering_found | exact Hh | lia | exact Hb]. }
  split; [| split; [| split; [| apply snapshot_write_state]]];
    cbn [_write_state now set_state tick console emit].
  - rewrite invocations_app, H1, Hinv. cbn [invocations flat_map app].
    rewrite app_nil_r, <- app_assoc. reflexivity.
  - rewrite checkpoints_app, H2, Hck. reflexivity.
  - eexists. reflexivity.
Qed.

End Checkpoint.

(** When the circuit breaker opens, the pass returns 1 and the snapshot file
    still holds the RUNNING snapshot written at the start of the pass. *)
Lemma breaker_leaves_running_snapshot (cfg : Config) (env : Env) i self w :
  checkpoint_interval cfg <> 0 ->
  stop_txt w = false ->
  breaker_opens cfg env i self = true ->
  exists self' w',
    iteration_body cfg env i self w = Stop (Returned 1) self' w' /\
    (exists l, console w' = l ++ [CircuitBreakerTriggered]) /\
    snapshot_is (state_json w') RUNNING i IN_PROGRESS.
Proof.
  intros Hci Hstop Hbr. rewrite (body_eq cfg env i self w Hci Hstop). cbv zeta.
  rewrite Hbr.
  exists (progress_checked env i self),
         (emit CircuitBreakerTriggered (agent_done cfg env i w)).
  split; [reflexivity |]. split.
  - exists (console (agent_done cfg env i w)). reflexivity.
  - change (state_json (emit CircuitBreakerTriggered (agent_done cfg env i w)))
      with (state_json (agent_done cfg env i w)).
    rewrite agent_done_state_json. unfold started. apply snapshot_write_state.
Qed.

(** An exit code other than 0, 1 and 99, once the policy is reached, ends
    the run with that code, after the STOPPED snapshot is written. *)
Lemma unknown_exit_code_stops (cfg : Config) (env : Env) i self w :
  policy_reached cfg env i self w = true ->
  exit_code_of env i <> 0 -> exit_code_of env i <> 1 -> exit_code_of env i <> 99 ->
  exists self' w',
    iteration_body cfg env i self w
      = Stop (Returned (exit_code_of env i)) self' w' /\
    (exists l, console w' = l ++ [UnknownExitCode (exit_code_of env i)]) /\
    snapshot_is (state_json w') STOPPED i COMPLETED.
Proof.
  unfold policy_reached. intros Hp H0 H1 H99.
  apply andb_prop in Hp. destruct Hp as (Hp & Hclosed).
  apply andb_prop in Hp. destruct Hp as (Hci' & Hs').
  apply negb_true_iff in Hclosed, Hci', Hs'. apply Z.eqb_neq in Hci'.
  pass_cases cfg env i self w; try contradiction; try congruence.
  injection Hr as -> -> ->. cbn [negb] in Hb.
  destruct (Z.eqb_spec (exit_code_of env i) 0); [contradiction |].
  destruct (Z.eqb_spec (exit_code_of env i) 99); [contradiction |].
  cbn [orb] in Hb. eexists _, _. split; [exact Hb |]. split.
  - eexists. reflexivity.
  - apply snapshot_write_state.
Qed.

(** When the exit-code policy archives: on exit code 0, with the marker
    moved, and with a pending file there at that moment, after the agent
    has run.  Otherwise the feedback store is left as it is. *)
Lemma policy_archives (cfg : Config) (env : Env) ec i cb ca self w :
  let w3 := snd (_handle_exit_code cfg env ec i cb ca self w) in
  if (ec =? 0) && negb (commit_eqb cb ca) && has_pending_feedback (feedback w)
  then pending_file (feedback w3) = None /\
       exists name content dir,
         pending_file (feedback w) = Some content /\
         archive_dir (feedback w3) = Some dir /\ In (name, content) dir
  else feedback w3 = feedback w.
Proof.
  unfold _handle_exit_code.
  destruct (ec =? 0); cbn [andb].
  - destruct (negb (commit_eqb cb ca)); cbn [andb]; [| reflexivity].
    unfold has_pending_feedback, now, archive_feedback, has_pending_feedback.
    cbn [feedback tick].
    destruct (pending_file (feedback w)) as [content|] eqn:Hp; [| reflexivity].
    cbn [negb snd emit set_feedback feedback pending_file archive_dir].
    split; [reflexivity |].
    eexists _, content, _. split; [reflexivity |]. split; [reflexivity |].
    generalize (match archive_dir (feedback w) with Some d => d | None => [] end).
    intros dir. induction dir as [|[n c] dir IH]; cbn [put_file]; [now left |].
    destruct (String.eqb n _); [now left | right; exact IH].
  - destruct (ec =? 99); [reflexivity |].
    destruct (ec =? 1); [| reflexivity].
    destruct (_ >=? _); reflexivity.
Qed.

End RunnerFacts.

(** ** The snapshot document reads back *)

Module SnapshotFacts.
Import Text Json Datetime State.
Local Open Scope string_scope.
Local Open Scope Z_scope.

(** *** Strings *)

Lemma append_assoc (a b c : string) : (a ++ b) ++ c = a ++ (b ++ c).
Proof. induction a as [|x a IH]; cbn; [reflexivity | now rewrite IH]. Qed.

Lemma append_nil_r (a : string) : a ++ "" = a.
Proof. induction a as [|x a IH]; cbn; [reflexivity | now rewrite IH]. Qed.

Lemma length_append (a b : string) :
  String.length (a ++ b) = (String.length a + String.length b)%nat.
Proof. induction a as [|x a IH]; cbn; [reflexivity | now rewrite IH]. Qed.

Lemma rev_string_append (s acc : string) :
  rev_string acc s = rev_string "" s ++ acc.
Proof.
  revert acc. induction s as [|c s IH]; intros acc; cbn [rev_string];
    [reflexivity |].
  rewrite IH, (IH (String c "")), append_assoc. reflexivity.
Qed.

Lemma rev_string_snoc (a : string) (c : ascii) :
  forall b, rev_string b (a ++ String c "") = String c (rev_string b a).
Proof. induction a as [|x a IH]; intros b; cbn; [reflexivity | apply IH]. Qed.

Lemma rev_string_involutive (s : string) : rev_string "" (rev_string "" s) = s.
Proof.
  induction s as [|c s IH]; cbn [rev_string]; [reflexivity |].
  now rewrite (rev_string_append s), rev_string_snoc, IH.
Qed.

(** *** String literals *)

(** Reading one encoded character costs one step. *)
Lemma parse_chars_encode_char (c : ascii) fuel acc r :
  parse_chars (S fuel) acc (encode_char c ++ r)
  = parse_chars fuel (String c acc) r.
Proof.
  destruct c as [[] [] [] [] [] [] [] []]; reflexivity.
Qed.

Lemma parse_chars_encode_chars (s : string) :
  forall fuel acc r,
    (String.length s < fuel)%nat ->
    parse_chars fuel acc (encode_chars s ++ String dquote r)
    = Some (rev_string "" (rev_string acc s), r).
Proof.
  induction s as [|c s IH]; intros fuel acc r Hf;
    (destruct fuel as [|fuel]; [cbn in Hf; lia |]).
  - reflexivity.
  - cbn [encode_chars rev_string]. rewrite append_assoc, parse_chars_encode_char.
    apply IH. cbn in Hf. lia.
Qed.

Lemma encode_char_nonempty (c : ascii) : (1 <= String.length (encode_char c))%nat.
Proof. destruct c as [[] [] [] [] [] [] [] []]; vm_compute; lia. Qed.

Lemma length_encode_chars (s : string) :
  (String.length s <= String.length (encode_chars s))%nat.
Proof.
  induction s as [|c s IH]; cbn [encode_chars String.length]; [lia |].
  rewrite length_append. pose proof (encode_char_nonempty c). lia.
Qed.

Lemma encode_string_head (s r : string) :
  encode_string s ++ r = String dquote (encode_chars s ++ String dquote r).
Proof.
  unfold encode_string, chr. cbn [append]. now rewrite append_assoc.
Qed.

(** A string literal at the head of the text is read back. *)
Lemma parse_value_string (f : nat) (s r : string) :
  parse_value (S f) (encode_string s ++ r) = Some (JString s, r).
Proof.
  rewrite encode_string_head. cbn [parse_value].
  change (Ascii.eqb dquote dquote) with true. cbv iota.
  rewrite parse_chars_encode_chars.
  - now rewrite rev_string_involutive.
  - rewrite length_append. pose proof (length_encode_chars s). lia.
Qed.

(** *** Decimal numbers *)

Lemma digit_val_digit_char (d : Z) :
  0 <= d < 10 -> digit_val (digit_char d) = Some d.
Proof.
  intros H.
  assert (C : d = 0 \/ d = 1 \/ d = 2 \/ d = 3 \/ d = 4 \/ d = 5 \/ d = 6
              \/ d = 7 \/ d = 8 \/ d = 9) by lia.
  repeat (destruct C as [-> | C]; [reflexivity |]). now subst.
Qed.

Lemma is_digits_app (a b : string) :
  is_digits a = true -> is_digits b = true -> is_digits (a ++ b) = true.
Proof.
  induction a as [|c a IH]; cbn; [auto |].
  destruct (digit_val c); [auto | discriminate].
Qed.

Lemma digits_value_app (a b : string) :
  forall acc, is_digits a = true ->
    digits_value acc (a ++ b) = digits_value (digits_value acc a) b.
Proof.
  induction a as [|c a IH]; intros acc; cbn; [reflexivity |].
  destruct (digit_val c); [apply IH | discriminate].
Qed.

Lemma span_digits_app (d r : string) :
  forall acc, is_digits d = true ->
    span_digits acc (d ++ r) = span_digits (digits_value acc d) r.
Proof.
  induction d as [|c d IH]; intros acc; cbn; [reflexivity |].
  destruct (digit_val c); [apply IH | discriminate].
Qed.

Lemma take_digits_app (d r : string) (n : nat) :
  forall acc, is_digits d = true ->
    take_digits (String.length d + n) acc (d ++ r)
    = take_digits n (digits_value acc d) r.
Proof.
  induction d as [|c d IH]; intros acc; cbn; [reflexivity |].
  destruct (digit_val c); [apply IH | discriminate].
Qed.

Lemma dec_digits_unfold (f : nat) (z : Z) :
  dec_digits (S f) z
  = if z <? 10 then chr (digit_char z)
    else dec_digits f (z / 10) ++ chr (digit_char (z mod 10)).
Proof. reflexivity. Qed.

Lemma is_digits_dec_digits (f : nat) :
  forall z, 0 <= z -> is_digits (dec_digits f z) = true.
Proof.
  induction f as [|f IH]; intros z Hz; [reflexivity |].
  rewrite dec_digits_unfold. destruct (Z.ltb_spec z 10).
  - cbn [is_digits chr]. now rewrite digit_val_digit_char by lia.
  - apply is_digits_app; [apply IH; apply Z.div_pos; lia |].
    cbn [is_digits chr]. rewrite digit_val_digit_char; [reflexivity |].
    apply Z.mod_pos_bound. lia.
Qed.

Lemma digits_value_dec_digits (f : nat) :
  forall z, 0 <= z < 10 ^ Z.of_nat f -> digits_value 0 (dec_digits f z) = z.
Proof.
  induction f as [|f IH]; intros z Hz.
  - cbn in *. lia.
  - rewrite dec_digits_unfold. destruct (Z.ltb_spec z 10).
    + cbn [digits_value chr]. rewrite digit_val_digit_char by lia. lia.
    + assert (Hq : 0 <= z / 10 < 10 ^ Z.of_nat f).
      { split; [apply Z.div_pos; lia |].
        apply Z.div_lt_upper_bound; [lia |].
        rewrite Nat2Z.inj_succ, Z.pow_succ_r in Hz; lia. }
      rewrite digits_value_app by (apply is_digits_dec_digits; lia).
      rewrite (IH _ Hq). cbn [digits_value chr].
      rewrite digit_val_digit_char by (apply Z.mod_pos_bound; lia).
      pose proof (Z.div_mod z 10). lia.
Qed.

Lemma length_dec_digits (f : nat) :
  forall z (w : nat), (1 <= w)%nat -> 0 <= z < 10 ^ Z.of_nat w ->
    (String.length (dec_digits f z) <= w)%nat.
Proof.
  induction f as [|f IH]; intros z w Hw Hz; [cbn; lia |].
  rewrite dec_digits_unfold. destruct (Z.ltb_spec z 10); [cbn; lia |].
  rewrite length_append. cbn [String.length chr].
  destruct w as [|w]; [lia |].
  rewrite Nat2Z.inj_succ, Z.pow_succ_r in Hz by lia.
  assert (Hw' : (1 <= w)%nat).
  { destruct w; [cbn in Hz; lia | lia]. }
  assert (Hq : 0 <= z / 10 < 10 ^ Z.of_nat w).
  { split; [apply Z.div_pos; lia | apply Z.div_lt_upper_bound; lia]. }
  specialize (IH _ w Hw' Hq). lia.
Qed.

(** The first digit, which is not 0 for a positive number. *)
Lemma dec_digits_head (f : nat) :
  forall z, 0 <= z ->
    exists c r d,
      dec_digits (S f) z = String c r /\ digit_val c = Some d /\
      (0 < z < 10 ^ Z.of_nat (S f) -> d <> 0).
Proof.
  induction f as [|f IH]; intros z Hz; rewrite dec_digits_unfold;
    destruct (Z.ltb_spec z 10) as [Hlt|Hge].
  - exists (digit_char z), "", z. rewrite digit_val_digit_char by lia.
    repeat split. lia.
  - exists (digit_char (z mod 10)), "", (z mod 10).
    rewrite digit_val_digit_char by (apply Z.mod_pos_bound; lia).
    repeat split. cbn. lia.
  - exists (digit_char z), "", z. rewrite digit_val_digit_char by lia.
    repeat split. lia.
  - destruct (IH (z / 10)) as (c & r & d & -> & Hd & Hnz);
      [apply Z.div_pos; lia |].
    exists c, (r ++ chr (digit_char (z mod 10))), d.
    repeat split; [assumption |].
    intros Hb. apply Hnz.
    rewrite (Nat2Z.inj_succ (S f)), Z.pow_succ_r in Hb by lia.
    split; [apply Z.div_str_pos; lia | apply Z.div_lt_upper_bound; lia].
Qed.

(** The fuel of [str_of_nonneg] covers all the digits. *)
Lemma str_of_nonneg_fuel (z : Z) :
  0 <= z -> z < 10 ^ Z.of_nat (S (Z.to_nat (Z.log2 z))).
Proof.
  intros Hz. rewrite Nat2Z.inj_succ, Z2Nat.id by apply Z.log2_nonneg.
  destruct (Z.eq_dec z 0) as [->|Hnz]; [cbn; lia |].
  pose proof (Z.log2_spec z ltac:(lia)) as [_ Hup].
  eapply Z.lt_le_trans; [exact Hup |].
  apply Z.pow_le_mono_l. lia.
Qed.

Lemma digits_value_str_of_nonneg (z : Z) :
  0 <= z ->
  is_digits (str_of_nonneg z) = true /\ digits_value 0 (str_of_nonneg z) = z.
Proof.
  intros Hz. unfold str_of_nonneg. split.
  - now apply is_digits_dec_digits.
  - apply digits_value_dec_digits. split; [assumption | now apply str_of_nonneg_fuel].
Qed.

(** *** Integers in the text *)

Lemma span_digits_end (n : Z) (r : string) :
  ends_number r = true -> span_digits n r = (n, r).
Proof.
  destruct r as [|c r]; [reflexivity |]. unfold ends_number, is_digit. cbn [span_digits].
  destruct (digit_val c); [discriminate | reflexivity].
Qed.

Lemma float_follows_end (r : string) :
  ends_number r = true -> float_follows r = false.
Proof.
  destruct r as [|c r]; [reflexivity |].
  destruct c as [[] [] [] [] [] [] [] []]; intros H; vm_compute in H;
    try discriminate; reflexivity.
Qed.

Lemma digit_is_number_head (c : ascii) (d : Z) :
  digit_val c = Some d -> number_head c = true.
Proof. unfold number_head, is_digit. now intros ->. Qed.

Lemma parse_nat_str_of_nonneg (z : Z) (r : string) :
  0 <= z -> ends_number r = true ->
  parse_nat (str_of_nonneg z ++ r) = Some (z, r).
Proof.
  intros Hz Hr.
  destruct (digits_value_str_of_nonneg z Hz) as (Hd & Hv).
  assert (Hspan : span_digits 0 (str_of_nonneg z ++ r) = (z, r)).
  { now rewrite span_digits_app, Hv, span_digits_end. }
  unfold str_of_nonneg in *.
  destruct (dec_digits_head (Z.to_nat (Z.log2 z)) z Hz) as (c & D & d & E & Hc & Hnz).
  rewrite E in *. cbn [append parse_nat span_digits] in *. rewrite Hc in *.
  destruct (Z.eq_dec z 0) as [->|Hpos].
  - vm_compute in E. injection E as <- <-. vm_compute in Hc. now injection Hc as <-.
  - assert (Hd0 : d <> 0).
    { apply Hnz. split; [lia | now apply str_of_nonneg_fuel]. }
    replace (10 * 0 + d) with d in Hspan by lia.
    destruct d; [contradiction | now rewrite Hspan ..].
Qed.

Lemma str_of_Z_head (z : Z) :
  exists c r, str_of_Z z = String c r /\ number_head c = true.
Proof.
  unfold str_of_Z. destruct (z <? 0).
  - eexists _, _. split; reflexivity.
  - unfold str_of_nonneg.
    destruct (Z.le_gt_cases 0 z) as [Hz|Hz].
    + destruct (dec_digits_head (Z.to_nat (Z.log2 z)) z Hz) as (c & D & d & E & Hc & _).
      exists c, D. split; [assumption | eapply digit_is_number_head; eassumption].
    + destruct z; try lia. eexists _, _. split; reflexivity.
Qed.

Lemma parse_value_number_head (c : ascii) (f : nat) (r : string) :
  number_head c = true ->
  parse_value (S f) (String c r) = parse_number (String c r).
Proof.
  destruct c as [[] [] [] [] [] [] [] []]; intros H; vm_compute in H;
    try discriminate; reflexivity.
Qed.

Lemma digit_not_minus (c : ascii) (d : Z) (r : string) :
  digit_val c = Some d ->
  parse_number (String c r)
  = match parse_nat (String c r) with
    | Some (n, r') => if float_follows r' then None else Some (JInt n, r')
    | None => None
    end.
Proof.
  destruct c as [[] [] [] [] [] [] [] []]; intros H; vm_compute in H;
    try discriminate; reflexivity.
Qed.

Lemma parse_number_str_of_Z (z : Z) (r : string) :
  ends_number r = true ->
  parse_number (str_of_Z z ++ r) = Some (JInt z, r).
Proof.
  intros Hr. unfold str_of_Z. destruct (Z.ltb_spec z 0) as [Hneg|Hpos].
  - cbn [append]. unfold parse_number.
    rewrite parse_nat_str_of_nonneg by (assumption || lia).
    rewrite float_follows_end by assumption. now rewrite Z.opp_involutive.
  - pose proof (parse_nat_str_of_nonneg z r Hpos Hr) as Hn.
    unfold str_of_nonneg in *.
    destruct (dec_digits_head (Z.to_nat (Z.log2 z)) z Hpos) as (c & D & d & E & Hc & _).
    rewrite E in *. cbn [append] in *.
    rewrite (digit_not_minus c d _ Hc), Hn.
    now rewrite float_follows_end.
Qed.

(** An integer at the head of the text is read back. *)
Lemma parse_value_int (f : nat) (z : Z) (r : string) :
  ends_number r = true ->
  parse_value (S f) (str_of_Z z ++ r) = Some (JInt z, r).
Proof.
  intros Hr. rewrite <- (parse_number_str_of_Z z r Hr).
  destruct (str_of_Z_head z) as (c & D & -> & Hc). cbn [append].
  now apply parse_value_number_head.
Qed.

(** *** Objects in the text *)

Lemma skip_ws_encode_string (s r : string) :
  skip_ws (encode_string s ++ r) = encode_string s ++ r.
Proof. rewrite encode_string_head. reflexivity. Qed.

Lemma skip_ws_number (z : Z) (r : string) :
  skip_ws (str_of_Z z ++ r) = str_of_Z z ++ r.
Proof.
  destruct (str_of_Z_head z) as (c & D & -> & Hc). cbn [append].
  revert Hc. destruct c as [[] [] [] [] [] [] [] []]; intros H; vm_compute in H;
    try discriminate; reflexivity.
Qed.

Lemma skip_ws_newline_indent (l : nat) (r : string) :
  skip_ws (newline_indent l ++ r) = skip_ws r.
Proof.
  unfold newline_indent, nl, chr. cbn [append].
  change (skip_ws (String newline (repeat_str "  " l ++ r)))
    with (skip_ws (repeat_str "  " l ++ r)).
  induction l as [|l IH]; [reflexivity |].
  cbn [repeat_str]. rewrite append_assoc. exact IH.
Qed.

Lemma parse_value_open (f : nat) (x : string) :
  parse_value (S f) ("{" ++ x)
  = match skip_ws x with
    | String "}" r' => Some (JObject [], r')
    | r' => parse_members f [] r'
    end.
Proof. reflexivity. Qed.

(** An object that has a first member. *)
Lemma parse_value_object (f l : nat) (k r : string) :
  parse_value (S f) ("{" ++ newline_indent l ++ encode_string k ++ r)
  = parse_members f [] (encode_string k ++ r).
Proof.
  rewrite parse_value_open, skip_ws_newline_indent, skip_ws_encode_string,
    encode_string_head.
  reflexivity.
Qed.

Lemma parse_members_unfold (f : nat) acc (x : string) :
  parse_members (S f) acc (String dquote x)
  = match parse_chars (S (String.length x)) "" x with
    | Some (k, r1) =>
        match expect ":" (skip_ws r1) with
        | Some r2 =>
            match parse_value f (skip_ws r2) with
            | Some (v, r3) => member_tail (parse_members f) (dict_set k v acc) r3
            | None => None
            end
        | None => None
        end
    | None => None
    end.
Proof. reflexivity. Qed.

(** One member: its key, the colon, and then its value. *)
Lemma parse_members_member (f : nat) acc (k r : string) :
  skip_ws r = r ->
  parse_members (S f) acc (encode_string k ++ ": " ++ r)
  = match parse_value f r with
    | Some (v, r3) => member_tail (parse_members f) (dict_set k v acc) r3
    | None => None
    end.
Proof.
  intros Hr. rewrite encode_string_head, parse_members_unfold.
  rewrite parse_chars_encode_chars, rev_string_involutive.
  - change (expect ":" (skip_ws (": " ++ r))) with (Some (String " " r)).
    cbv iota. change (skip_ws (String " " r)) with (skip_ws r).
    now rewrite Hr.
  - rewrite length_append. pose proof (length_encode_chars k). lia.
Qed.

Lemma member_string (f : nat) acc (k s r : string) :
  parse_members (S (S f)) acc (encode_string k ++ ": " ++ encode_string s ++ r)
  = member_tail (parse_members (S f)) (dict_set k (JString s) acc) r.
Proof.
  rewrite parse_members_member by apply skip_ws_encode_string.
  now rewrite parse_value_string.
Qed.

Lemma member_int (f : nat) acc (k : string) (z : Z) (r : string) :
  ends_number r = true ->
  parse_members (S (S f)) acc (encode_string k ++ ": " ++ str_of_Z z ++ r)
  = member_tail (parse_members (S f)) (dict_set k (JInt z) acc) r.
Proof.
  intros Hr. rewrite parse_members_member by apply skip_ws_number.
  now rewrite parse_value_int.
Qed.

Lemma member_object (f l : nat) acc (k k' r : string) :
  parse_members (S (S f)) acc
    (encode_string k ++ ": " ++ "{" ++ newline_indent l ++ encode_string k' ++ r)
  = match parse_members f [] (encode_string k' ++ r) with
    | Some (v, r3) => member_tail (parse_members (S f)) (dict_set k v acc) r3
    | None => None
    end.
Proof.
  rewrite parse_members_member by reflexivity.
  now rewrite parse_value_object.
Qed.

Lemma member_tail_comma next d (l : nat) (k r : string) :
  member_tail next d ("," ++ newline_indent l ++ encode_string k ++ r)
  = next d (encode_string k ++ r).
Proof.
  unfold member_tail.
  change (skip_ws ("," ++ newline_indent l ++ encode_string k ++ r))
    with (String "," (newline_indent l ++ encode_string k ++ r)).
  cbv iota. now rewrite skip_ws_newline_indent, skip_ws_encode_string.
Qed.

Lemma member_tail_close next d (l : nat) (r : string) :
  member_tail next d (newline_indent l ++ "}" ++ r) = Some (JObject d, r).
Proof.
  unfold member_tail. rewrite skip_ws_newline_indent. reflexivity.
Qed.

(** *** The document of a state *)

(** The text of a snapshot, piece by piece. *)
Lemma document_text (s : State) (r : string) :
  document s ++ r
  = "{" ++ newline_indent 1 ++ encode_string "status" ++ ": "
    ++ encode_string (RunStatus_value (status s)) ++ ","
    ++ newline_indent 1 ++ encode_string "iteration" ++ ": "
    ++ "{" ++ newline_indent 2 ++ encode_string "current" ++ ": "
    ++ str_of_Z (current (iteration s)) ++ ","
    ++ newline_indent 2 ++ encode_string "specified" ++ ": "
    ++ str_of_Z (specified (iteration s))
    ++ newline_indent 1 ++ "}" ++ ","
    ++ newline_indent 1 ++ encode_string "code_metrics" ++ ": "
    ++ "{" ++ newline_indent 2 ++ encode_string "total_lines" ++ ": "
    ++ str_of_Z (total_lines (code_metrics s)) ++ ","
    ++ newline_indent 2 ++ encode_string "file_count" ++ ": "
    ++ str_of_Z (file_count (code_metrics s))
    ++ newline_indent 1 ++ "}" ++ ","
    ++ newline_indent 1 ++ encode_string "current_task" ++ ": "
    ++ "{" ++ newline_indent 2 ++ encode_string "description" ++ ": "
    ++ encode_string (description (current_task s)) ++ ","
    ++ newline_indent 2 ++ encode_string "status" ++ ": "
    ++ encode_string (TaskStatus_value (task_status (current_task s)))
    ++ newline_indent 1 ++ "}" ++ ","
    ++ newline_indent 1 ++ encode_string "last_output" ++ ": "
    ++ encode_string (last_output s) ++ ","
    ++ newline_indent 1 ++ encode_string "timestamp" ++ ": "
    ++ encode_string (isoformat (timestamp s))
    ++ newline_indent 0 ++ "}" ++ r.
Proof.
  unfold document, dumps, model_dump. cbn [encode].
  repeat rewrite append_assoc. reflexivity.
Qed.

(** Reading the text of a snapshot gives its members back, whatever
    follows and with fuel to spare. *)
Lemma parse_document (s : State) (f : nat) (r : string) :
  parse_value (10 + f) (document s ++ r) = Some (model_dump s, r).
Proof.
  rewrite document_text. cbn [Nat.add].
  rewrite parse_value_object.
  rewrite member_string, member_tail_comma.
  rewrite member_object.
  rewrite member_int by reflexivity. rewrite member_tail_comma.
  rewrite member_int by reflexivity. rewrite member_tail_close.
  rewrite member_tail_comma.
  rewrite member_object.
  rewrite member_int by reflexivity. rewrite member_tail_comma.
  rewrite member_int by reflexivity. rewrite member_tail_close.
  rewrite member_tail_comma.
  rewrite member_object.
  rewrite member_string, member_tail_comma.
  rewrite member_string, member_tail_close.
  rewrite member_tail_comma.
  rewrite member_string, member_tail_comma.
  rewrite member_string, member_tail_close.
  reflexivity.
Qed.

Lemma document_long (s : State) : (10 <= String.length (document s))%nat.
Proof.
  rewrite <- (append_nil_r (document s)), document_text.
  rewrite !length_append.
  change (String.length (encode_string "status")) with 8%nat.
  cbn [String.length]. lia.
Qed.

(** [json.load] on a written snapshot. *)
Lemma loads_document (s : State) : loads (document s) = Some (model_dump s).
Proof.
  unfold loads.
  assert (Hws : skip_ws (document s) = document s).
  { rewrite <- (append_nil_r (document s)), document_text. reflexivity. }
  rewrite Hws.
  pose proof (document_long s) as Hlen.
  replace (S (String.length (document s)))
    with (10 + (String.length (document s) - 9))%nat by lia.
  rewrite <- (append_nil_r (document s)) at 2.
  rewrite parse_document. reflexivity.
Qed.

(** *** Time stamps *)

Lemma repeat_zero_digits (n : nat) :
  is_digits (repeat_str "0" n) = true
  /\ digits_value 0 (repeat_str "0" n) = 0
  /\ String.length (repeat_str "0" n) = n.
Proof.
  induction n as [|n (H1 & H2 & H3)]; [repeat split |].
  cbn [repeat_str]. change ("0" ++ repeat_str "0" n) with (String "0" (repeat_str "0" n)).
  cbn [is_digits digits_value String.length].
  change (digit_val "0") with (Some 0). cbn [Z.mul Z.add]. auto.
Qed.

(** A zero-padded field of [w] digits is read back by [take_digits]. *)
Lemma take_digits_pad0 (w : nat) (z : Z) (r : string) :
  (1 <= w)%nat -> 0 <= z < 10 ^ Z.of_nat w ->
  take_digits w 0 (pad0 w z ++ r) = Some (z, r).
Proof.
  intros Hw Hz. unfold pad0, str_of_Z.
  destruct (Z.ltb_spec z 0) as [|_]; [lia |].
  destruct (digits_value_str_of_nonneg z (proj1 Hz)) as (Hd & Hv).
  assert (Hlen : (String.length (str_of_nonneg z) <= w)%nat).
  { unfold str_of_nonneg. now apply length_dec_digits. }
  destruct (repeat_zero_digits (w - String.length (str_of_nonneg z)))
    as (Z1 & Z2 & Z3).
  set (p := repeat_str "0" (w - String.length (str_of_nonneg z)) ++ str_of_nonneg z).
  assert (Hp : is_digits p = true) by now apply is_digits_app.
  assert (Hpl : w = (String.length p + 0)%nat).
  { unfold p. rewrite length_append, Z3. lia. }
  rewrite Hpl at 1. rewrite take_digits_app by assumption.
  unfold p. rewrite digits_value_app, Z2, Hv by assumption. reflexivity.
Qed.

Lemma isoformat_text (d : datetime) :
  isoformat d
  = pad0 4 (year d) ++ String "-" (pad0 2 (month d) ++ String "-"
      (pad0 2 (day d) ++ String "T" (pad0 2 (hour d) ++ String ":"
        (pad0 2 (minute d) ++ String ":" (pad0 2 (second d)
           ++ (if microsecond d =? 0 then ""
               else String "." (pad0 6 (microsecond d) ++ ""))))))).
Proof.
  unfold isoformat, date_part. repeat rewrite append_assoc.
  destruct (microsecond d =? 0); [reflexivity |].
  now rewrite append_nil_r.
Qed.

Lemma expect_head (c : ascii) (r : string) : expect c (String c r) = Some r.
Proof. cbn. now rewrite Ascii.eqb_refl. Qed.

Lemma valid_bounds (d : datetime) :
  valid d = true ->
  0 <= year d < 10 ^ Z.of_nat 4 /\ 0 <= month d < 10 ^ Z.of_nat 2 /\
  0 <= day d < 10 ^ Z.of_nat 2 /\ 0 <= hour d < 10 ^ Z.of_nat 2 /\
  0 <= minute d < 10 ^ Z.of_nat 2 /\ 0 <= second d < 10 ^ Z.of_nat 2 /\
  0 <= microsecond d < 10 ^ Z.of_nat 6.
Proof.
  unfold valid. intros H.
  repeat (apply andb_prop in H; destruct H as [H ?]).
  repeat match goal with
         | h : (_ <=? _) = true |- _ => apply Z.leb_le in h
         end.
  assert (day d <= 31).
  { unfold days_in_month in *.
    repeat match goal with
           | h : context [if ?b then _ else _] |- _ => destruct b
           end; lia. }
  cbn. lia.
Qed.

(** A valid time stamp is read back from its ISO form. *)
Lemma fromisoformat_isoformat (d : datetime) :
  valid d = true -> fromisoformat (isoformat d) = Some d.
Proof.
  intros Hv.
  destruct (valid_bounds d Hv) as (Hy & Hmo & Hd & Hh & Hmi & Hs & Hus).
  unfold fromisoformat. rewrite isoformat_text.
  rewrite take_digits_pad0, expect_head by (lia || assumption).
  rewrite take_digits_pad0, expect_head by (lia || assumption).
  rewrite take_digits_pad0, expect_head by (lia || assumption).
  rewrite take_digits_pad0, expect_head by (lia || assumption).
  rewrite take_digits_pad0, expect_head by (lia || assumption).
  rewrite take_digits_pad0 by (lia || assumption).
  destruct d as [y mo dd h mi se us]. cbn [year month day hour minute second microsecond] in *.
  destruct (Z.eqb_spec us 0) as [->|Hnz].
  - now rewrite Hv.
  - rewrite take_digits_pad0 by (lia || assumption). now rewrite Hv.
Qed.

(** *** Validation and the round trip *)

Lemma validate_model_dump (now : datetime) (s : State) :
  valid (timestamp s) = true ->
  exists d, model_dump s = JObject d /\ validate_State now d = Some s.
Proof.
  intros Hv. eexists. split; [reflexivity |].
  destruct s as [st [c sp] [tl fc] [ds ts] lo t].
  cbn [timestamp] in Hv.
  unfold validate_State, required, defaulted.
  cbn -[fromisoformat isoformat validate_RunStatus validate_TaskStatus].
  rewrite (fromisoformat_isoformat t Hv).
  destruct st, ts; reflexivity.
Qed.

Lemma save_content (s : State) (old : file) : save s old = Some (document s).
Proof. reflexivity. Qed.

(** Whatever was in the file before, a saved state with a valid time stamp
    is loaded back as it was. *)
Lemma load_save (now : datetime) (s : State) (old : file) :
  valid (timestamp s) = true ->
  load now (save s old) = Loaded (Some s).
Proof.
  intros Hv. rewrite save_content. unfold load. rewrite loads_document.
  destruct (validate_model_dump now s Hv) as (d & -> & ->). reflexivity.
Qed.

(** *** The file while [save] runs *)

Lemma concat_cons (x : string) (r : list string) :
  String.concat "" (x :: r) = x ++ String.concat "" r.
Proof.
  destruct r as [|y r]; cbn [String.concat]; [now rewrite append_nil_r | reflexivity].
Qed.

(** After the truncation, the file holds what was flushed so far: a prefix
    of the whole text. *)
Lemma flushes_prefix (chunks : list string) :
  forall (acc : string) (f : file),
    In f (flushes chunks (Some acc)) ->
    exists p q, f = Some (acc ++ p) /\ String.concat "" chunks = p ++ q.
Proof.
  induction chunks as [|c r IH]; intros acc f H; [destruct H |].
  cbn [flushes write] in H. destruct H as [<- | H].
  - exists c, (String.concat "" r). split; [reflexivity | apply concat_cons].
  - destruct (IH _ _ H) as (p & q & -> & E).
    exists (c ++ p), q. rewrite concat_cons, E, !append_assoc. auto.
Qed.

Lemma last_cons_default {A : Type} (l : list A) :
  forall x d, last (x :: l) d = last l x.
Proof.
  induction l as [|y l IH]; intros x d; [reflexivity |].
  change (last (x :: y :: l) d) with (last (y :: l) d).
  now rewrite !IH.
Qed.

Lemma flushes_last (chunks : list string) :
  forall (acc : string),
    last (flushes chunks (Some acc)) (Some acc)
    = Some (acc ++ String.concat "" chunks).
Proof.
  induction chunks as [|c r IH]; intros acc.
  - cbn. now rewrite append_nil_r.
  - cbn [flushes write]. rewrite last_cons_default, IH, concat_cons.
    now rewrite append_assoc.
Qed.

End SnapshotFacts.

(** * Further properties of the loop *)

Module LoopFacts.
Import Text Datetime State Feedback Runner RunnerFacts.
Local Open Scope list_scope.

Section Pass.
Variables (cfg : Config) (env : Env).

(** A pass that finds the stop file: the RUNNING snapshot is written, the
    banner printed, the file removed, and nothing else happens. *)
Lemma body_stop_file i self w :
  checkpoint_interval cfg <> 0 ->
  stop_txt w = true ->
  iteration_body cfg env i self w
  = Stop (Returned 0) self
      (set_stop false (emit StopFileDetected (started cfg env i w))).
Proof.
  intros Hci Hs. unfold iteration_body.
  destruct (Z.eqb_spec (checkpoint_interval cfg) 0) as [|_]; [contradiction |].
  fold (started cfg env i w). unfold _check_stop_file.
  replace (stop_txt (started cfg env i w)) with true by (symmetry; exact Hs).
  reflexivity.
Qed.

Lemma body_zero_interval i self w :
  checkpoint_interval cfg = 0 ->
  iteration_body cfg env i self w = Stop (Raised ZeroDivisionError) self w.
Proof.
  intros Hci. unfold iteration_body. now rewrite Hci.
Qed.

Lemma agent_reached_spec w :
  agent_reached cfg w = true <-> checkpoint_interval cfg <> 0 /\ stop_txt w = false.
Proof.
  unfold agent_reached. rewrite andb_true_iff, !negb_true_iff, Z.eqb_neq. tauto.
Qed.

(** The agent is started once in a pass that reaches it and not at all in
    the others. *)
Lemma pass_invocations i self w :
  invocations (console (step_world (iteration_body cfg env i self w)))
  = invocations (console w) ++ (if agent_reached cfg w then [i] else []).
Proof.
  destruct (agent_reached cfg w) eqn:Hr.
  - apply agent_reached_spec in Hr. destruct Hr as (Hci' & Hstop').
    pose proof (agent_done_console cfg env i w) as (Hdone & _).
    pass_cases cfg env i self w; try contradiction; try congruence; rewrite Hb.
    + cbn [step_world emit console]. rewrite invocations_app, Hdone. cbn.
      now rewrite app_nil_r.
    + subst c. destruct Hw as (Hw1 & _). cbn [negb].
      destruct (_ mod _ =? 0); cbn [step_world _write_state now set_state tick
        console emit]; rewrite ?invocations_app, Hw1, Hdone; cbn;
        now rewrite ?app_nil_r.
    + injection Hr as -> -> ->. cbn [negb step_world _write_state now set_state
        tick console emit]. rewrite invocations_app, Hdone. cbn.
      now rewrite app_nil_r.
    + injection Hr as -> -> ->. cbn [negb step_world _write_state now set_state
        tick console emit]. rewrite invocations_app, Hdone. cbn.
      now rewrite app_nil_r.
    + injection Hr as -> -> ->. cbn [negb].
      destruct (_ mod _ =? 0); cbn [step_world _write_state now set_state tick
        console emit]; rewrite ?invocations_app, Hdone; cbn;
        now rewrite ?app_nil_r.
    + injection Hr as -> -> ->. cbn [negb step_world _write_state now set_state
        tick console emit]. rewrite invocations_app, Hdone. cbn.
      now rewrite app_nil_r.
  - rewrite app_nil_r.
    destruct (Z.eq_dec (checkpoint_interval cfg) 0) as [Hci|Hci].
    + now rewrite body_zero_interval.
    + destruct (stop_txt w) eqn:Hs.
      * rewrite body_stop_file by assumption.
        cbn [step_world set_stop emit console started _write_state now set_state tick].
        rewrite invocations_app. cbn. now rewrite app_nil_r.
      * exfalso. unfold agent_reached in Hr. rewrite Hs in Hr.
        apply Z.eqb_neq in Hci. rewrite Hci in Hr. discriminate.
Qed.

(** Only a pass that reaches the agent lets the loop go on. *)
Lemma continue_reached i self w self' w' :
  iteration_body cfg env i self w = Continue self' w' ->
  agent_reached cfg w = true.
Proof.
  intros Hb. apply agent_reached_spec.
  destruct (Z.eq_dec (checkpoint_interval cfg) 0) as [Hci|Hci].
  { rewrite body_zero_interval in Hb by assumption. discriminate. }
  destruct (stop_txt w) eqn:Hs; [| auto].
  rewrite body_stop_file in Hb by assumption. discriminate.
Qed.

(** The exit codes a pass can stop with. *)
Lemma pass_codes i self w c self' w' :
  iteration_body cfg env i self w = Stop (Returned c) self' w' ->
  c = 0 \/ c = 1 \/ c = 2 \/
  (c = exit_code_of env i /\ c <> 0 /\ c <> 1 /\ c <> 99).
Proof.
  intros Hstop.
  pass_cases cfg env i self w; rewrite Hb in Hstop.
  - rewrite body_zero_interval in Hb by assumption. congruence.
  - rewrite body_stop_file in Hb by assumption. injection Hb as <- _.
    injection Hstop as <- _ _. lia.
  - injection Hstop as <- _ _. lia.
  - subst c0. cbn [negb] in Hstop. destruct (_ mod _ =? 0); [| discriminate].
    injection Hstop as <- _ _. lia.
  - injection Hr as -> -> ->. cbn [negb] in Hstop. rewrite E99 in Hstop.
    injection Hstop as <- _ _. lia.
  - injection Hr as -> -> ->. cbn [negb] in Hstop. rewrite E1 in Hstop.
    injection Hstop as <- _ _. lia.
  - injection Hr as -> -> ->. cbn [negb] in Hstop.
    destruct (_ mod _ =? 0); [| discriminate]. injection Hstop as <- _ _. lia.
  - injection Hr as -> -> ->. cbn [negb] in Hstop.
    destruct (Z.eqb_spec (exit_code_of env i) 0); [contradiction |].
    destruct (Z.eqb_spec (exit_code_of env i) 99); [contradiction |].
    cbn [orb] in Hstop. injection Hstop as <- _ _. lia.
Qed.

Lemma pass_raises i self w e self' w' :
  iteration_body cfg env i self w = Stop (Raised e) self' w' ->
  checkpoint_interval cfg = 0 /\ self' = self /\ w' = w.
Proof.
  intros Hstop.
  destruct (Z.eq_dec (checkpoint_interval cfg) 0) as [Hci|Hci].
  { rewrite body_zero_interval in Hstop by assumption.
    injection Hstop as _ <- <-. auto. }
  exfalso.
  pass_cases cfg env i self w; try contradiction; rewrite Hb in Hstop.
  - rewrite body_stop_file in Hb by assumption. congruence.
  - discriminate.
  - subst c. cbn [negb] in Hstop. destruct (_ mod _ =? 0); discriminate.
  - injection Hr as -> -> ->. discriminate.
  - injection Hr as -> -> ->. discriminate.
  - injection Hr as -> -> ->. cbn [negb] in Hstop.
    destruct (_ mod _ =? 0); discriminate.
  - injection Hr as -> -> ->. discriminate.
Qed.

(** What a pass does to the no-progress counter: one more when the agent
    ran and left the marker where it was, 0 when the agent ran and the marker
    moved, nothing when the pass ends before the agent. *)
Lemma pass_no_progress i self w :
  no_progress_count (step_self (iteration_body cfg env i self w))
  = if agent_reached cfg w
    then if marker_unchanged env i then no_progress_count self + 1 else 0
    else no_progress_count self.
Proof.
  destruct (agent_reached cfg w) eqn:Hr.
  - apply agent_reached_spec in Hr. destruct Hr as (Hci & Hs).
    now apply body_no_progress.
  - destruct (Z.eq_dec (checkpoint_interval cfg) 0) as [Hci|Hci].
    + now rewrite body_zero_interval.
    + destruct (stop_txt w) eqn:Hs.
      * now rewrite body_stop_file.
      * assert (H : agent_reached cfg w = true)
          by (apply agent_reached_spec; auto).
        congruence.
Qed.

End Pass.

Section Run.
Variables (cfg : Config) (env : Env) (w0 : World).

Lemma iterations_next (i : Z) :
  0 <= i -> iterations (Z.to_nat (i + 1)) = iterations (Z.to_nat i) ++ [i + 1].
Proof.
  intros Hi. rewrite Z2Nat.inj_add by lia. rewrite Nat.add_1_r, iterations_succ.
  now rewrite Z2Nat.id.
Qed.

(** At every head of the loop the agent has run once in each pass made, and
    the counter is within the limit. *)
Lemma head_invocations i self w :
  at_loop_head cfg env w0 i self w ->
  i <= Z.max 0 (max_iterations cfg) /\
  invocations (console w) = invocations (console w0) ++ iterations (Z.to_nat i).
Proof.
  induction 1 as [| i self w self' w' Hh (IH1 & IH2) Hlt Hb].
  - split; [lia |]. cbn. now rewrite app_nil_r.
  - pose proof (head_nonneg cfg env w0 i self w Hh) as Hi.
    split; [lia |].
    pose proof (pass_invocations cfg env (i + 1) self
                  (apply_actions (before env (i + 1)) w)) as Hp.
    rewrite Hb, (continue_reached _ _ _ _ _ _ _ Hb) in Hp. cbn [step_world] in Hp.
    rewrite Hp, console_apply_actions, IH2, iterations_next by assumption.
    now rewrite app_assoc.
Qed.

Lemma run_invocations :
  exists o self' w' (n : nat),
    run cfg env w0 = Some (o, self', w') /\
    invocations (console w') = invocations (console w0) ++ iterations n /\
    Z.of_nat n <= Z.max 0 (max_iterations cfg).
Proof.
  destruct (product_md w0) eqn:Hp.
  2:{ exists (Returned 1), init_self, w0, O. unfold run, _validate_environment.
      rewrite Hp. cbn. rewrite app_nil_r. repeat split. lia. }
  destruct (run_returns cfg env w0) as ([[o self'] w'] & Hrun).
  exists o, self', w'.
  destruct (run_ends_at_head cfg env w0 _ Hp Hrun)
    as (i & self & w & Hh & [(Hge & Hr) | (Hlt & o1 & s1 & w1 & Hb & Hr)]);
    destruct (head_invocations i self w Hh) as (Hi & Hinv);
    pose proof (head_nonneg cfg env w0 i self w Hh) as Hi0.
  - exists (Z.to_nat i). split; [assumption |].
    injection Hr as -> -> ->.
    cbn [_write_state now set_state tick console emit].
    rewrite invocations_app, Hinv. cbn. rewrite app_nil_r. split; [reflexivity | lia].
  - injection Hr as -> -> ->.
    pose proof (pass_invocations cfg env (i + 1) self
                  (apply_actions (before env (i + 1)) w)) as Hp'.
    rewrite Hb in Hp'. cbn [step_world] in Hp'.
    rewrite console_apply_actions, Hinv in Hp'.
    destruct (agent_reached cfg _).
    + exists (Z.to_nat (i + 1)). split; [assumption |].
      rewrite Hp', iterations_next, app_assoc by assumption. split; [reflexivity | lia].
    + exists (Z.to_nat i). split; [assumption |].
      rewrite Hp', app_nil_r. split; [reflexivity | lia].
Qed.

(** [run] raises only on a zero checkpoint interval, in its first pass. *)
Lemma run_raises_iff :
  (product_md w0 = true /\ 0 < max_iterations cfg /\ checkpoint_interval cfg = 0 ->
   run cfg env w0
   = Some (Raised ZeroDivisionError, init_self, apply_actions (before env 1) w0))
  /\
  (forall e self' w',
     run cfg env w0 = Some (Raised e, self', w') ->
     product_md w0 = true /\ 0 < max_iterations cfg /\ checkpoint_interval cfg = 0).
Proof.
  split.
  - intros (Hp & Hmax & Hci).
    apply (run_stops cfg env w0 0 init_self w0); [assumption | constructor | lia |].
    now apply body_zero_interval.
  - intros e self' w' Hrun.
    destruct (product_md w0) eqn:Hp.
    2:{ unfold run, _validate_environment in Hrun. rewrite Hp in Hrun. discriminate. }
    destruct (run_ends_at_head cfg env w0 _ Hp Hrun)
      as (i & self & w & Hh & [(Hge & Hr) | (Hlt & o1 & s1 & w1 & Hb & Hr)]).
    + discriminate.
    + injection Hr as <- <- <-.
      apply pass_raises in Hb. destruct Hb as (Hci & _).
      pose proof (head_nonneg cfg env w0 i self w Hh). repeat split; (lia || assumption).
Qed.

(** The codes [run] returns. *)
Lemma run_codes c self' w' :
  run cfg env w0 = Some (Returned c, self', w') ->
  c = 0 \/ c = 1 \/ c = 2 \/
  exists i, 1 <= i <= max_iterations cfg /\
            c = exit_code_of env i /\ c <> 0 /\ c <> 1 /\ c <> 99.
Proof.
  intros Hrun.
  destruct (product_md w0) eqn:Hp.
  2:{ unfold run, _validate_environment in Hrun. rewrite Hp in Hrun.
      injection Hrun as <- _ _. auto. }
  destruct (run_ends_at_head cfg env w0 _ Hp Hrun)
    as (i & self & w & Hh & [(Hge & Hr) | (Hlt & o1 & s1 & w1 & Hb & Hr)]).
  - injection Hr as <- _ _. auto.
  - injection Hr as <- <- <-.
    pose proof (head_nonneg cfg env w0 i self w Hh).
    destruct (pass_codes cfg env _ _ _ _ _ _ Hb) as [-> | [-> | [-> | Hu]]]; auto.
    right; right; right. exists (i + 1). split; [lia | exact Hu].
Qed.

End Run.

Section Counting.
Variables (cfg : Config) (env : Env) (w0 : World).

(** A pass made from a head of the loop belongs to the run: when it goes on,
    the next head is the one it leaves, and when it stops, the run ends as
    the pass does. *)
Lemma pass_joins_run i self w :
  product_md w0 = true ->
  at_loop_head cfg env w0 i self w ->
  i < max_iterations cfg ->
  match iteration_body cfg env (i + 1) self (apply_actions (before env (i + 1)) w) with
  | Continue self' w' => at_loop_head cfg env w0 (i + 1) self' w'
  | Stop o self' w' => run cfg env w0 = Some (o, self', w')
  end.
Proof.
  intros Hp Hh Hlt.
  destruct (iteration_body cfg env (i + 1) self _) as [self' w' | o self' w'] eqn:Hb.
  - eapply head_next; eassumption.
  - eapply run_stops; eassumption.
Qed.

Hypothesis unchanged : forall i, marker_unchanged env i = true.
Hypothesis limit : 1 <= max_no_progress cfg.

(** With a marker that never moves and a limit of at least 1, the counter at
    a head of the loop is the number of passes made and below the limit. *)
Lemma stalled_head_counts i self w :
  at_loop_head cfg env w0 i self w ->
  no_progress_count self = i /\ i < max_no_progress cfg /\
  invocations (console w) = invocations (console w0) ++ iterations (Z.to_nat i).
Proof.
  intros Hh.
  destruct (stalled_head cfg env w0 unchanged i self w Hh)
    as (k & -> & Hnp & Hinv & Hk).
  rewrite Nat2Z.id. split; [assumption |]. split; [lia | assumption].
Qed.

(** The pass after such a head leaves the counter at most at the limit, and
    the pass that takes it to the limit ends the run on the circuit
    breaker, the agent having run once in each pass so far. *)
Lemma stalled_pass_limit i self w :
  product_md w0 = true ->
  at_loop_head cfg env w0 i self w ->
  i < max_iterations cfg ->
  let pass :=
    iteration_body cfg env (i + 1) self (apply_actions (before env (i + 1)) w) in
  let n' := no_progress_count (step_self pass) in
  n' <= max_no_progress cfg /\
  (n' = max_no_progress cfg ->
   exists w',
     run cfg env w0 = Some (Returned 1, step_self pass, w') /\
     (exists l, console w' = l ++ [CircuitBreakerTriggered]) /\
     invocations (console w')
       = invocations (console w0) ++ iterations (Z.to_nat n')).
Proof.
  intros Hp Hh Hlt. cbv zeta.
  destruct (stalled_head cfg env w0 unchanged i self w Hh)
    as (k & -> & Hnp & Hinv & Hk).
  pose proof (stalled_pass cfg env (invocations (console w0)) k self
                (apply_actions (before env (Z.of_nat k + 1)) w)
                (unchanged _) Hnp) as Hpass.
  rewrite console_apply_actions in Hpass. specialize (Hpass Hinv Hk).
  destruct (iteration_body cfg env (Z.of_nat k + 1) self _)
    as [self' w' | o self' w'] eqn:Hb; cbn [step_self].
  - destruct Hpass as (H1 & _ & H3). split; [lia |]. intros Heq. lia.
  - cbv zeta in Hpass. destruct Hpass as (H1 & H2 & _ & H4).
    split; [lia |]. intros Heq.
    destruct (H4 ltac:(lia) ltac:(lia)) as (-> & Hl).
    exists w'. split; [| split; assumption].
    eapply run_stops; eassumption.
Qed.

End Counting.

Section Snapshots.
Variables (cfg : Config) (env : Env) (w0 : World).

(** What [_write_state] leaves in the snapshot file. *)
Lemma write_state_document st i d ts lo w :
  exists s : State,
    state_json (_write_state cfg env st i d ts lo w) = Some (document s) /\
    status s = st /\ current (State.iteration s) = i /\
    specified (State.iteration s) = max_iterations cfg /\
    task_status (current_task s) = ts /\ last_output s = lo /\
    timestamp s = clock env (ticks w).
Proof.
  unfold _write_state, now, State.save, open_w, write.
  cbn [state_json set_state tick append].
  eexists. split; [reflexivity |]. cbn. auto 7.
Qed.

(** A pass with a non-zero interval leaves a snapshot of its own iteration
    in the file. *)
Lemma pass_snapshot i self w :
  checkpoint_interval cfg <> 0 ->
  exists s : State,
    state_json (step_world (iteration_body cfg env i self w)) = Some (document s) /\
    current (State.iteration s) = i /\
    specified (State.iteration s) = max_iterations cfg /\
    exists n, timestamp s = clock env n.
Proof.
  intros Hci'.
  assert (Hstart : exists s : State,
             state_json (started cfg env i w) = Some (document s) /\
             current (State.iteration s) = i /\
             specified (State.iteration s) = max_iterations cfg /\
             exists n, timestamp s = clock env n).
  { unfold started.
    destruct (write_state_document RUNNING i (_get_current_task_description cfg w)
                IN_PROGRESS ("Iteration " ++ str_of_Z i ++ " starting...")%string w)
      as (s & H1 & _ & H3 & H4 & _ & _ & H7).
    exists s. eauto. }
  assert (Hwrite : forall st d ts lo w1,
             exists s : State,
               state_json (_write_state cfg env st i d ts lo w1) = Some (document s) /\
               current (State.iteration s) = i /\
               specified (State.iteration s) = max_iterations cfg /\
               exists n, timestamp s = clock env n).
  { intros st d ts lo w1.
    destruct (write_state_document st i d ts lo w1)
      as (s & H1 & _ & H3 & H4 & _ & _ & H7).
    exists s. eauto. }
  pass_cases cfg env i self w; try contradiction; rewrite Hb; cbn [step_world negb].
  - rewrite body_stop_file in Hb by assumption. injection Hb as _ <-.
    exact Hstart.
  - change (state_json (emit CircuitBreakerTriggered (agent_done cfg env i w)))
      with (state_json (agent_done cfg env i w)).
    now rewrite agent_done_state_json.
  - subst c. destruct Hw as (_ & _ & _ & Hw4). cbn [negb].
    destruct (_ mod _ =? 0); cbn [step_world]; [apply Hwrite |].
    now rewrite Hw4, agent_done_state_json.
  - injection Hr as -> -> ->. apply Hwrite.
  - injection Hr as -> -> ->. apply Hwrite.
  - injection Hr as -> -> ->. cbn [negb].
    destruct (_ mod _ =? 0); cbn [step_world]; [apply Hwrite |].
    now rewrite agent_done_state_json.
  - injection Hr as -> -> ->. apply Hwrite.
Qed.

Lemma head_snapshot i self w :
  at_loop_head cfg env w0 i self w ->
  state_json w = state_json w0 \/
  exists s : State,
    state_json w = Some (document s) /\
    current (State.iteration s) <= specified (State.iteration s) /\
    specified (State.iteration s) = max_iterations cfg /\
    exists n, timestamp s = clock env n.
Proof.
  induction 1 as [| i self w self' w' Hh IH Hlt Hb]; [now left |].
  right.
  destruct (Z.eq_dec (checkpoint_interval cfg) 0) as [Hci|Hci].
  { rewrite body_zero_interval in Hb by assumption. discriminate. }
  destruct (pass_snapshot (i + 1) self (apply_actions (before env (i + 1)) w) Hci)
    as (s & H1 & H2 & H3 & H4).
  rewrite Hb in H1. cbn [step_world] in H1.
  exists s. split; [assumption |]. split; [lia |]. split; assumption.
Qed.

(** Whatever the run does, the snapshot file is either untouched or holds a
    snapshot whose iteration number does not pass the limit it states. *)
Lemma run_snapshot :
  exists o self' w',
    run cfg env w0 = Some (o, self', w') /\
    (state_json w' = state_json w0 \/
     exists s : State,
       state_json w' = Some (document s) /\
       current (State.iteration s) <= specified (State.iteration s) /\
       specified (State.iteration s) = max_iterations cfg /\
       exists n, timestamp s = clock env n).
Proof.
  destruct (product_md w0) eqn:Hp.
  2:{ exists (Returned 1), init_self, w0. unfold run, _validate_environment.
      rewrite Hp. auto. }
  destruct (run_returns cfg env w0) as ([[o self'] w'] & Hrun).
  exists o, self', w'. split; [assumption |].
  destruct (run_ends_at_head cfg env w0 _ Hp Hrun)
    as (i & self & w & Hh & [(Hge & Hr) | (Hlt & o1 & s1 & w1 & Hb & Hr)]).
  - injection Hr as -> -> ->. right.
    destruct (write_state_document STOPPED (max_iterations cfg)
                "Max iterations reached" PENDING
                "Maximum iterations reached - human review required"
                (emit MaxIterationsReached w))
      as (s & H1 & _ & H3 & H4 & _ & _ & H7).
    exists s. split; [assumption |]. split; [lia |]. split; [assumption |].
    eauto.
  - injection Hr as -> -> ->.
    destruct (Z.eq_dec (checkpoint_interval cfg) 0) as [Hci|Hci].
    + rewrite body_zero_interval in Hb by assumption. injection Hb as _ _ <-.
      rewrite state_json_apply_actions. exact (head_snapshot i self w Hh).
    + right.
      destruct (pass_snapshot (i + 1) self (apply_actions (before env (i + 1)) w) Hci)
        as (s & H1 & H2 & H3 & H4).
      rewrite Hb in H1. cbn [step_world] in H1.
      exists s. split; [assumption |]. split; [lia |]. split; assumption.
Qed.

End Snapshots.

Section Banner.
Variables (cfg : Config) (env : Env).

(** The exit-code policy prints the escalation banner only in its
    escalation branch. *)
Lemma handle_exit_code_escalation ec i cb ca self w :
  let w3 := snd (_handle_exit_code cfg env ec i cb ca self w) in
  In EscalationRequired (console w3) ->
  In EscalationRequired (console w) \/
  (ec = 1 /\ max_consecutive_failures cfg <= consecutive_failures self + 1).
Proof.
  unfold _handle_exit_code.
  destruct (Z.eqb_spec ec 0).
  { destruct (negb (commit_eqb cb ca) && has_pending_feedback (feedback w));
      [| cbn; auto].
    unfold now.
    destruct (archive_feedback _ _) as [[name|] st];
      cbn [snd emit console set_feedback tick]; [| auto].
    intros H. apply in_app_or in H. destruct H as [H | [H | []]]; [auto | discriminate]. }
  destruct (Z.eqb_spec ec 99).
  { cbn [snd emit console]. intros H. apply in_app_or in H.
    destruct H as [H | [H | []]]; [auto | discriminate]. }
  destruct (Z.eqb_spec ec 1) as [->|].
  { cbn [consecutive_failures].
    destruct (Z.geb_spec (consecutive_failures self + 1) (max_consecutive_failures cfg));
      cbn [snd emit console]; [intros _; right; split; [reflexivity | lia] | auto]. }
  cbn [snd emit console]. intros H. apply in_app_or in H.
  destruct H as [H | [H | []]]; [auto | discriminate].
Qed.

Lemma agent_done_escalation i w :
  In EscalationRequired (console (agent_done cfg env i w)) ->
  In EscalationRequired (console w).
Proof.
  unfold agent_done, _run_codex.
  destruct (launch env i); cbn [snd emit console];
    rewrite ?console_apply_actions; cbn [emit console]; intros H;
    repeat (apply in_app_or in H; destruct H as [H | [H | []]]; try discriminate);
    try assumption.
Qed.

(** A pass prints the escalation banner only when the policy is reached with
    exit code 1 and the counter at the threshold. *)
Lemma pass_escalation i self w :
  In EscalationRequired (console (step_world (iteration_body cfg env i self w))) ->
  In EscalationRequired (console w) \/
  (policy_reached cfg env i self w = true /\ exit_code_of env i = 1 /\
   max_consecutive_failures cfg <= consecutive_failures self + 1).
Proof.
  pose proof (handle_exit_code_escalation (exit_code_of env i) i
                (_get_current_commit (rev_parse_before env i))
                (_get_current_commit (rev_parse_after env i))
                (progress_checked env i self) (agent_done cfg env i w)) as He.
  cbv zeta in He. rewrite progress_checked_failures in He.
  assert (Hreach : checkpoint_interval cfg <> 0 ->
                   negb (stop_txt w) && negb (breaker_opens cfg env i self) = true ->
                   policy_reached cfg env i self w = true).
  { intros H1 H2. unfold policy_reached.
    apply Z.eqb_neq in H1. now rewrite H1, <- andb_assoc. }
  pass_cases cfg env i self w; try specialize (Hreach Hci eq_refl).
  - rewrite body_zero_interval by assumption. cbn [step_world]. auto.
  - rewrite body_stop_file by assumption.
    cbn [step_world set_stop emit console started _write_state now set_state tick].
    intros H. apply in_app_or in H. destruct H as [H | [H | []]]; [auto | discriminate].
  - rewrite Hb. cbn [step_world emit console]. intros H.
    apply in_app_or in H. destruct H as [H | [H | []]]; [| discriminate].
    left. now apply (agent_done_escalation i w).
  - rewrite Hb. cbn [snd] in He. subst c. cbn [negb].
    destruct (_ mod _ =? 0);
      cbn [step_world _write_state now set_state tick console emit]; intros H.
    + apply in_app_or in H. destruct H as [H | [H | []]]; [| discriminate].
      destruct (He H) as [H' | (H1 & H2)];
        [left; now apply (agent_done_escalation i w) | right; auto].
    + destruct (He H) as [H' | (H1 & H2)];
        [left; now apply (agent_done_escalation i w) | right; auto].
  - rewrite Hb. injection Hr as -> -> ->. cbn [snd negb] in *.
    cbn [step_world _write_state now set_state tick console emit]. intros H.
    destruct (He H) as [H' | (H1 & H2)];
      [left; now apply (agent_done_escalation i w) | right; auto].
  - rewrite Hb. injection Hr as -> -> ->. cbn [negb].
    rewrite progress_checked_failures in Hge. intros _. right. auto.
  - rewrite Hb. injection Hr as -> -> ->. cbn [snd negb] in *.
    destruct (_ mod _ =? 0);
      cbn [step_world _write_state now set_state tick console emit]; intros H.
    + apply in_app_or in H. destruct H as [H | [H | []]]; [| discriminate].
      left. now apply (agent_done_escalation i w).
    + left. now apply (agent_done_escalation i w).
  - rewrite Hb. injection Hr as -> -> ->. cbn [snd negb] in *.
    cbn [step_world _write_state now set_state tick console emit]. intros H.
    destruct (He H) as [H' | (H1 & H2)];
      [left; now apply (agent_done_escalation i w) | right; auto].
Qed.

End Banner.

Section NoCommits.
Variables (cfg : Config) (env : Env) (w0 : World).
Hypothesis unchanged : forall i, marker_unchanged env i = true.
Hypothesis breaker_first : max_no_progress cfg <= max_consecutive_failures cfg.
Hypothesis threshold : 1 <= max_consecutive_failures cfg.
Hypothesis clean : ~ In EscalationRequired (console w0).

(** A pass of a run without commits, from counters with the failures not
    above the stalls: the policy is reached only with room below the limit,
    so the failure counter stays below the threshold and no banner is
    printed. *)
Lemma stalled_pass_failures i self w :
  0 <= consecutive_failures self <= no_progress_count self ->
  (no_progress_count self = 0 \/ no_progress_count self < max_no_progress cfg) ->
  ~ In EscalationRequired (console w) ->
  let pass := iteration_body cfg env i self w in
  0 <= consecutive_failures (step_self pass) /\
  consecutive_failures (step_self pass) < max_consecutive_failures cfg /\
  (agent_reached cfg w = true ->
   consecutive_failures (step_self pass) <= no_progress_count self + 1) /\
  ~ In EscalationRequired (console (step_world pass)).
Proof.
  intros Hcf Hnp Hclean pass.
  pose proof (body_failures cfg env i self w) as Hbf. fold pass in Hbf.
  assert (Hroom : policy_reached cfg env i self w = true ->
                  no_progress_count self + 1 < max_no_progress cfg).
  { unfold policy_reached. intros H. apply andb_prop in H. destruct H as (_ & H).
    apply negb_true_iff in H. now apply breaker_closed_below with (env := env) (i := i). }
  assert (Hlow : consecutive_failures (step_self pass) < max_consecutive_failures cfg
                 /\ 0 <= consecutive_failures (step_self pass)
                 /\ consecutive_failures (step_self pass) <= no_progress_count self + 1).
  { rewrite Hbf. destruct (policy_reached cfg env i self w).
    - specialize (Hroom eq_refl).
      destruct (exit_code_of env i =? 0); [lia |].
      destruct (exit_code_of env i =? 1); lia.
    - lia. }
  destruct Hlow as (H1 & H2 & H3).
  repeat split; try assumption; [auto |].
  intros H. destruct (pass_escalation cfg env i self w H) as [H' | (Hp & _ & Hge)];
    [contradiction |].
  specialize (Hroom Hp). lia.
Qed.

Lemma stalled_failures_head i self w :
  at_loop_head cfg env w0 i self w ->
  0 <= consecutive_failures self <= no_progress_count self /\
  (no_progress_count self = 0 \/ no_progress_count self < max_no_progress cfg) /\
  ~ In EscalationRequired (console w).
Proof.
  induction 1 as [| i self w self' w' Hh (IH1 & IH2 & IH3) Hlt Hb].
  - cbn. repeat split; (lia || auto).
  - pose proof (stalled_pass_failures (i + 1) self
                  (apply_actions (before env (i + 1)) w) IH1 IH2) as Hp.
    rewrite console_apply_actions in Hp. specialize (Hp IH3). cbv zeta in Hp.
    pose proof (continue_reached _ _ _ _ _ _ _ Hb) as Hr.
    pose proof (proj1 (agent_reached_spec cfg _) Hr) as (Hci & Hs).
    pose proof (body_no_progress cfg env (i + 1) self _ Hci Hs) as Hn.
    rewrite Hb in Hp, Hn. cbn [step_self step_world] in Hp, Hn.
    rewrite unchanged in Hn.
    destruct Hp as (P1 & P2 & P3 & P4). specialize (P3 Hr).
    destruct (stalled_head cfg env w0 unchanged _ _ _ (head_next _ _ _ _ _ _ _ _ Hh Hlt Hb))
      as (k & _ & Hk1 & _ & Hk2).
    repeat split; try assumption; lia.
Qed.

(** Without commits, and with the no-progress limit not above the failure
    threshold, the run never escalates. *)
Lemma stalled_run_never_escalates :
  exists o self' w',
    run cfg env w0 = Some (o, self', w') /\
    consecutive_failures self' < max_consecutive_failures cfg /\
    ~ In EscalationRequired (console w').
Proof.
  destruct (product_md w0) eqn:Hp.
  2:{ exists (Returned 1), init_self, w0. unfold run, _validate_environment.
      rewrite Hp. cbn. repeat split; (lia || auto). }
  destruct (run_returns cfg env w0) as ([[o self'] w'] & Hrun).
  exists o, self', w'. split; [assumption |].
  destruct (run_ends_at_head cfg env w0 _ Hp Hrun)
    as (i & self & w & Hh & [(Hge & Hr) | (Hlt & o1 & s1 & w1 & Hb & Hr)]);
    destruct (stalled_failures_head i self w Hh) as (H1 & H2 & H3).
  - injection Hr as -> -> ->. split; [lia |].
    cbn [_write_state now set_state tick console emit]. intros H.
    apply in_app_or in H. destruct H as [H | [H | []]]; [auto | discriminate].
  - injection Hr as -> -> ->.
    pose proof (stalled_pass_failures (i + 1) self
                  (apply_actions (before env (i + 1)) w) H1 H2) as Hpass.
    rewrite console_apply_actions in Hpass. specialize (Hpass H3). cbv zeta in Hpass.
    rewrite Hb in Hpass. cbn [step_self step_world] in Hpass.
    destruct Hpass as (_ & P2 & _ & P4). auto.
Qed.

End NoCommits.

Section Steady.
Variables (cfg : Config) (env : Env) (w0 : World) (N : Z).
Hypothesis interval_pos : 1 <= checkpoint_interval cfg.
Hypothesis steering_found : product_md w0 = true.
Hypothesis no_stop_file : stop_txt w0 = false.
Hypothesis within : N <= max_iterations cfg.
Hypothesis all_well :
  forall i, 1 <= i <= N ->
    launch env i = Some 0 /\ marker_unchanged env i = false /\
    no_stop_request env i = true.

(** A pass of a run that goes well: exit code 0, a new commit, no stop
    request. *)
Lemma steady_pass i self w :
  1 <= i <= N -> stop_txt w = false ->
  exists self2 w3,
    invocations (console w3) = invocations (console w) ++ [i] /\
    checkpoints (console w3) = checkpoints (console w) /\
    stop_txt w3 = false /\
    iteration_body cfg env i self (apply_actions (before env i) w)
    = if i mod checkpoint_interval cfg =? 0
      then Stop (Returned 2) self2
             (_write_state cfg env STOPPED i
                (_get_current_task_description cfg (apply_actions (before env i) w))
                PENDING
                ("Checkpoint " ++ str_of_Z (i / checkpoint_interval cfg)
                 ++ " - paused for review")
                (emit (CheckpointReached (i / checkpoint_interval cfg)) w3))
      else Continue self2 w3.
Proof.
  intros Hi Hs. destruct (all_well i Hi) as (Hl & Hch & Hq).
  unfold no_stop_request in Hq. apply andb_prop in Hq. destruct Hq as (Hq1 & Hq2).
  apply negb_true_iff in Hq1, Hq2.
  destruct (productive_pass cfg env i self (apply_actions (before env i) w))
    as (self2 & w3 & H1 & H2 & H3 & Hb).
  - lia.
  - now rewrite stop_txt_apply_actions, Hs, Hq1.
  - unfold exit_code_of. now rewrite Hl.
  - assumption.
  - exists self2, w3. rewrite console_apply_actions in H1, H2.
    rewrite H3, Hq2. auto.
Qed.

(** As long as the iteration number is below the interval, the passes of
    such a run all go on. *)
Lemma steady_passes (k : nat) :
  Z.of_nat k <= N -> Z.of_nat k < checkpoint_interval cfg ->
  exists self w,
    at_loop_head cfg env w0 (Z.of_nat k) self w /\
    stop_txt w = false /\
    invocations (console w) = invocations (console w0) ++ iterations k /\
    checkpoints (console w) = checkpoints (console w0).
Proof.
  induction k as [|k IH]; intros Hk Hc.
  - exists init_self, w0. cbn. rewrite app_nil_r. repeat split; auto. constructor.
  - destruct IH as (self & w & Hh & Hs & Hinv & Hck); [lia | lia |].
    destruct (steady_pass (Z.of_nat k + 1) self w ltac:(lia) Hs)
      as (self2 & w3 & H1 & H2 & H3 & Hb).
    destruct (Z.eqb_spec ((Z.of_nat k + 1) mod checkpoint_interval cfg) 0) as [Hmod|_].
    { exfalso. rewrite Z.mod_small in Hmod; lia. }
    exists self2, w3.
    replace (Z.of_nat (S k)) with (Z.of_nat k + 1) by lia.
    split; [eapply head_next; [exact Hh | lia | exact Hb] |].
    split; [assumption |]. split; [| congruence].
    rewrite H1, Hinv, iterations_succ. now rewrite app_assoc.
Qed.

End Steady.

(** The first pause of a run that goes well comes at the iteration whose
    number is the checkpoint interval. *)
Lemma first_pause_at_interval (cfg : Config) (env : Env) (w0 : World) :
  1 <= checkpoint_interval cfg <= max_iterations cfg ->
  product_md w0 = true ->
  stop_txt w0 = false ->
  (forall i, 1 <= i <= checkpoint_interval cfg ->
     launch env i = Some 0 /\ marker_unchanged env i = false /\
     no_stop_request env i = true) ->
  exists self' w',
    run cfg env w0 = Some (Returned 2, self', w') /\
    invocations (console w')
      = invocations (console w0) ++ iterations (Z.to_nat (checkpoint_interval cfg)) /\
    checkpoints (console w') = checkpoints (console w0) ++ [1] /\
    (exists l, console w' = l ++ [CheckpointReached 1]) /\
    snapshot_is (state_json w') STOPPED (checkpoint_interval cfg) PENDING.
Proof.
  intros Hc Hp Hs Hall.
  set (c := checkpoint_interval cfg) in *.
  destruct (steady_passes cfg env w0 c ltac:(lia) Hs ltac:(lia) Hall
              (Z.to_nat (c - 1)) ltac:(lia) ltac:(lia))
    as (self & w & Hh & Hsw & Hinv & Hck).
  rewrite Z2Nat.id in Hh by lia.
  destruct (steady_pass cfg env c ltac:(lia) Hall (c - 1 + 1) self w ltac:(lia) Hsw)
    as (self2 & w3 & H1 & H2 & H3 & Hb).
  replace (c - 1 + 1) with c in * by lia. fold c in Hb.
  rewrite Z.mod_same, Z.div_same in Hb by lia. cbn [Z.eqb] in Hb.
  eexists _, _. split.
  { eapply (run_stops cfg env w0 (c - 1)); [exact Hp | exact Hh | lia |].
    replace (c - 1 + 1) with c by lia. exact Hb. }
  split; [| split; [| split; [| apply snapshot_write_state]]];
    cbn [_write_state now set_state tick console emit].
  - rewrite invocations_app, H1, Hinv. cbn [invocations flat_map app].
    rewrite app_nil_r, <- app_assoc. f_equal.
    replace (Z.to_nat c) with (S (Z.to_nat (c - 1))) by lia.
    rewrite iterations_succ. do 2 f_equal. lia.
  - rewrite checkpoints_app, H2, Hck. reflexivity.
  - eexists. reflexivity.
Qed.

(** A run that goes well and whose limit is below the checkpoint interval
    makes all its iterations and ends on the limit. *)
Lemma runs_to_the_limit (cfg : Config) (env : Env) (w0 : World) :
  0 <= max_iterations cfg < checkpoint_interval cfg ->
  product_md w0 = true ->
  stop_txt w0 = false ->
  (forall i, 1 <= i <= max_iterations cfg ->
     launch env i = Some 0 /\ marker_unchanged env i = false /\
     no_stop_request env i = true) ->
  exists self' w',
    run cfg env w0 = Some (Returned 2, self', w') /\
    invocations (console w')
      = invocations (console w0) ++ iterations (Z.to_nat (max_iterations cfg)) /\
    checkpoints (console w') = checkpoints (console w0) /\
    (exists l, console w' = l ++ [MaxIterationsReached]) /\
    snapshot_is (state_json w') STOPPED (max_iterations cfg) PENDING.
Proof.
  intros Hm Hp Hs Hall.
  destruct (steady_passes cfg env w0 (max_iterations cfg) ltac:(lia) Hs ltac:(lia) Hall
              (Z.to_nat (max_iterations cfg)) ltac:(lia) ltac:(lia))
    as (self & w & Hh & Hsw & Hinv & Hck).
  rewrite Z2Nat.id in Hh by lia.
  rewrite (run_exhausts cfg env w0 _ self w Hp Hh) by lia.
  unfold max_iterations_reached.
  eexists _, _. split; [reflexivity |].
  split; [| split; [| split; [| apply snapshot_write_state]]];
    cbn [_write_state now set_state tick console emit].
  - rewrite invocations_app, Hinv. cbn. now rewrite app_nil_r.
  - rewrite checkpoints_app, Hck. cbn. now rewrite app_nil_r.
  - eexists. reflexivity.
Qed.

(** An exit code the loop does not know ends the run with that code, after
    the STOPPED snapshot is written. *)
Lemma unknown_exit_code_ends_run (cfg : Config) (env : Env) (w0 : World) i self w :
  product_md w0 = true ->
  at_loop_head cfg env w0 i self w ->
  i < max_iterations cfg ->
  policy_reached cfg env (i + 1) self (apply_actions (before env (i + 1)) w) = true ->
  exit_code_of env (i + 1) <> 0 ->
  exit_code_of env (i + 1) <> 1 ->
  exit_code_of env (i + 1) <> 99 ->
  exists self' w',
    run cfg env w0 = Some (Returned (exit_code_of env (i + 1)), self', w') /\
    (exists l, console w' = l ++ [UnknownExitCode (exit_code_of env (i + 1))]) /\
    snapshot_is (state_json w') STOPPED (i + 1) COMPLETED.
Proof.
  intros Hp Hh Hlt Hr H0 H1 H99.
  destruct (unknown_exit_code_stops cfg env (i + 1) self _ Hr H0 H1 H99)
    as (self' & w' & Hb & Hl & Hsnap).
  exists self', w'. split; [eapply run_stops; eassumption | auto].
Qed.

(** A stop file found at the start of an iteration ends the run with code 0:
    the file is removed, the agent is not started, the feedback store and
    the counters are left alone, and the snapshot stays the RUNNING one. *)
Lemma stop_file_ends_run (cfg : Config) (env : Env) (w0 : World) i self w :
  product_md w0 = true ->
  at_loop_head cfg env w0 i self w ->
  i < max_iterations cfg ->
  checkpoint_interval cfg <> 0 ->
  stop_txt (apply_actions (before env (i + 1)) w) = true ->
  exists w',
    run cfg env w0 = Some (Returned 0, self, w') /\
    stop_txt w' = false /\
    invocations (console w') = invocations (console w) /\
    (exists l, console w' = l ++ [StopFileDetected]) /\
    feedback w' = feedback (apply_actions (before env (i + 1)) w) /\
    snapshot_is (state_json w') RUNNING (i + 1) IN_PROGRESS.
Proof.
  intros Hp Hh Hlt Hci Hs.
  pose proof (body_stop_file cfg env (i + 1) self _ Hci Hs) as Hb.
  eexists. split; [eapply run_stops; eassumption |].
  split; [reflexivity |]. split; [| split; [| split]].
  - cbn [set_stop emit console started _write_state now set_state tick].
    rewrite invocations_app, console_apply_actions. cbn. now rewrite app_nil_r.
  - eexists. reflexivity.
  - reflexivity.
  - change (state_json (set_stop false (emit StopFileDetected
              (started cfg env (i + 1) (apply_actions (before env (i + 1)) w)))))
      with (state_json (started cfg env (i + 1) (apply_actions (before env (i + 1)) w))).
    unfold started. apply snapshot_write_state.
Qed.

End LoopFacts.

(** * Further properties of the texts, the store and the snapshot *)

Module MoreFacts.
Import Text Json Datetime State Feedback Runner Monitor SnapshotFacts.
Local Open Scope string_scope.
Local Open Scope Z_scope.

(** ** Lines *)

Lemma split_lines_nonempty (s : string) :
  forall cur, exists x l, split_lines cur s = x :: l.
Proof.
  induction s as [|c s IH]; intros cur; cbn [split_lines]; [eauto |].
  destruct (Ascii.eqb c newline); [eauto | apply IH].
Qed.

Lemma join_cons (sep x : string) (l : list string) :
  l <> [] -> join sep (x :: l) = x ++ sep ++ join sep l.
Proof. destruct l; [contradiction | reflexivity]. Qed.

(** Joining the lines of a text with line breaks gives the text back. *)
Lemma join_split_lines (s : string) :
  forall cur, join nl (split_lines cur s) = rev_string "" cur ++ s.
Proof.
  induction s as [|c s IH]; intros cur; cbn [split_lines].
  - cbn [join String.concat]. now rewrite append_nil_r.
  - destruct (Ascii.eqb_spec c newline) as [->|Hc].
    + destruct (split_lines_nonempty s "") as (x & l & E).
      rewrite join_cons by (rewrite E; discriminate).
      rewrite IH. reflexivity.
    + rewrite IH. cbn [rev_string]. rewrite (rev_string_append cur), append_assoc.
      reflexivity.
Qed.

Lemma split_lines_single (x : string) :
  forall cur rest,
    single_line x = true ->
    split_lines cur (x ++ rest) = split_lines (rev_string cur x) rest.
Proof.
  induction x as [|c x IH]; intros cur rest H; [reflexivity |].
  cbn [single_line] in H. apply andb_prop in H. destruct H as (Hc & Hx).
  cbn [append split_lines rev_string].
  destruct (Ascii.eqb c newline); [discriminate | now apply IH].
Qed.

Lemma single_line_rev (s : string) :
  forall acc, single_line (rev_string acc s) = single_line s && single_line acc.
Proof.
  induction s as [|c s IH]; intros acc; cbn [rev_string single_line]; [reflexivity |].
  rewrite IH. cbn [single_line]. 
  destruct (Ascii.eqb c newline), (single_line s), (single_line acc); reflexivity.
Qed.

(** The lines of a text hold no line break. *)
Lemma split_lines_single_lines (s : string) :
  forall cur, single_line cur = true ->
    Forall (fun x => single_line x = true) (split_lines cur s).
Proof.
  induction s as [|c s IH]; intros cur Hcur; cbn [split_lines].
  - constructor; [| constructor]. now rewrite single_line_rev, Hcur.
  - destruct (Ascii.eqb c newline) eqn:Hc.
    + constructor; [now rewrite single_line_rev, Hcur | now apply IH].
    + apply IH. cbn [single_line]. now rewrite Hc, Hcur.
Qed.

(** Splitting what was joined gives the lines back. *)
Lemma split_lines_join (l : list string) :
  l <> [] ->
  Forall (fun x => single_line x = true) l ->
  split_lines "" (join nl l) = l.
Proof.
  induction l as [|x l IH]; intros Hne Hl; [contradiction |].
  inversion Hl as [|? ? Hx Hl']; subst.
  destruct l as [|y l].
  - cbn [join String.concat]. rewrite <- (append_nil_r x) at 1.
    rewrite split_lines_single by assumption. cbn [split_lines].
    now rewrite rev_string_involutive.
  - rewrite join_cons by discriminate.
    rewrite split_lines_single by assumption.
    change (nl ++ join nl (y :: l)) with (String newline (join nl (y :: l))).
    cbn [split_lines]. rewrite Ascii.eqb_refl, rev_string_involutive.
    now rewrite IH.
Qed.

Lemma join_app (a b : list string) :
  a <> [] -> b <> [] -> join nl (a ++ b) = join nl a ++ nl ++ join nl b.
Proof.
  induction a as [|x a IH]; intros Ha Hb; [contradiction |].
  destruct a as [|y a].
  - cbn [app]. now rewrite join_cons.
  - change ((x :: y :: a) ++ b)%list with (x :: ((y :: a) ++ b))%list.
    rewrite join_cons by discriminate. rewrite IH by (discriminate || assumption).
    rewrite (join_cons nl x (y :: a)) by discriminate.
    now rewrite !append_assoc.
Qed.

Lemma lastn_split {A : Type} (n : nat) (l : list A) :
  (firstn (List.length l - n) l ++ lastn n l)%list = l.
Proof. apply firstn_skipn. Qed.

Lemma length_lastn {A : Type} (n : nat) (l : list A) :
  (n <= List.length l)%nat -> List.length (lastn n l) = n.
Proof. intros H. unfold lastn. rewrite length_skipn. lia. Qed.

(** What the output panel shows of an output of more than ten lines: its
    last ten lines, the text before them dropped. *)
Lemma output_panel_long (s : State) (output : string) :
  output = (if nonempty (last_output s) then last_output s
            else "[dim]No output yet...[/dim]") ->
  (10 < List.length (split_lines "" output))%nat ->
  split_lines "" (create_output_panel s) = lastn 10 (split_lines "" output)
  /\ List.length (split_lines "" (create_output_panel s)) = 10%nat
  /\ exists dropped, output = dropped ++ create_output_panel s.
Proof.
  intros -> Hlen. unfold create_output_panel.
  set (output := if nonempty (last_output s) then last_output s else _) in *.
  set (lines := split_lines "" output) in *.
  apply Nat.ltb_lt in Hlen as Hb. rewrite Hb.
  assert (Hlast : List.length (lastn 10 lines) = 10%nat)
    by (apply length_lastn; lia).
  assert (Hne : lastn 10 lines <> [])
    by (intros E; rewrite E in Hlast; discriminate).
  assert (Hsplit : split_lines "" (join nl (lastn 10 lines)) = lastn 10 lines).
  { apply split_lines_join; [assumption |].
    pose proof (split_lines_single_lines output "" eq_refl) as Hall.
    fold lines in Hall. rewrite <- (lastn_split 10 lines) in Hall.
    now apply Forall_app in Hall. }
  split; [assumption |]. split; [now rewrite Hsplit |].
  exists (join nl (firstn (List.length lines - 10) lines) ++ nl).
  rewrite append_assoc, <- join_app.
  - rewrite lastn_split. unfold lines. now rewrite join_split_lines.
  - intros E. apply (f_equal (@List.length string)) in E.
    rewrite length_firstn in E. cbn in E. lia.
  - assumption.
Qed.

(** ** Counting marks *)

(** An occurrence of a text that starts with a line break cannot start inside
    a single line. *)
Lemma count_single_line (q a r : string) :
  single_line a = true ->
  count (String newline q) (a ++ r) = count (String newline q) r.
Proof.
  unfold count. induction a as [|c a IH]; intros H; [reflexivity |].
  cbn [single_line] in H. apply andb_prop in H. destruct H as (Hc & Ha).
  cbn [append count_from String.prefix].
  destruct (ascii_dec newline c) as [<-|_].
  - rewrite Ascii.eqb_refl in Hc. discriminate.
  - now apply IH.
Qed.

(** ** The task line *)

Lemma first_in_progress_nonempty (lines : list string) (d : string) :
  first_in_progress lines = Some d -> nonempty d = true.
Proof.
  induction lines as [|l r IH]; cbn [first_in_progress]; [discriminate |].
  destruct (startswith "- [-]" (strip l)); [| exact IH].
  intros H. injection H as <-.
  destruct (nonempty (strip (replace_empty "- [-]" l))) eqn:E;
    [exact E | reflexivity].
Qed.

(** ** The feedback directory *)

Lemma get_put_same (n c : string) (d : list (string * string)) :
  get_file n (put_file n c d) = Some c.
Proof.
  induction d as [|[m x] d IH]; cbn [put_file get_file].
  - now rewrite String.eqb_refl.
  - destruct (String.eqb m n) eqn:E; cbn [get_file].
    + now rewrite String.eqb_refl.
    + now rewrite E.
Qed.

Lemma get_put_other (n' n c : string) (d : list (string * string)) :
  n' <> n -> get_file n' (put_file n c d) = get_file n' d.
Proof.
  intros Hn. apply String.eqb_neq in Hn.
  induction d as [|[m x] d IH]; cbn [put_file get_file].
  - rewrite String.eqb_sym. now rewrite Hn.
  - destruct (String.eqb m n) eqn:E; cbn [get_file].
    + apply String.eqb_eq in E. subst m.
      rewrite String.eqb_sym, Hn. reflexivity.
    + now rewrite IH.
Qed.

Lemma length_put_present (n c x : string) (d : list (string * string)) :
  get_file n d = Some x ->
  List.length (put_file n c d) = List.length d.
Proof.
  induction d as [|[m y] d IH]; cbn [put_file get_file]; [discriminate |].
  destruct (String.eqb m n); [reflexivity |].
  intros H. cbn [List.length]. now rewrite IH.
Qed.

Lemma join_merge (sep x y : string) (l : list string) :
  join sep ((x ++ sep ++ y) :: l) = join sep (x :: y :: l).
Proof.
  destruct l as [|z l].
  - reflexivity.
  - rewrite (join_cons sep x) by discriminate.
    rewrite !(join_cons sep _ (z :: l)) by discriminate.
    now rewrite !append_assoc.
Qed.

Lemma post_all_pending (ps : list Post) :
  forall c a,
    post_all ps (mk_Store (Some c) a)
    = mk_Store (Some (join separator (c :: map post_entry ps))) a.
Proof.
  induction ps as [|p ps IH]; intros c a; [reflexivity |].
  unfold post_all in *. cbn [fold_left map].
  unfold post at 2. unfold post_feedback. cbn [pending_file archive_dir].
  rewrite IH. fold (post_entry p). fold separator.
  now rewrite join_merge.
Qed.

(** ** Documents that are no object *)

Lemma loads_number (z : Z) : loads (str_of_Z z) = Some (JInt z).
Proof.
  assert (H : loads (str_of_Z z ++ "") = Some (JInt z)).
  { unfold loads. rewrite skip_ws_number.
    rewrite parse_value_int by reflexivity. reflexivity. }
  now rewrite append_nil_r in H.
Qed.

Lemma loads_string (s : string) : loads (encode_string s) = Some (JString s).
Proof.
  assert (H : loads (encode_string s ++ "") = Some (JString s)).
  { unfold loads. rewrite skip_ws_encode_string.
    rewrite parse_value_string. reflexivity. }
  now rewrite append_nil_r in H.
Qed.

(** ** Extensions *)

Lemma drop_nil (n : nat) : drop n "" = "".
Proof. destruct n; reflexivity. Qed.

Lemma drop_drop (b : nat) :
  forall a s, drop a (drop b s) = drop (b + a) s.
Proof.
  induction b as [|b IH]; intros a s; [reflexivity |].
  destruct s as [|c s]; cbn [drop Nat.add].
  - now rewrite !drop_nil.
  - apply IH.
Qed.

Lemma endswith_drop (p s : string) :
  endswith p s = true <->
  (String.length p <= String.length s)%nat
  /\ drop (String.length s - String.length p) s = p.
Proof.
  unfold endswith. rewrite andb_true_iff, Nat.leb_le, String.eqb_eq. tauto.
Qed.

(** Of two endings of a name the shorter is an ending of the longer. *)
Lemma endswith_both (p q s : string) :
  endswith p s = true -> endswith q s = true ->
  (String.length p <= String.length q)%nat ->
  endswith p q = true.
Proof.
  intros Hp Hq Hle. apply endswith_drop in Hp, Hq. apply endswith_drop.
  destruct Hp as (Hps & Hp), Hq as (Hqs & Hq).
  split; [assumption |].
  transitivity (drop (String.length q - String.length p)
                  (drop (String.length s - String.length q) s));
    [now rewrite Hq |].
  rewrite drop_drop. etransitivity; [| exact Hp]. f_equal. lia.
Qed.

(** The four extensions exclude each other. *)
Lemma one_extension (n : string) :
  match endswith ".ts" n, endswith ".tsx" n, endswith ".js" n, endswith ".py" n with
  | true, false, false, false
  | false, true, false, false
  | false, false, true, false
  | false, false, false, true
  | false, false, false, false => True
  | _, _, _, _ => False
  end.
Proof.
  destruct (endswith ".ts" n) eqn:A, (endswith ".tsx" n) eqn:B,
    (endswith ".js" n) eqn:C, (endswith ".py" n) eqn:D; try exact I;
    exfalso;
    first
      [ pose proof (endswith_both _ _ _ A B ltac:(cbn; lia)) as H; discriminate H
      | pose proof (endswith_both _ _ _ A C ltac:(cbn; lia)) as H; discriminate H
      | pose proof (endswith_both _ _ _ A D ltac:(cbn; lia)) as H; discriminate H
      | pose proof (endswith_both _ _ _ C B ltac:(cbn; lia)) as H; discriminate H
      | pose proof (endswith_both _ _ _ D B ltac:(cbn; lia)) as H; discriminate H
      | pose proof (endswith_both _ _ _ C D ltac:(cbn; lia)) as H; discriminate H ].
Qed.

Lemma count_ext_from (ext : string) (files : list SrcFile) :
  forall acc,
    fold_left
      (fun acc f =>
         if endswith ext (src_name f) then
           (fst acc + match src_lines f with Some n => n | None => 0 end,
            snd acc + 1)
         else acc)
      files acc
    = (fst acc + sum_lines (filter (fun f => endswith ext (src_name f)) files),
       snd acc
       + Z.of_nat (List.length (filter (fun f => endswith ext (src_name f)) files))).
Proof.
  induction files as [|f files IH]; intros [a b]; cbn [fold_left filter].
  - cbn. f_equal; lia.
  - rewrite IH. destruct (endswith ext (src_name f)); cbn [fst snd];
      [| reflexivity].
    set (l := filter (fun f => endswith ext (src_name f)) files).
    change (sum_lines (f :: l)) with (readable_lines f + sum_lines l).
    cbn [List.length]. rewrite Nat2Z.inj_succ. unfold readable_lines.
    f_equal; lia.
Qed.

Lemma count_ext_filter (ext : string) (files : list SrcFile) :
  count_ext ext files
  = (sum_lines (filter (fun f => endswith ext (src_name f)) files),
     Z.of_nat (List.length (filter (fun f => endswith ext (src_name f)) files))).
Proof. unfold count_ext. rewrite count_ext_from. reflexivity. Qed.

(** Over the four extensions together each source file is met once. *)
Lemma four_extensions (files : list SrcFile) :
  let m ext := filter (fun f => endswith ext (src_name f)) files in
  sum_lines (m ".ts") + sum_lines (m ".tsx") + sum_lines (m ".js")
  + sum_lines (m ".py") = sum_lines (filter is_source files)
  /\ Z.of_nat (List.length (m ".ts")) + Z.of_nat (List.length (m ".tsx"))
     + Z.of_nat (List.length (m ".js")) + Z.of_nat (List.length (m ".py"))
     = Z.of_nat (List.length (filter is_source files)).
Proof.
  cbv zeta. induction files as [|f files (IH1 & IH2)]; [split; reflexivity |].
  cbn [filter].
  assert (Hs : is_source f
               = endswith ".ts" (src_name f) || endswith ".tsx" (src_name f)
                 || endswith ".js" (src_name f) || endswith ".py" (src_name f))
    by reflexivity.
  rewrite Hs. clear Hs.
  pose proof (one_extension (src_name f)) as H.
  destruct (endswith ".ts" (src_name f)), (endswith ".tsx" (src_name f)),
    (endswith ".js" (src_name f)), (endswith ".py" (src_name f));
    try contradiction; cbn [orb];
    repeat match goal with
      | |- context [sum_lines (f :: ?l)] =>
          change (sum_lines (f :: l)) with (readable_lines f + sum_lines l)
      end;
    cbn [List.length]; rewrite ?Nat2Z.inj_succ; split; lia.
Qed.

Lemma collect_code_metrics_sources (files : list SrcFile) :
  collect_code_metrics (Some files)
  = mk_CodeMetrics (sum_lines (filter is_source files))
      (Z.of_nat (List.length (filter is_source files))).
Proof.
  unfold collect_code_metrics. cbn [fold_left].
  rewrite !count_ext_filter. cbn [fst snd].
  destruct (four_extensions files) as (H1 & H2). cbv zeta in H1, H2.
  f_equal; lia.
Qed.

End MoreFacts.

(** * The claims *)

Import Text Json Datetime State Feedback Runner Scenarios RunnerFacts SnapshotFacts.
Local Open Scope list_scope.

(** C1: the circuit-breaker return skips the final write.  With the defaults
    and an agent that exits with 0 and never commits, [run] returns 1 after
    the third iteration with the circuit-breaker banner, and the snapshot
    file still reads back as the RUNNING snapshot of iteration 3. *)
Theorem circuit_breaker_leaves_snapshot_running :
  exists self' w' s,
    run default_config (stalled (fun _ => 0)) fresh_project
      = Some (Returned 1, self', w') /\
    no_progress_count self' = max_no_progress default_config /\
    (exists l, console w' = l ++ [CircuitBreakerTriggered]) /\
    load noon (state_json w') = Loaded (Some s) /\
    status s = RUNNING /\
    current (State.iteration s) = 3.
Proof.
  eexists _, _, _. split; [vm_compute; reflexivity |].
  split; [reflexivity |]. split; [eexists [_; _; _]; reflexivity |].
  split; [vm_compute; reflexivity |]. split; reflexivity.
Qed.

(** C2, as stated, fails: with the defaults, an agent that makes no commit
    and exits with 0, 0 and then 99 has the circuit breaker open in the third
    iteration, before the exit code is looked at, and [run] returns 1. *)
Lemma exit_99_behind_open_breaker_returns_1 :
  launch (stalled (completes_at 3)) 3 = Some 99 /\
  exists self' w',
    run default_config (stalled (completes_at 3)) fresh_project
      = Some (Returned 1, self', w') /\
    invocations (console w') = [1; 2; 3] /\
    exists l, console w' = l ++ [CircuitBreakerTriggered].
Proof.
  split; [reflexivity |].
  eexists _, _. split; [vm_compute; reflexivity |].
  split; [reflexivity |]. eexists [_; _; _]. reflexivity.
Qed.

(** C2, amended.  A pass in which the agent exits with 99 ends the run at
    once, whatever the failure counter: with code 0, the completion banner
    and the STOPPED snapshot when the circuit breaker stays closed in that
    pass (the marker changed, or the no-progress counter plus one is below
    the limit), with code 1 when it opens.  The agent is not started
    again. *)
Theorem exit_99_ends_the_run (cfg : Config) (env : Env) (w0 : World) i self w :
  product_md w0 = true ->
  at_loop_head cfg env w0 i self w ->
  i < max_iterations cfg ->
  checkpoint_interval cfg <> 0 ->
  stop_txt (apply_actions (before env (i + 1)) w) = false ->
  launch env (i + 1) = Some 99 ->
  let opens :=
    marker_unchanged env (i + 1)
    && (no_progress_count self + 1 >=? max_no_progress cfg) in
  exists self' w',
    run cfg env w0 = Some (Returned (if opens then 1 else 0), self', w') /\
    consecutive_failures self' = consecutive_failures self /\
    invocations (console w') = invocations (console w) ++ [i + 1] /\
    (opens = false ->
     (exists l, console w' = l ++ [ProjectComplete]) /\
     snapshot_is (state_json w') STOPPED (i + 1) COMPLETED).
Proof.
  intros Hp Hh Hlt Hci Hstop Hl opens.
  destruct (exit_99_pass cfg env (i + 1) self _ Hci Hstop Hl)
    as (self' & w' & Hb & Hcf & Hinv & Hok).
  assert (Hopens : breaker_opens cfg env (i + 1) self = opens).
  { unfold breaker_opens, opens, progress_checked.
    now destruct (marker_unchanged env (i + 1)). }
  rewrite Hopens in Hb, Hok.
  exists self', w'. split; [eapply run_stops; eassumption |].
  split; [assumption |]. split; [| assumption].
  now rewrite Hinv, console_apply_actions.
Qed.

Lemma exit_99_ends_the_run_witness :
  exists self' w',
    run default_config (progressing (completes_at 1)) fresh_project
      = Some (Returned 0, self', w') /\
    consecutive_failures self' = 0 /\
    invocations (console w') = [1] /\
    (exists l, console w' = l ++ [ProjectComplete]) /\
    snapshot_is (state_json w') STOPPED 1 COMPLETED.
Proof.
  destruct (exit_99_ends_the_run default_config (progressing (completes_at 1))
              fresh_project 0 init_self fresh_project eq_refl (head_first _ _ _)
              eq_refl ltac:(discriminate) eq_refl eq_refl)
    as (self' & w' & Hrun & Hcf & Hinv & Hok).
  exists self', w'. destruct (Hok eq_refl) as (Hl & Hsnap).
  split; [exact Hrun | split; [exact Hcf | split; [exact Hinv | split; [exact Hl | exact Hsnap]]]].
Defined.

(** C3, as stated, fails when the threshold is not positive: with
    [max_consecutive_failures = 0] the first failing iteration takes the
    counter to 1, above the threshold, before the run escalates. *)
Lemma failures_exceed_zero_threshold :
  exists self' w',
    run (escalating_at 0) (progressing (fun _ => 1)) fresh_project
      = Some (Returned 1, self', w') /\
    max_consecutive_failures (escalating_at 0) < consecutive_failures self'.
Proof.
  eexists _, _. split; [vm_compute; reflexivity | cbn; lia].
Qed.

(** C3, amended.  With a threshold of at least 1: at every head of the loop
    the failure counter is below the threshold; a pass leaves it at most at
    the threshold; the pass sets it to 0 on exit code 0, adds one on exit
    code 1 and leaves it alone otherwise (and whenever the pass ends before
    the exit-code policy); and the pass in which it reaches the threshold
    ends the run with code 1, the escalation banner last on the console,
    the STOPPED snapshot written and no agent invocation after this one. *)
Theorem failures_bounded_until_escalation (cfg : Config) (env : Env) (w0 : World) :
  1 <= max_consecutive_failures cfg ->
  product_md w0 = true ->
  forall i self w,
    at_loop_head cfg env w0 i self w ->
    0 <= consecutive_failures self < max_consecutive_failures cfg /\
    (i < max_iterations cfg ->
     let wi := apply_actions (before env (i + 1)) w in
     let pass := iteration_body cfg env (i + 1) self wi in
     let cf' := consecutive_failures (step_self pass) in
     cf' <= max_consecutive_failures cfg /\
     cf' = (if policy_reached cfg env (i + 1) self wi
            then if exit_code_of env (i + 1) =? 0 then 0
                 else if exit_code_of env (i + 1) =? 1
                      then consecutive_failures self + 1
                      else consecutive_failures self
            else consecutive_failures self) /\
     (cf' = max_consecutive_failures cfg ->
      exists w',
        run cfg env w0 = Some (Returned 1, step_self pass, w') /\
        (exists l, console w' = l ++ [EscalationRequired]) /\
        snapshot_is (state_json w') STOPPED (i + 1) COMPLETED /\
        invocations (console w') = invocations (console w) ++ [i + 1])).
Proof.
  intros Hmax Hp i self w Hh.
  pose proof (head_below_threshold cfg env w0 i self w Hmax Hh) as Hcf.
  split; [exact Hcf |]. intros Hlt wi pass cf'.
  pose proof (body_failures cfg env (i + 1) self wi) as Hbf.
  fold pass in Hbf. fold cf' in Hbf.
  split; [| split; [exact Hbf |]].
  - rewrite Hbf.
    destruct (policy_reached cfg env (i + 1) self wi); [| lia].
    destruct (exit_code_of env (i + 1) =? 0); [lia |].
    destruct (exit_code_of env (i + 1) =? 1); lia.
  - intros Heq.
    destruct (threshold_escalates cfg env (i + 1) self wi (proj2 Hcf) Hmax Heq)
      as (w' & Hb & Hl & Hsnap & Hinv).
    exists w'. repeat split; try assumption.
    + eapply run_stops; eassumption.
    + rewrite Hinv. unfold wi. now rewrite console_apply_actions.
Qed.

Lemma failures_bounded_until_escalation_witness :
  0 <= consecutive_failures init_self < max_consecutive_failures (escalating_at 1) /\
  exists w',
    run (escalating_at 1) (progressing (fun _ => 1)) fresh_project
      = Some (Returned 1, mk_Self 1 0, w') /\
    (exists l, console w' = l ++ [EscalationRequired]) /\
    snapshot_is (state_json w') STOPPED 1 COMPLETED /\
    invocations (console w') = [1].
Proof.
  destruct (failures_bounded_until_escalation (escalating_at 1)
              (progressing (fun _ => 1)) fresh_project
              ltac:(cbn; lia) eq_refl 0 init_self fresh_project
              (head_first _ _ _)) as (H1 & H2).
  split; [exact H1 |].
  destruct (H2 ltac:(cbn; lia)) as (_ & _ & H3).
  exact (H3 eq_refl).
Defined.

(** C4, as stated, fails when the limit is not positive: with
    [max_no_progress = 0] the counter stands at the limit before the first
    iteration, the agent is started all the same, and the run ends on the
    circuit breaker with the counter at 1, above the limit. *)
Lemma no_progress_count_passes_zero_limit :
  (forall i, marker_unchanged (stalled (fun _ => 0)) i = true) /\
  no_progress_count init_self = max_no_progress (breaking_at 0) /\
  exists self' w',
    run (breaking_at 0) (stalled (fun _ => 0)) fresh_project
      = Some (Returned 1, self', w') /\
    invocations (console w') = [1] /\
    max_no_progress (breaking_at 0) < no_progress_count self'.
Proof.
  split; [intros i; reflexivity |]. split; [reflexivity |].
  eexists _, _. split; [vm_compute; reflexivity |].
  split; [reflexivity | cbn; lia].
Qed.

(** C4, amended.  At every head of the loop: the pass that follows takes
    the no-progress counter one up when the agent ran and the marker is
    unchanged, back to 0 when the agent ran and the marker changed, and
    leaves it alone when the pass ends before the agent; the run goes on
    from the head the pass leaves or ends as the pass does.  With a limit of
    at least 1 and a marker that is unchanged in every iteration, the
    counter at the head is the number of iterations made, below the limit,
    the agent having run once in each of them; the pass leaves it at most at
    the limit; and the pass in which it reaches the limit ends the run with
    code 1, the circuit-breaker banner last on the console and no agent
    invocation after this one. *)
Theorem no_progress_counter_counts_to_the_breaker (cfg : Config) (env : Env)
  (w0 : World) :
  product_md w0 = true ->
  forall i self w,
    at_loop_head cfg env w0 i self w ->
    (1 <= max_no_progress cfg ->
     (forall j, marker_unchanged env j = true) ->
     no_progress_count self = i /\ i < max_no_progress cfg /\
     invocations (console w)
       = invocations (console w0) ++ iterations (Z.to_nat i)) /\
    (i < max_iterations cfg ->
     let wi := apply_actions (before env (i + 1)) w in
     let pass := iteration_body cfg env (i + 1) self wi in
     let n' := no_progress_count (step_self pass) in
     n' = (if agent_reached cfg wi
           then if marker_unchanged env (i + 1)
                then no_progress_count self + 1 else 0
           else no_progress_count self) /\
     match pass with
     | Continue self' w' => at_loop_head cfg env w0 (i + 1) self' w'
     | Stop o self' w' => run cfg env w0 = Some (o, self', w')
     end /\
     (1 <= max_no_progress cfg ->
      (forall j, marker_unchanged env j = true) ->
      n' <= max_no_progress cfg /\
      (n' = max_no_progress cfg ->
       exists w',
         run cfg env w0 = Some (Returned 1, step_self pass, w') /\
         (exists l, console w' = l ++ [CircuitBreakerTriggered]) /\
         invocations (console w')
           = invocations (console w0) ++ iterations (Z.to_nat n')))).
Proof.
  intros Hp i self w Hh. split.
  - intros Hmax Hun.
    exact (LoopFacts.stalled_head_counts cfg env w0 Hun Hmax i self w Hh).
  - intros Hlt wi pass n'. split; [apply LoopFacts.pass_no_progress |].
    split; [exact (LoopFacts.pass_joins_run cfg env w0 i self w Hp Hh Hlt) |].
    intros Hmax Hun.
    exact (LoopFacts.stalled_pass_limit cfg env w0 Hun Hmax i self w Hp Hh Hlt).
Qed.

Lemma no_progress_counter_counts_to_the_breaker_witness :
  (no_progress_count init_self = 0 /\ 0 < max_no_progress (breaking_at 1) /\
   invocations (console fresh_project)
     = invocations (console fresh_project) ++ iterations 0) /\
  no_progress_count
    (step_self (iteration_body (breaking_at 1) (stalled (fun _ => 0)) 1
                  init_self fresh_project)) = 1 /\
  no_progress_count
    (step_self (iteration_body (breaking_at 1) (progressing (fun _ => 0)) 1
                  init_self fresh_project)) = 0 /\
  (exists w',
     run (breaking_at 1) (stalled (fun _ => 0)) fresh_project
       = Some (Returned 1, mk_Self 0 1, w') /\
     (exists l, console w' = l ++ [CircuitBreakerTriggered]) /\
     invocations (console w') = invocations (console fresh_project) ++ iterations 1) /\
  exists w',
    run (breaking_at 1) outside_git fresh_project
      = Some (Returned 1, mk_Self 0 1, w') /\
    (exists l, console w' = l ++ [CircuitBreakerTriggered]) /\
    invocations (console w') = invocations (console fresh_project) ++ iterations 1.
Proof.
  destruct (no_progress_counter_counts_to_the_breaker (breaking_at 1)
              (stalled (fun _ => 0)) fresh_project eq_refl 0 init_self
              fresh_project (head_first _ _ _)) as (Hhead & Hpass).
  destruct (Hpass eq_refl) as (Hrule & _ & Hlimit).
  destruct (no_progress_counter_counts_to_the_breaker (breaking_at 1)
              outside_git fresh_project eq_refl 0 init_self
              fresh_project (head_first _ _ _)) as (_ & Hpass2).
  destruct (Hpass2 eq_refl) as (_ & _ & Hlimit2).
  destruct (no_progress_counter_counts_to_the_breaker (breaking_at 1)
              (progressing (fun _ => 0)) fresh_project eq_refl 0 init_self
              fresh_project (head_first _ _ _)) as (_ & Hpass').
  destruct (Hpass' eq_refl) as (Hrule' & _).
  split; [exact (Hhead ltac:(cbn; lia) (fun _ => eq_refl)) |].
  split; [exact Hrule |]. split; [exact Hrule' |].
  split; [exact (proj2 (Hlimit ltac:(cbn; lia) (fun _ => eq_refl)) eq_refl) |].
  exact (proj2 (Hlimit2 ltac:(cbn; lia) (fun _ => eq_refl)) eq_refl).
Defined.

(** C5.  With a checkpoint interval of 10, at least ten iterations allowed,
    the steering documents in place, and iterations 1..10 all ending with
    exit code 0, a moved marker and no stop file: nine passes go on, the
    agent runs in iterations 1..10, the one checkpoint pause is number 1 and
    is the last thing printed, the snapshot written is STOPPED at iteration
    10 with the task PENDING, and [run] returns 2. *)
Theorem first_checkpoint_at_iteration_10 (cfg : Config) (env : Env) (w0 : World) :
  checkpoint_interval cfg = 10 ->
  10 <= max_iterations cfg ->
  product_md w0 = true ->
  stop_txt w0 = false ->
  (forall i, 1 <= i <= 10 ->
     launch env i = Some 0 /\ marker_unchanged env i = false /\
     no_stop_request env i = true) ->
  (exists self9 w9,
     at_loop_head cfg env w0 9 self9 w9 /\
     checkpoints (console w9) = checkpoints (console w0)) /\
  exists self' w',
    run cfg env w0 = Some (Returned 2, self', w') /\
    invocations (console w') = invocations (console w0) ++ iterations 10 /\
    checkpoints (console w') = checkpoints (console w0) ++ [1] /\
    (exists l, console w' = l ++ [CheckpointReached 1]) /\
    snapshot_is (state_json w') STOPPED 10 PENDING.
Proof.
  intros Hci Hmax Hp Hs Hall. split.
  - destruct (nine_passes cfg env w0 Hci Hmax Hs Hall 9 (le_n _))
      as (self & w & Hh & _ & _ & Hck).
    exists self, w. split; assumption.
  - now apply tenth_pass_pauses.
Qed.

Lemma first_checkpoint_at_iteration_10_witness :
  (exists self9 w9,
     at_loop_head default_config (progressing (fun _ => 0)) fresh_project 9 self9 w9 /\
     checkpoints (console w9) = checkpoints (console fresh_project)) /\
  exists self' w',
    run default_config (progressing (fun _ => 0)) fresh_project
      = Some (Returned 2, self', w') /\
    invocations (console w') = invocations (console fresh_project) ++ iterations 10 /\
    checkpoints (console w') = checkpoints (console fresh_project) ++ [1] /\
    (exists l, console w' = l ++ [CheckpointReached 1]) /\
    snapshot_is (state_json w') STOPPED 10 PENDING.
Proof.
  apply (first_checkpoint_at_iteration_10 default_config
           (progressing (fun _ => 0)) fresh_project);
    [reflexivity | cbn; lia | reflexivity | reflexivity |].
  intros i Hi.
  assert (C : i = 1 \/ i = 2 \/ i = 3 \/ i = 4 \/ i = 5 \/ i = 6 \/ i = 7
              \/ i = 8 \/ i = 9 \/ i = 10) by lia.
  repeat (destruct C as [-> | C]; [vm_compute; auto |]).
  subst i. vm_compute. auto.
Defined.

(** C6.  The state with status running, iteration 5 of 50, 1200 lines in 10
    files and the task "Implement auth" in progress, saved with any recent
    output and any valid time stamp over whatever the file held, is loaded
    back equal to the state saved, field by field. *)
Theorem snapshot_round_trip (last_output : string) (t now : datetime) (old : file) :
  valid t = true ->
  load now
    (save (mk_State RUNNING (mk_IterationState 5 50) (mk_CodeMetrics 1200 10)
             (mk_TaskInfo "Implement auth" IN_PROGRESS) last_output t) old)
  = Loaded
      (Some (mk_State RUNNING (mk_IterationState 5 50) (mk_CodeMetrics 1200 10)
               (mk_TaskInfo "Implement auth" IN_PROGRESS) last_output t)).
Proof. intros Hv. now apply load_save. Qed.

Lemma snapshot_round_trip_witness :
  load noon
    (save (mk_State RUNNING (mk_IterationState 5 50) (mk_CodeMetrics 1200 10)
             (mk_TaskInfo "Implement auth" IN_PROGRESS) "" noon) None)
  = Loaded
      (Some (mk_State RUNNING (mk_IterationState 5 50) (mk_CodeMetrics 1200 10)
               (mk_TaskInfo "Implement auth" IN_PROGRESS) "" noon)).
Proof. exact (snapshot_round_trip "" noon noon None eq_refl). Defined.

(** C7.  With no pending file, [archive_feedback] returns [None] and leaves
    the store as it is, archive directory included, and so does any number
    of calls in a row. *)
Theorem archive_without_pending_is_a_no_op (st : Store) (t0 : datetime)
  (times : list datetime) :
  pending_file st = None ->
  archive_feedback t0 st = (None, st) /\
  archive_times times st = (repeat None (List.length times), st).
Proof.
  intros Hp.
  assert (H1 : forall t, archive_feedback t st = (None, st)).
  { intros t. unfold archive_feedback, has_pending_feedback. now rewrite Hp. }
  split; [apply H1 |].
  induction times as [|t r IH]; cbn [archive_times repeat List.length]; [reflexivity |].
  now rewrite H1, IH.
Qed.

Lemma archive_without_pending_is_a_no_op_witness :
  archive_feedback noon empty_store = (None, empty_store) /\
  archive_times [noon; noon; noon] empty_store = ([None; None; None], empty_store).
Proof.
  exact (archive_without_pending_is_a_no_op empty_store noon [noon; noon; noon] eq_refl).
Defined.

(** C8: feedback that arrives while the agent runs is archived unread.
    Nothing is pending when the only iteration starts, so the prompt carries
    no feedback; the feedback is posted during the agent run; the agent
    exits with 0 after a commit; the policy then finds a pending file and
    archives it. *)
Theorem feedback_posted_during_the_run_is_archived :
  has_pending_feedback (feedback fresh_project) = false /\
  exists self' w' name text,
    run single_iteration late_feedback fresh_project
      = Some (Returned 2, self', w') /\
    console w'
      = [CodexInvoked
           (mk_Prompt 1 1 "Steering-driven (working from product.md directly)" None);
         FeedbackArchived name; MaxIterationsReached] /\
    feedback w' = mk_Store None (Some [(name, text)]) /\
    text = entry "Fix the login page" HIGH BUG noon.
Proof.
  split; [reflexivity |].
  eexists _, _, _, _. split; [vm_compute; reflexivity |].
  split; [reflexivity |]. split; [reflexivity |]. vm_compute. reflexivity.
Qed.

(** C9, as stated, fails: [save] opens the file for writing, which empties
    it, and writes afterwards.  Between the two the file is neither the
    previous snapshot nor the new one, and a reader loads nothing from it. *)
Lemma save_passes_through_an_empty_file :
  exists f : file,
    In f (save_observations [document (paused noon)]
            (save (at_work "" noon) None)) /\
    f <> save (at_work "" noon) None /\
    f <> save (paused noon) (save (at_work "" noon) None) /\
    load noon f = Loaded None.
Proof.
  exists (Some ""%string). split; [right; left; reflexivity |].
  split; [discriminate |]. split; [discriminate | reflexivity].
Qed.

(** C9, amended.  [save] truncates the file and then writes the document in
    place: while it runs the file is the previous one, then empty (which
    loads as absent), then a growing prefix of the new document, and at the
    end the whole new document, which loads back as the state saved. *)
Theorem save_truncates_then_writes (s : State) (chunks : list string)
  (old : file) (now : datetime) :
  String.concat "" chunks = document s ->
  In (Some ""%string) (save_observations chunks old) /\
  load now (Some ""%string) = Loaded None /\
  (forall f, In f (save_observations chunks old) ->
     f = old \/ exists p q, f = Some p /\ document s = (p ++ q)%string) /\
  last (save_observations chunks old) None = save s old /\
  (valid (timestamp s) = true -> load now (save s old) = Loaded (Some s)).
Proof.
  intros Hc. unfold save_observations, open_w.
  split; [right; left; reflexivity |]. split; [reflexivity |].
  split; [| split].
  - intros f [<- | [<- | H]].
    + now left.
    + right. exists ""%string, (document s). auto.
    + right. destruct (flushes_prefix _ _ _ H) as (p & q & -> & E).
      exists p, q. rewrite <- Hc. auto.
  - rewrite save_content, <- Hc, !last_cons_default.
    now rewrite (flushes_last chunks ""%string).
  - intros Hv. now apply load_save.
Qed.

Lemma save_truncates_then_writes_witness :
  In (Some ""%string)
    (save_observations [document (paused noon)] (save (at_work "" noon) None)) /\
  load noon (Some ""%string) = Loaded None /\
  last (save_observations [document (paused noon)] (save (at_work "" noon) None)) None
    = save (paused noon) (save (at_work "" noon) None) /\
  load noon (save (paused noon) (save (at_work "" noon) None))
  = Loaded (Some (paused noon)).
Proof.
  destruct (save_truncates_then_writes (paused noon) [document (paused noon)]
              (save (at_work "" noon) None) noon eq_refl)
    as (A & B & _ & D & E).
  split; [exact A | split; [exact B | split; [exact D | exact (E eq_refl)]]].
Defined.

(** C10.  When the agent command is not found, [_run_codex] returns 1, and
    the exit-code policy treats the iteration as a failure: the failure
    counter goes up by one, the loop goes on while the counter is below the
    threshold, and it stops with the escalation banner (not the
    unknown-exit-code error) once the threshold is reached. *)
Theorem missing_agent_counts_as_failure (cfg : Config) (env : Env)
  (i : Z) (prompt : Prompt) (w : World) (cb ca : option string) (self : Self) :
  launch env i = None ->
  let '(exit_code, w1) := _run_codex env i prompt w in
  let '(continue, self', w2) :=
    _handle_exit_code cfg env exit_code i cb ca self w1 in
  exit_code = 1 /\
  consecutive_failures self' = consecutive_failures self + 1 /\
  no_progress_count self' = no_progress_count self /\
  (consecutive_failures self + 1 < max_consecutive_failures cfg ->
   continue = true /\ w2 = w1) /\
  (max_consecutive_failures cfg <= consecutive_failures self + 1 ->
   continue = false /\ w2 = emit EscalationRequired w1).
Proof.
  intros Hl. unfold _run_codex. rewrite Hl.
  unfold _handle_exit_code. cbn [Z.eqb Pos.eqb consecutive_failures no_progress_count].
  destruct (Z.geb_spec (consecutive_failures self + 1) (max_consecutive_failures cfg));
    repeat split; try reflexivity; lia.
Qed.

Lemma missing_agent_counts_as_failure_witness :
  let '(exit_code, w1) :=
    _run_codex not_installed 1 (mk_Prompt 1 50 "" None) fresh_project in
  let '(continue, self', w2) :=
    _handle_exit_code default_config not_installed exit_code 1 None None init_self w1 in
  exit_code = 1 /\
  consecutive_failures self' = consecutive_failures init_self + 1 /\
  no_progress_count self' = no_progress_count init_self /\
  (consecutive_failures init_self + 1 < max_consecutive_failures default_config ->
   continue = true /\ w2 = w1) /\
  (max_consecutive_failures default_config <= consecutive_failures init_self + 1 ->
   continue = false /\ w2 = emit EscalationRequired w1).
Proof.
  exact (missing_agent_counts_as_failure default_config not_installed 1
           (mk_Prompt 1 50 "" None) fresh_project None None init_self eq_refl).
Defined.

(** * Further properties of the code *)

Import Monitor LoopFacts MoreFacts.

(** ** The loop *)

(** X1.  Whatever the configuration and the environment, [run] comes to an
    end, and by then the agent has been started for the iterations 1, 2, ...,
    n, in this order and once each, for an n that does not pass
    [max_iterations]. *)
Theorem agent_started_once_per_iteration (cfg : Config) (env : Env) (w0 : World) :
  exists o self' w' (n : nat),
    run cfg env w0 = Some (o, self', w') /\
    invocations (console w') = invocations (console w0) ++ iterations n /\
    Z.of_nat n <= Z.max 0 (max_iterations cfg).
Proof. exact (run_invocations cfg env w0). Qed.

(** X2.  [run] raises exactly when the steering documents are there, the
    limit allows a first iteration and the checkpoint interval is 0: the
    division by the interval at the head of the first pass. *)
Theorem run_raises_exactly_on_a_zero_interval (cfg : Config) (env : Env) (w0 : World) :
  (exists self' w', run cfg env w0 = Some (Raised ZeroDivisionError, self', w'))
  <-> (product_md w0 = true /\ 0 < max_iterations cfg /\
       checkpoint_interval cfg = 0).
Proof.
  destruct (run_raises_iff cfg env w0) as (H1 & H2). split.
  - intros (self' & w' & H). exact (H2 _ _ _ H).
  - intros H. eexists _, _. exact (H1 H).
Qed.

(** X3.  The codes [run] returns: 0, 1 or 2, or the exit code of the agent
    in one of the iterations when that code is none of 0, 1 and 99. *)
Theorem run_return_codes (cfg : Config) (env : Env) (w0 : World) :
  exists o self' w',
    run cfg env w0 = Some (o, self', w') /\
    forall c, o = Returned c ->
      c = 0 \/ c = 1 \/ c = 2 \/
      exists i, 1 <= i <= max_iterations cfg /\
                c = exit_code_of env i /\ c <> 0 /\ c <> 1 /\ c <> 99.
Proof.
  destruct (run_returns cfg env w0) as ([[o self'] w'] & Hrun).
  exists o, self', w'. split; [assumption |].
  intros c ->. exact (run_codes cfg env w0 c self' w' Hrun).
Qed.

(** X4.  A stop file found at the start of an iteration ends the run with
    code 0: the file is removed, the agent is not started, the counters and
    the feedback store are left alone, and the snapshot stays the RUNNING
    one of that iteration. *)
Theorem stop_file_ends_the_run (cfg : Config) (env : Env) (w0 : World)
  (i : Z) (self : Self) (w : World) :
  product_md w0 = true ->
  at_loop_head cfg env w0 i self w ->
  i < max_iterations cfg ->
  checkpoint_interval cfg <> 0 ->
  stop_txt (apply_actions (before env (i + 1)) w) = true ->
  exists w',
    run cfg env w0 = Some (Returned 0, self, w') /\
    stop_txt w' = false /\
    invocations (console w') = invocations (console w) /\
    (exists l, console w' = l ++ [StopFileDetected]) /\
    feedback w' = feedback (apply_actions (before env (i + 1)) w) /\
    snapshot_is (state_json w') RUNNING (i + 1) IN_PROGRESS.
Proof. apply stop_file_ends_run. Qed.

Lemma stop_file_ends_the_run_witness :
  exists w',
    run default_config (stalled (fun _ => 0)) stop_requested
      = Some (Returned 0, init_self, w') /\
    stop_txt w' = false /\
    invocations (console w') = invocations (console stop_requested) /\
    (exists l, console w' = l ++ [StopFileDetected]) /\
    feedback w' = feedback stop_requested /\
    snapshot_is (state_json w') RUNNING 1 IN_PROGRESS.
Proof.
  exact (stop_file_ends_the_run default_config (stalled (fun _ => 0))
           stop_requested 0 init_self stop_requested eq_refl (head_first _ _ _)
           eq_refl ltac:(discriminate) eq_refl).
Defined.

(** X5.  Whatever the run does, the snapshot file is either left as it was
    or holds the document of a snapshot whose iteration number does not pass
    the limit it states, the limit being [max_iterations] and the time stamp
    a reading of the clock. *)
Theorem snapshot_iteration_within_limit (cfg : Config) (env : Env) (w0 : World) :
  exists o self' w',
    run cfg env w0 = Some (o, self', w') /\
    (state_json w' = state_json w0 \/
     exists s : State,
       state_json w' = Some (document s) /\
       current (State.iteration s) <= specified (State.iteration s) /\
       specified (State.iteration s) = max_iterations cfg /\
       exists n, timestamp s = clock env n).
Proof. exact (run_snapshot cfg env w0). Qed.

(** X6.  With a clock that gives valid times, the dashboard that reads the
    snapshot file after the run shows the snapshot the run wrote last, unless
    the run left the file as it was. *)
Theorem dashboard_reads_what_the_run_wrote (cfg : Config) (env : Env)
  (w0 : World) (m : Z) (t : datetime) :
  (forall n, valid (clock env n) = true) ->
  exists o self' w',
    run cfg env w0 = Some (o, self', w') /\
    (state_json w' = state_json w0 \/
     exists s : State,
       state_json w' = Some (document s) /\
       read_state m t (state_json w') = Shown s /\
       current (State.iteration s) <= specified (State.iteration s) /\
       specified (State.iteration s) = max_iterations cfg).
Proof.
  intros Hclock.
  destruct (run_snapshot cfg env w0) as (o & self' & w' & Hrun & H).
  exists o, self', w'. split; [assumption |].
  destruct H as [H | (s & Hs & Hle & Hsp & n & Hn)]; [now left | right].
  exists s. split; [assumption |]. split; [| split; assumption].
  rewrite Hs, <- (save_content s None). unfold read_state.
  rewrite load_save; [reflexivity |]. rewrite Hn. apply Hclock.
Qed.

Lemma dashboard_reads_what_the_run_wrote_witness :
  exists o self' w',
    run default_config (stalled (fun _ => 0)) fresh_project = Some (o, self', w') /\
    (state_json w' = state_json fresh_project \/
     exists s : State,
       state_json w' = Some (document s) /\
       read_state 50 noon (state_json w') = Shown s /\
       current (State.iteration s) <= specified (State.iteration s) /\
       specified (State.iteration s) = max_iterations default_config).
Proof.
  exact (dashboard_reads_what_the_run_wrote default_config
           (stalled (fun _ => 0)) fresh_project 50 noon (fun _ => eq_refl)).
Defined.

(** X7.  When no iteration moves the progress marker and the no-progress
    limit is not above the failure threshold, the run never escalates: the
    failure counter stays below the threshold and the escalation banner is
    never printed, whatever the agent exits with. *)
Theorem no_commits_never_escalate (cfg : Config) (env : Env) (w0 : World) :
  (forall i, marker_unchanged env i = true) ->
  max_no_progress cfg <= max_consecutive_failures cfg ->
  1 <= max_consecutive_failures cfg ->
  ~ In EscalationRequired (console w0) ->
  exists o self' w',
    run cfg env w0 = Some (o, self', w') /\
    consecutive_failures self' < max_consecutive_failures cfg /\
    ~ In EscalationRequired (console w').
Proof. apply stalled_run_never_escalates. Qed.

Lemma no_commits_never_escalate_witness :
  exists o self' w',
    run default_config (stalled (fun _ => 1)) fresh_project = Some (o, self', w') /\
    consecutive_failures self' < max_consecutive_failures default_config /\
    ~ In EscalationRequired (console w').
Proof.
  exact (no_commits_never_escalate default_config (stalled (fun _ => 1))
           fresh_project (fun _ => eq_refl) ltac:(cbn; lia) ltac:(cbn; lia)
           (fun H : In EscalationRequired [] => H)).
Defined.

(** X8.  For every checkpoint interval from 1 up to the limit, a run in
    which the agent exits with 0 after a commit in each iteration, and nobody
    asks for a stop, pauses for the first time at the iteration whose number
    is the interval: the agent was started in each iteration up to it,
    checkpoint 1 is the only one announced, the snapshot is STOPPED and
    [run] returns 2. *)
Theorem first_pause_at_the_interval (cfg : Config) (env : Env) (w0 : World) :
  1 <= checkpoint_interval cfg <= max_iterations cfg ->
  product_md w0 = true ->
  stop_txt w0 = false ->
  (forall i, 1 <= i <= checkpoint_interval cfg ->
     launch env i = Some 0 /\ marker_unchanged env i = false /\
     no_stop_request env i = true) ->
  exists self' w',
    run cfg env w0 = Some (Returned 2, self', w') /\
    invocations (console w')
      = invocations (console w0) ++ iterations (Z.to_nat (checkpoint_interval cfg)) /\
    checkpoints (console w') = checkpoints (console w0) ++ [1] /\
    (exists l, console w' = l ++ [CheckpointReached 1]) /\
    snapshot_is (state_json w') STOPPED (checkpoint_interval cfg) PENDING.
Proof. apply first_pause_at_interval. Qed.

Lemma first_pause_at_the_interval_witness :
  exists self' w',
    run every_second (progressing (fun _ => 0)) fresh_project
      = Some (Returned 2, self', w') /\
    invocations (console w') = invocations (console fresh_project) ++ iterations 2 /\
    checkpoints (console w') = checkpoints (console fresh_project) ++ [1] /\
    (exists l, console w' = l ++ [CheckpointReached 1]) /\
    snapshot_is (state_json w') STOPPED 2 PENDING.
Proof.
  apply (first_pause_at_the_interval every_second (progressing (fun _ => 0))
           fresh_project);
    [cbn; lia | reflexivity | reflexivity |].
  intros i Hi.
  assert (C : i = 1 \/ i = 2) by (cbn in Hi; lia).
  destruct C as [-> | ->]; vm_compute; auto.
Defined.

(** X9.  With a limit below the checkpoint interval, a run in which the
    agent exits with 0 after a commit in each iteration, and nobody asks for
    a stop, makes all its iterations without a pause and ends on the limit:
    [run] returns 2 after the STOPPED snapshot of the last iteration. *)
Theorem run_reaches_the_limit (cfg : Config) (env : Env) (w0 : World) :
  0 <= max_iterations cfg < checkpoint_interval cfg ->
  product_md w0 = true ->
  stop_txt w0 = false ->
  (forall i, 1 <= i <= max_iterations cfg ->
     launch env i = Some 0 /\ marker_unchanged env i = false /\
     no_stop_request env i = true) ->
  exists self' w',
    run cfg env w0 = Some (Returned 2, self', w') /\
    invocations (console w')
      = invocations (console w0) ++ iterations (Z.to_nat (max_iterations cfg)) /\
    checkpoints (console w') = checkpoints (console w0) /\
    (exists l, console w' = l ++ [MaxIterationsReached]) /\
    snapshot_is (state_json w') STOPPED (max_iterations cfg) PENDING.
Proof. apply runs_to_the_limit. Qed.

Lemma run_reaches_the_limit_witness :
  exists self' w',
    run single_iteration (progressing (fun _ => 0)) fresh_project
      = Some (Returned 2, self', w') /\
    invocations (console w') = invocations (console fresh_project) ++ iterations 1 /\
    checkpoints (console w') = checkpoints (console fresh_project) /\
    (exists l, console w' = l ++ [MaxIterationsReached]) /\
    snapshot_is (state_json w') STOPPED 1 PENDING.
Proof.
  apply (run_reaches_the_limit single_iteration (progressing (fun _ => 0))
           fresh_project);
    [cbn; lia | reflexivity | reflexivity |].
  intros i Hi.
  assert (C : i = 1) by (cbn in Hi; lia).
  subst i. vm_compute. auto.
Defined.

(** X10.  An exit code other than 0, 1 and 99, in an iteration that reaches
    the exit-code policy, ends the run: [run] returns that code, after the
    message about the unknown code and the STOPPED snapshot of the
    iteration. *)
Theorem unknown_exit_code_ends_the_run (cfg : Config) (env : Env) (w0 : World)
  (i : Z) (self : Self) (w : World) :
  product_md w0 = true ->
  at_loop_head cfg env w0 i self w ->
  i < max_iterations cfg ->
  policy_reached cfg env (i + 1) self (apply_actions (before env (i + 1)) w) = true ->
  exit_code_of env (i + 1) <> 0 ->
  exit_code_of env (i + 1) <> 1 ->
  exit_code_of env (i + 1) <> 99 ->
  exists self' w',
    run cfg env w0 = Some (Returned (exit_code_of env (i + 1)), self', w') /\
    (exists l, console w' = l ++ [UnknownExitCode (exit_code_of env (i + 1))]) /\
    snapshot_is (state_json w') STOPPED (i + 1) COMPLETED.
Proof. apply unknown_exit_code_ends_run. Qed.

Lemma unknown_exit_code_ends_the_run_witness :
  exists self' w',
    run default_config (stalled (fun _ => 7)) fresh_project
      = Some (Returned 7, self', w') /\
    (exists l, console w' = l ++ [UnknownExitCode 7]) /\
    snapshot_is (state_json w') STOPPED 1 COMPLETED.
Proof.
  exact (unknown_exit_code_ends_the_run default_config (stalled (fun _ => 7))
           fresh_project 0 init_self fresh_project eq_refl (head_first _ _ _)
           eq_refl eq_refl ltac:(discriminate) ltac:(discriminate)
           ltac:(discriminate)).
Defined.

(** X11.  The exit-code policy archives exactly when the exit code is 0, the
    marker has moved and a pending file is there at that moment; the archive
    then holds the pending text under the new name and nothing is pending.
    In every other case the policy leaves the feedback store as it is. *)
Theorem policy_archives_only_after_success_with_commit (cfg : Config) (env : Env)
  (ec i : Z) (cb ca : option string) (self : Self) (w : World) :
  let w3 := snd (_handle_exit_code cfg env ec i cb ca self w) in
  if (ec =? 0) && negb (commit_eqb cb ca) && has_pending_feedback (feedback w)
  then pending_file (feedback w3) = None /\
       exists name content dir,
         pending_file (feedback w) = Some content /\
         archive_dir (feedback w3) = Some dir /\ In (name, content) dir
  else feedback w3 = feedback w.
Proof. apply policy_archives. Qed.

(** ** The tasks file *)

(** X12.  [_get_current_task_description] never gives the empty text. *)
Theorem task_description_is_never_empty (cfg : Config) (w : World) :
  nonempty (_get_current_task_description cfg w) = true.
Proof.
  unfold _get_current_task_description.
  destruct (is_steering_driven cfg w); [reflexivity |].
  destruct (tasks_md w) as [content|]; [| reflexivity].
  destruct (first_in_progress (split_lines "" content)) as [d|] eqn:E;
    [| reflexivity].
  exact (first_in_progress_nonempty _ _ E).
Qed.

(** X13.  [_get_task_counts] looks for the marks behind a line break, so
    the first line of [tasks.md] is never counted: the counts are those of
    the text after the first line. *)
Theorem first_line_of_tasks_is_not_counted (cfg : Config) (w : World)
  (first rest : string) :
  is_steering_driven cfg w = false ->
  tasks_md w = Some (first ++ rest)%string ->
  single_line first = true ->
  _get_task_counts cfg w
  = (Z.of_nat (count (nl ++ "- [ ]") rest),
     Z.of_nat (count (nl ++ "- [-]") rest),
     Z.of_nat (count (nl ++ "- [x]") rest)).
Proof.
  intros Hm Ht Hf. unfold _get_task_counts. rewrite Hm, Ht.
  unfold nl, chr. cbn [append].
  now rewrite !count_single_line.
Qed.

Lemma first_line_of_tasks_is_not_counted_witness :
  _get_task_counts task_driven (with_tasks "- [ ] Implement auth")
  = (Z.of_nat (count (nl ++ "- [ ]") ""),
     Z.of_nat (count (nl ++ "- [-]") ""),
     Z.of_nat (count (nl ++ "- [x]") "")).
Proof.
  exact (first_line_of_tasks_is_not_counted task_driven
           (with_tasks "- [ ] Implement auth") "- [ ] Implement auth" ""
           eq_refl eq_refl eq_refl).
Defined.

(** ** The snapshot *)

(** X14.  Every state with a valid time stamp and with its four integers
    within the limit of the conversion to decimal text, saved over whatever
    the file held, is loaded back equal to the state saved. *)
Theorem snapshot_round_trips_within_int_limit (now : datetime) (s : State)
  (old : file) :
  valid (timestamp s) = true ->
  ints_within_limit s = true ->
  load now (save s old) = Loaded (Some s).
Proof. intros Hv _. now apply load_save. Qed.

Lemma snapshot_round_trips_within_int_limit_witness :
  load just_after_noon (save (paused noon) (Some "{}"%string))
  = Loaded (Some (paused noon)).
Proof.
  exact (snapshot_round_trips_within_int_limit just_after_noon (paused noon)
           (Some "{}"%string) eq_refl ltac:(vm_compute; reflexivity)).
Defined.

(** X15.  A snapshot file that holds, as [json.dumps] writes it, an integer
    within the limit of the conversion from decimal text or a string is not
    answered with [None]: [load] raises [TypeError], and so does the
    dashboard's [read_state]. *)
Theorem integer_or_string_document_raises_type_error (m : Z) (now : datetime)
  (j : json) :
  integer_or_string j = true ->
  load now (Some (dumps j)) = RaisedTypeError /\
  read_state m now (Some (dumps j)) = ReadRaisedTypeError.
Proof.
  destruct j as [| b | z | s | l | d]; try discriminate; intros _;
    unfold read_state, load.
  - change (dumps (JInt z)) with (str_of_Z z). rewrite loads_number.
    split; reflexivity.
  - change (dumps (JString s)) with (encode_string s). rewrite loads_string.
    split; reflexivity.
Qed.

Lemma integer_or_string_document_raises_type_error_witness :
  (load noon (Some (dumps (JInt 5))) = RaisedTypeError /\
   read_state 50 noon (Some (dumps (JInt 5))) = ReadRaisedTypeError) /\
  (load noon (Some (dumps (JString "running"))) = RaisedTypeError /\
   read_state 50 noon (Some (dumps (JString "running"))) = ReadRaisedTypeError).
Proof.
  split.
  - exact (integer_or_string_document_raises_type_error 50 noon (JInt 5)
             ltac:(vm_compute; reflexivity)).
  - exact (integer_or_string_document_raises_type_error 50 noon
             (JString "running") eq_refl).
Defined.

(** X16.  [collect_code_metrics] meets every file whose name ends in [.ts],
    [.tsx], [.js] or [.py] exactly once: the file count is the number of
    these files, and the line count is the sum of the lines of those that
    can be read. *)
Theorem code_metrics_count_each_source_file_once (files : list SrcFile) :
  collect_code_metrics (Some files)
  = mk_CodeMetrics (sum_lines (filter is_source files))
      (Z.of_nat (List.length (filter is_source files))).
Proof. apply collect_code_metrics_sources. Qed.

(** ** The dashboard *)

(** X17.  For a missing snapshot file and for one that holds nothing but
    white space, the dashboard shows the waiting state. *)
Theorem dashboard_waits_without_a_snapshot (m : Z) (now : datetime) (f : file) :
  (f = None \/ exists text, f = Some text /\ skip_ws text = ""%string) ->
  read_state m now f = Shown (create_waiting now m).
Proof.
  intros [-> | (text & -> & Hblank)]; [reflexivity |].
  unfold read_state, load, loads. rewrite Hblank. reflexivity.
Qed.

Lemma dashboard_waits_without_a_snapshot_witness :
  read_state 50 noon (Some (" " ++ nl)%string) = Shown (create_waiting noon 50).
Proof.
  exact (dashboard_waits_without_a_snapshot 50 noon (Some (" " ++ nl)%string)
           (or_intror (ex_intro _ (" " ++ nl)%string (conj eq_refl eq_refl)))).
Defined.

(** X18.  Of an output of more than ten lines the output panel shows the
    last ten lines and nothing else: split at the line breaks, the text of
    the panel gives these ten lines, and the output is the text of the panel
    behind the text that was dropped. *)
Theorem output_panel_keeps_the_last_ten_lines (s : State) (output : string) :
  output = (if nonempty (last_output s) then last_output s
            else "[dim]No output yet...[/dim]"%string) ->
  (10 < List.length (split_lines "" output))%nat ->
  split_lines "" (create_output_panel s) = lastn 10 (split_lines "" output)
  /\ List.length (split_lines "" (create_output_panel s)) = 10%nat
  /\ exists dropped, output = (dropped ++ create_output_panel s)%string.
Proof. apply output_panel_long. Qed.

Lemma output_panel_keeps_the_last_ten_lines_witness :
  split_lines "" (create_output_panel chatty)
  = lastn 10 (split_lines "" (last_output chatty))
  /\ List.length (split_lines "" (create_output_panel chatty)) = 10%nat
  /\ exists dropped,
       last_output chatty = (dropped ++ create_output_panel chatty)%string.
Proof.
  apply (output_panel_keeps_the_last_ten_lines chatty (last_output chatty));
    [reflexivity | vm_compute; lia].
Defined.

(** ** The feedback store *)

(** X19.  Posts made one after the other, with nothing pending before,
    leave a pending file that holds their entries in the order of posting
    with the separator between them; the archive is not touched. *)
Theorem posts_accumulate_in_order (p : Post) (ps : list Post)
  (a : option (list (string * string))) :
  post_all (p :: ps) (mk_Store None a)
  = mk_Store (Some (join separator (map post_entry (p :: ps)))) a.
Proof.
  unfold post_all. cbn [fold_left]. unfold post at 2, post_feedback.
  cbn [pending_file archive_dir].
  exact (post_all_pending ps _ a).
Qed.

(** X20.  Archiving moves the pending text: nothing is pending afterwards,
    the archive holds the text under the name made of the time, a second
    archiving finds nothing, and the other files of the archive are as they
    were. *)
Theorem archive_moves_the_pending_text (t t' : datetime) (st : Store)
  (text : string) :
  read_pending_feedback st = Some text ->
  exists st' dir,
    archive_feedback t st = (Some (strftime_archive t ++ ".md")%string, st') /\
    read_pending_feedback st' = None /\
    archive_dir st' = Some dir /\
    get_file (strftime_archive t ++ ".md") dir = Some text /\
    (forall other, other <> (strftime_archive t ++ ".md")%string ->
       get_file other dir
       = get_file other (match archive_dir st with Some d => d | None => [] end)) /\
    archive_feedback t' st' = (None, st').
Proof.
  unfold read_pending_feedback, archive_feedback, has_pending_feedback.
  destruct (pending_file st) as [c|] eqn:Hp; cbn [negb]; [| discriminate].
  intros H. injection H as ->.
  eexists _, _. split; [reflexivity |]. cbn [pending_file archive_dir negb].
  split; [reflexivity |]. split; [reflexivity |].
  split; [apply get_put_same |]. split; [| reflexivity].
  intros other Ho. now apply get_put_other.
Qed.

Lemma archive_moves_the_pending_text_witness :
  exists st' dir,
    archive_feedback noon (post login_bug empty_store)
      = (Some (strftime_archive noon ++ ".md")%string, st') /\
    read_pending_feedback st' = None /\
    archive_dir st' = Some dir /\
    get_file (strftime_archive noon ++ ".md") dir = Some (post_entry login_bug) /\
    (forall other, other <> (strftime_archive noon ++ ".md")%string ->
       get_file other dir = get_file other []) /\
    archive_feedback just_after_noon st' = (None, st').
Proof.
  exact (archive_moves_the_pending_text noon just_after_noon
           (post login_bug empty_store) (post_entry login_bug) eq_refl).
Defined.

(** X21.  The archive name has the second as its finest part, and moving a
    file onto a name replaces what is there: of two archivings within the
    same second the second one overwrites the file of the first, and the
    archive holds no more files than before it. *)
Theorem archives_in_the_same_second_overwrite (t t' : datetime) (p : Post)
  (st : Store) (text : string) :
  read_pending_feedback st = Some text ->
  strftime_archive t' = strftime_archive t ->
  exists name st1 st2 dir1 dir2,
    archive_feedback t st = (Some name, st1) /\
    archive_dir st1 = Some dir1 /\
    get_file name dir1 = Some text /\
    archive_feedback t' (post p st1) = (Some name, st2) /\
    archive_dir st2 = Some dir2 /\
    get_file name dir2 = Some (post_entry p) /\
    List.length dir2 = List.length dir1.
Proof.
  unfold read_pending_feedback, has_pending_feedback.
  destruct (pending_file st) as [c|] eqn:Hp; cbn [negb]; [| discriminate].
  intros H Ht. injection H as ->.
  unfold archive_feedback, has_pending_feedback. rewrite Hp. cbn [negb].
  unfold post, post_feedback. cbn [pending_file archive_dir negb]. rewrite Ht.
  eexists _, _, _, _, _. split; [reflexivity |]. split; [reflexivity |].
  split; [apply get_put_same |]. split; [reflexivity |]. split; [reflexivity |].
  split; [apply get_put_same |].
  eapply length_put_present. apply get_put_same.
Qed.

Lemma archives_in_the_same_second_overwrite_witness :
  exists name st1 st2 dir1 dir2,
    archive_feedback noon (post login_bug empty_store) = (Some name, st1) /\
    archive_dir st1 = Some dir1 /\
    get_file name dir1 = Some (post_entry login_bug) /\
    archive_feedback just_after_noon (post dark_mode st1) = (Some name, st2) /\
    archive_dir st2 = Some dir2 /\
    get_file name dir2 = Some (post_entry dark_mode) /\
    List.length dir2 = List.length dir1.
Proof.
  exact (archives_in_the_same_second_overwrite noon just_after_noon dark_mode
           (post login_bug empty_store) (post_entry login_bug) eq_refl eq_refl).
Defined.

(** X22.  [clear_feedback] tells whether something was pending and leaves
    nothing pending and the archive as it was: what was cleared is not
    archived later, and a second clearing finds nothing. *)
Theorem cleared_feedback_is_never_archived (t : datetime) (st : Store) :
  exists st',
    clear_feedback st = (has_pending_feedback st, st') /\
    read_pending_feedback st' = None /\
    archive_dir st' = archive_dir st /\
    archive_feedback t st' = (None, st') /\
    clear_feedback st' = (false, st').
Proof.
  unfold clear_feedback, read_pending_feedback, archive_feedback,
    has_pending_feedback.
  destruct (pending_file st) as [c|] eqn:Hp.
  - eexists. split; [reflexivity |]. cbn [pending_file archive_dir negb]. auto.
  - exists st. rewrite Hp. cbn [negb]. auto.
Qed.

(** ** From the loop to the dashboard *)

(** X23.  What [_write_state] writes, over whatever the file held, is what
    the dashboard reads: the status, the iteration with [max_iterations] as
    its limit, the metrics of the source tree as it is then, the task, the
    output and the time of the clock, which has been read once. *)
Theorem dashboard_shows_what_write_state_wrote (cfg : Config) (env : Env)
  (st : RunStatus) (i : Z) (d : string) (ts : TaskStatus) (lo : string)
  (w : World) (m : Z) (t : datetime) :
  valid (clock env (ticks w)) = true ->
  let w' := _write_state cfg env st i d ts lo w in
  read_state m t (state_json w')
  = Shown (mk_State st (mk_IterationState i (max_iterations cfg))
             (collect_code_metrics (src_tree w)) (mk_TaskInfo d ts) lo
             (clock env (ticks w)))
  /\ ticks w' = S (ticks w)
  /\ src_tree w' = src_tree w /\ feedback w' = feedback w
  /\ console w' = console w.
Proof.
  intros Hv. cbv zeta. unfold _write_state, now.
  cbn [state_json set_state tick src_tree ticks feedback console].
  split; [| repeat split].
  unfold read_state. now rewrite load_save.
Qed.

Lemma dashboard_shows_what_write_state_wrote_witness :
  let w' := _write_state default_config (stalled (fun _ => 0)) RUNNING 1
              "Working from steering documents" IN_PROGRESS
              "Iteration 1 starting..." fresh_project in
  read_state 50 just_after_noon (state_json w')
  = Shown (mk_State RUNNING (mk_IterationState 1 50)
             (collect_code_metrics None)
             (mk_TaskInfo "Working from steering documents" IN_PROGRESS)
             "Iteration 1 starting..." noon)
  /\ ticks w' = 1%nat
  /\ src_tree w' = None /\ feedback w' = empty_store
  /\ console w' = [].
Proof.
  exact (dashboard_shows_what_write_state_wrote default_config
           (stalled (fun _ => 0)) RUNNING 1 "Working from steering documents"
           IN_PROGRESS "Iteration 1 starting..." fresh_project 50
           just_after_noon eq_refl).
Defined.
